(* ===== verification/_CoqProject ===== *)
-Q . S2P
Prelude.v
Entities.v
Storage.v
Particles.v
Background.v
Spawner.v
Progression.v
Collision.v
Session.v
Loop.v
Render.v
