(* ===== verification/Prelude.v ===== *)
(** * FSCommunityGame: a verified model of the game simulation in [src/js/script.js]

    The program is a single-file browser game.  A flying object (the player)
    falls under gravity, is lifted by taps, and must pass between pairs of
    obstacles while collecting coins, hearts and power-up capsules.  All of
    the program's state lives in top-level [let] variables of [script.js],
    mutated by three input handlers ([handleMobileInput], [handleDesktopInput],
    [handleDesktopInputMouse]), by [resizeCanvas] and by the animation
    callback [gameLoop].  While a game is played, [gameLoop] moves the player,
    runs the boost and power-up timers and calls, in this order,
    [checkInvincibility], [generateObstacles], [Obstacle.update],
    [Coin.update], [drawPlayer], [detectCollision], [updateScore] (which calls
    [updateLevel]) and [updateParticles]; it then drops what has left the
    canvas, counts the frame and asks the browser for the next frame.

    ** How the program is modelled

    - Numbers.  JavaScript numbers are modelled as exact numbers: quantities
      that the program only ever gives integer values ([score], [lives],
      [level], [coinCount], [pipeStreak], [frame], [shakeTimer],
      [invincibleTimer], [invincibleCount], the millisecond clock [Date.now()])
      are [Z]; positions, sizes, speeds, the animation timestamp and the two
      timers decremented by the frame's [deltaTime] are rationals [Q].
      Rounding of IEEE doubles is not modelled; theorems on [Q] fields are
      stated with [==], with order, or as equations between the very
      expressions of the source.  [%] is [Z.rem] (truncating, as in
      JavaScript).  No value is bounded: integers stay far below 2^53 in any
      session the theorems describe, and nothing is proved by running out of
      range.
    - State.  The globals are the fields of one record [Entities.World], with
      the source's names; objects are records in a module of their own
      ([Player.t], [Obstacle.t], [Coin.t], [Particle.t], [PowerUp.t], ...).
      A function of the program that mutates globals is a function
      [World -> World]; sequencing is [let w := ... in].  Arrays are lists;
      an assignment past the end of [unlocks] extends it, as in JavaScript
      ([js_set]).
    - The environment.  [Math.random()] reads an oracle stream
      [rand : nat -> Q] through a cursor (both fields of the world; calls made
      only to pick a colour while drawing are not counted, which loses nothing
      because the stream is arbitrary).  [Date.now()] and the animation
      timestamp are arguments of the handlers and of [gameLoop]; the two reads
      of [Date.now()] inside one call of [detectCollision] are one value.
      [localStorage] is the pair of items the program uses ([highScore],
      [unlocks]).  Sound cues are appended to the field [sounds] (newest
      first) and shared posts to [posts]: they are the program's outputs.
      The text of the four display elements of lines 7-10 is the field
      [hud]; every assignment to [textContent] is a statement of the
      operation that makes it.  What is drawn on the canvas is not a field:
      a drawing function is modelled by the list of the calls it makes on
      the 2D context ([Render]), for the state in which the source calls
      it.
      [requestAnimationFrame] is the flag [rafPending]: the browser runs
      [gameLoop] only while it is set, the call consumes it, and line 1057
      sets it again.
    - Exceptions.  Every function body is wrapped in [try/catch]; on the
      modelled paths no statement can throw, so the handlers are total
      functions.
    - Recursion.  Every loop of the program is a structural recursion on a
      list or on a count ([replicateState], [mapState], [pickupCoins],
      [unlockFrom], [pushParticles]): no fuel is used, and every definition
      evaluates with [vm_compute] on the sample worlds of the witnesses.

    ** Files

    - [Prelude] (this file): boolean comparisons on [Q] with their
      specifications, the case-analysis tactics, the generator of record
      setters, the hint database [game], list lemmas and the state-passing
      iterators shared by the components.
    - [Entities]: the data model (catalog [flyingObjects], the object records,
      [World], its field setters, the oracle [random], the sound log, the
      initial world [loadWorld] of lines 94-135), field-wise equality of
      worlds and the tactics that read fields through setters; the views
      [counters], [clocks], [store], [hud] and [shape] of a world and the
      class [Keeps], by which a component promises that an operation leaves
      a view alone; the predicates [hud_ok] (the displays show the
      counters) and [Typed] (the indices are in range and the player is an
      instance of the selected catalog entry).
    - [Storage]: the readers of the two stored items ([parse_unlocks] for
      the JSON text of the unlock flags, [parse_Z] for the decimal text of
      the high score), the load [boot] of lines 94 and 115, which fails on a
      text the readers reject, the relation [stored] between a world and its
      store, and the class [Persisted] of the write/read round trip.
    - [Particles]: [createParticles] with its cap, [updateParticles], the
      boost trail of [drawPlayer]; the frame relation [only_particles].
    - [Background]: [resetBackground] and the state change of
      [drawBackground]; the frame relation [only_background].
    - [Spawner]: the [Obstacle] and [Coin] constructors and [update] methods,
      [generateObstacles].
    - [Progression]: [getLevelThreshold], [updateLevel], [checkInvincibility],
      [updateScore], with the reference definitions ([pipeReward],
      [unlocksFor], [markPassed]) the loops are proved equal to.
    - [Collision]: [detectCollision]: the pickup loop, the hazard test, the
      resolution of a collision and the blast.
    - [Session]: [resetGame], the three input handlers and the share text;
      the session mode read from the flags, and the six intents ([handled])
      every input resolves to.
    - [Loop]: the statements of [gameLoop] ([physics], [boostStep],
      [powerUpStep], [shake], [layoutObjectAreas], frame admission),
      [gameLoop] itself, [resizeCanvas], the events of the program and its
      transition function [step], reachable worlds, the invariant [WF] and
      the mode machine.
    - [Render]: the calls on the 2D context ([Cmd]), the display list of
      every drawing function and of a whole frame ([gameLoop_calls]), the
      rectangles a list of calls fills and the depth of its stack of saved
      states.

    ** What the theorems show

    Each component file proves the functional behaviour of its operations on
    every branch, a frame equation that names the only fields an operation
    writes, the equality of each loop with a list-level reference
    definition, and the [Keeps] instances of its operations, which are all
    the loop needs to know of the operations that are not rules of the game.  [Collision] shows how a collision is resolved, that the
    lives stay in range, and what the debounce and the invincibility skip.
    [Progression] shows the reward of passed pipes, the high score, the
    unlocks, victory, level tuning and the length of the invincibility
    window.  [Session] shows the reset, the 150 ms rate limit of inputs and
    that the handlers refine the six intents of [handled].  [Loop] composes
    them: the invariant [WF] holds in every world reachable from [loadWorld],
    and so does [Typed]; in every world reachable from [boot] the store
    reads back as the current unlock flags and high score ([Storage] proves
    the round trip of the two texts and characterises the loads that fail)
    and the displays show the counters ([hud_ok]);
    every event moves the session mode along
    Intro -> Playing -> GameOver/Victory -> Intro; a frame that is not late
    runs and requests the next one, and a frame later than 50 ms ends the
    animation loop for good; on a display of pixel ratio 3 no pointer
    position reaches a selection rectangle or a button.  [Render] relates
    what is drawn to what the rules test: the hazard test of a playing frame
    is the overlap of the rectangle of the player with the rectangles
    [Obstacle.draw] has just filled, the mouse handler of the end screen
    tests the two rectangles the end screen fills, and every frame restores
    the context state it saves.  Theorems with hypotheses come with a witness: a
    closed instance on a sample world, whose hypotheses are checked by
    computation.

    ** Not modelled

    Pixels: the display lists say which calls are made with which
    arguments, not what the canvas looks like.  Two arguments are symbolic:
    the hue of a star, a [Math.random()] per star and frame that the oracle
    does not count, and the pulse [Math.sin(frame * 0.03) * 0.1 + 1] of a
    nebula.  Audio synthesis inside [playSound] (the oscillator graph; which
    cue is played is modelled) and [console.log] are not modelled.  The
    document is not under [src/]: the pointer coordinates are taken in the
    coordinates of the canvas, and the initial text of the score display is
    unknown.  The readers of [Storage] accept the texts the program writes (a JSON
    array of [true] and [false] without blanks, a decimal integer); on any
    other stored text [boot] answers [None], which stands both for the
    [SyntaxError] of [JSON.parse] at line 94 and for stored values of another
    shape, on which the program would run with values outside the model.  A
    hole left by an assignment past the end of [unlocks] is written as
    [false], where [JSON.stringify] writes [null]; both are falsy when read
    back, and no hole arises from a store of at least four flags.  The text
    handed to the sharing page is recorded before URL encoding. *)

From Stdlib Require Import ZArith QArith Qround Qminmax Lqa Lia Bool List RelationClasses.
Import ListNotations.

Declare Scope game_scope.
Delimit Scope game_scope with game.

(** ** Boolean comparisons on rationals, as the source's [<], [<=], [>], [>=] *)

Definition Qleb (x y : Q) : bool := Qle_bool x y.
Definition Qltb (x y : Q) : bool := negb (Qleb y x).
Definition Qgtb (x y : Q) : bool := Qltb y x.
Definition Qgeb (x y : Q) : bool := Qleb y x.

Notation "x <? y" := (Qltb x y) (at level 70, no associativity) : game_scope.
Notation "x <=? y" := (Qleb x y) (at level 70, no associativity) : game_scope.
Notation "x >? y" := (Qgtb x y) (at level 70, no associativity) : game_scope.
Notation "x >=? y" := (Qgeb x y) (at level 70, no associativity) : game_scope.

(** [a[i] = v] on a JavaScript array: in range it overwrites, out of range the
    array grows and the holes read as [undefined], which is falsy. *)
Fixpoint js_set (i : nat) (v : bool) (l : list bool) : list bool :=
  match i, l with
  | O, [] => [v]
  | O, _ :: t => v :: t
  | S j, [] => false :: js_set j v []
  | S j, h :: t => h :: js_set j v t
  end.

(** [a[i]] read for its truthiness: [undefined] out of range. *)
Definition js_get (i : nat) (l : list bool) : bool := nth i l false.

(** ** Loops that thread the state

    [replicateState f n] is [Array(n).fill().map(f)] and [mapState f l] is
    [l.forEach(f)] rewriting each element, for a body [f] that also changes
    the state: elements are visited from the first to the last. *)

Fixpoint replicateState {S A : Type} (f : S -> A * S) (n : nat) (s : S) : list A * S :=
  match n with
  | O => ([], s)
  | S m =>
      let (a, s) := f s in
      let (l, s) := replicateState f m s in
      (a :: l, s)
  end.

Fixpoint mapState {S A B : Type} (f : A -> S -> B * S) (l : list A) (s : S) : list B * S :=
  match l with
  | [] => ([], s)
  | a :: t =>
      let (b, s) := f a s in
      let (t', s) := mapState f t s in
      (b :: t', s)
  end.

Local Open Scope Q_scope.

Lemma Qleb_spec (x y : Q) : BoolSpec (x <= y) (y < x) (Qleb x y).
Proof.
  unfold Qleb. destruct (Qle_bool x y) eqn:E; constructor.
  - now apply Qle_bool_iff.
  - apply Qnot_le_lt. intros H. apply Qle_bool_iff in H. congruence.
Qed.

Lemma Qltb_spec (x y : Q) : BoolSpec (x < y) (y <= x) (Qltb x y).
Proof.
  unfold Qltb. destruct (Qleb_spec y x) as [H|H]; simpl; constructor; lra.
Qed.

Lemma Qgtb_spec (x y : Q) : BoolSpec (y < x) (x <= y) (Qgtb x y).
Proof. apply Qltb_spec. Qed.

Lemma Qgeb_spec (x y : Q) : BoolSpec (y <= x) (x < y) (Qgeb x y).
Proof. apply Qleb_spec. Qed.

Lemma Qltb_true (x y : Q) : Qltb x y = true <-> x < y.
Proof. destruct (Qltb_spec x y); split; intros; auto; try discriminate; lra. Qed.

Lemma Qleb_true (x y : Q) : Qleb x y = true <-> x <= y.
Proof. destruct (Qleb_spec x y); split; intros; auto; try discriminate; lra. Qed.

Lemma Qltb_false (x y : Q) : Qltb x y = false <-> y <= x.
Proof. destruct (Qltb_spec x y); split; intros; auto; try discriminate; lra. Qed.

Lemma Qleb_false (x y : Q) : Qleb x y = false <-> y < x.
Proof. destruct (Qleb_spec x y); split; intros; auto; try discriminate; lra. Qed.

#[export] Instance Qltb_proper : Proper (Qeq ==> Qeq ==> eq) Qltb.
Proof.
  intros a b E c d F.
  destruct (Qltb_spec a c), (Qltb_spec b d); auto; rewrite E, F in *; lra.
Qed.

#[export] Instance Qleb_proper : Proper (Qeq ==> Qeq ==> eq) Qleb.
Proof.
  intros a b E c d F.
  destruct (Qleb_spec a c), (Qleb_spec b d); auto; rewrite E, F in *; lra.
Qed.

(** ** Case analysis on the guards of the source

    [case_cmp] replaces the first comparison found in the goal by its two
    outcomes, each with the order fact as a hypothesis; [case_guards] repeats
    it and closes the cases that arithmetic refutes. *)

Ltac case_cmp :=
  match goal with
  | |- context [Qltb ?x ?y] => destruct (Qltb_spec x y)
  | |- context [Qleb ?x ?y] => destruct (Qleb_spec x y)
  | |- context [Qgtb ?x ?y] => destruct (Qgtb_spec x y)
  | |- context [Qgeb ?x ?y] => destruct (Qgeb_spec x y)
  | |- context [Z.ltb ?x ?y] => destruct (Z.ltb_spec x y)
  | |- context [Z.leb ?x ?y] => destruct (Z.leb_spec x y)
  | |- context [Z.gtb ?x ?y] => rewrite (Z.gtb_ltb x y)
  | |- context [Z.geb ?x ?y] => rewrite (Z.geb_leb x y)
  | |- context [Z.eqb ?x ?y] => destruct (Z.eqb_spec x y)
  end.

(** [lra] does not read a division: [no_div] writes [x / c], for a constant
    [c], as the product of [x] and the value of [/ c]. *)
Ltac no_div :=
  unfold Qdiv in *;
  repeat match goal with
  | H : context [/ ?c] |- _ =>
      let v := eval vm_compute in (/ c) in progress change (/ c) with v in H
  | |- context [/ ?c] =>
      let v := eval vm_compute in (/ c) in progress change (/ c) with v
  end.

Ltac arith := solve [lia | lra | discriminate | congruence | tauto].

Ltac case_guards := repeat (case_cmp; simpl; try arith).

(** Hypotheses [b = true] about a boolean comparison become order facts. *)
Ltac reflect_hyps :=
  repeat match goal with
  | H : Qltb _ _ = true |- _ => apply Qltb_true in H
  | H : Qltb _ _ = false |- _ => apply Qltb_false in H
  | H : Qleb _ _ = true |- _ => apply Qleb_true in H
  | H : Qleb _ _ = false |- _ => apply Qleb_false in H
  | H : Qgtb _ _ = true |- _ => apply Qltb_true in H
  | H : Qgtb _ _ = false |- _ => apply Qltb_false in H
  | H : Qgeb _ _ = true |- _ => apply Qleb_true in H
  | H : Qgeb _ _ = false |- _ => apply Qleb_false in H
  | H : andb _ _ = true |- _ => apply andb_true_iff in H; destruct H
  | H : orb _ _ = false |- _ => apply orb_false_iff in H; destruct H
  | H : negb _ = true |- _ => apply negb_true_iff in H
  | H : negb _ = false |- _ => apply negb_false_iff in H
  end.

(** Builds the setter of one field of a record from the record's eta
    expansion [eta : T -> T] (the constructor applied to every projection): the
    occurrence of the projection is abstracted and replaced by the new value. *)
Ltac make_setter eta proj :=
  let t := eval cbv beta delta [eta] in eta in
  lazymatch eval pattern proj in t with
  | ?f _ => let r := eval cbv beta in (fun v => f (fun _ => v)) in exact r
  end.

Create HintDb game discriminated.

#[export] Hint Resolve Qle_refl Z.le_refl : game.

(** ** Lists *)

Section Lists.
Context {A : Type}.
Implicit Types (l : list A) (f : A -> bool).

Lemma filter_length_le f l : (length (filter f l) <= length l)%nat.
Proof. induction l as [|a l IH]; simpl; [lia|]. destruct (f a); simpl; lia. Qed.

Lemma Forall_filter (P : A -> Prop) f l : Forall P l -> Forall P (filter f l).
Proof.
  induction 1 as [|a l Ha Hl IH]; simpl; [constructor|].
  destruct (f a); auto.
Qed.

Lemma Forall_filter_true f l : Forall (fun a => f a = true) (filter f l).
Proof.
  induction l as [|a l IH]; simpl; [constructor|].
  destruct (f a) eqn:E; auto.
Qed.

Lemma filter_all_false f l : Forall (fun a => f a = false) l -> filter f l = [].
Proof. induction 1 as [|a l Ha Hl IH]; simpl; [reflexivity|]. now rewrite Ha. Qed.

Lemma filter_all_true f l : Forall (fun a => f a = true) l -> filter f l = l.
Proof.
  induction 1 as [|a l Ha Hl IH]; simpl; [reflexivity|].
  rewrite Ha. now f_equal.
Qed.

Lemma existsb_false_Forall f l :
  existsb f l = false <-> Forall (fun a => f a = false) l.
Proof.
  induction l as [|a l IH]; simpl; split; intros H; auto.
  - apply orb_false_iff in H. destruct H. constructor; [|apply IH]; auto.
  - inversion H; subst. apply orb_false_iff. split; [|apply IH]; auto.
Qed.

Lemma existsb_pointwise f g l :
  (forall a, f a = g a) -> existsb f l = existsb g l.
Proof. intros H. induction l as [|a l IH]; simpl; [reflexivity|]. now rewrite H, IH. Qed.

End Lists.

Lemma existsb_of_map {A B : Type} (f : A -> B) (p : B -> bool) (l : list A) :
  existsb p (map f l) = existsb (fun a => p (f a)) l.
Proof. induction l as [|a l IH]; simpl; [reflexivity|]. now rewrite IH. Qed.

#[export] Hint Resolve filter_length_le Forall_filter : game.

Section StateLoops.
Context {S A B : Type}.

Lemma replicateState_length (f : S -> A * S) (n : nat) (s : S) :
  length (fst (replicateState f n s)) = n.
Proof.
  revert s. induction n as [|n IH]; intros s; simpl; [reflexivity|].
  destruct (f s) as [a s1]. specialize (IH s1).
  destruct (replicateState f n s1). simpl in *. now rewrite IH.
Qed.

Lemma mapState_length (f : A -> S -> B * S) (l : list A) (s : S) :
  length (fst (mapState f l s)) = length l.
Proof.
  revert s. induction l as [|a l IH]; intros s; simpl; [reflexivity|].
  destruct (f a s) as [b s1]. specialize (IH s1).
  destruct (mapState f l s1). simpl in *. now rewrite IH.
Qed.

(** A preorder on states that every call of the body respects is respected by
    the whole loop. *)
Lemma replicateState_preserves (R : S -> S -> Prop) `{!PreOrder R} (f : S -> A * S) :
  (forall s, R s (snd (f s))) ->
  forall n s, R s (snd (replicateState f n s)).
Proof.
  intros Hf n. induction n as [|n IH]; intros s; simpl; [reflexivity|].
  specialize (Hf s). destruct (f s) as [a s1]. specialize (IH s1).
  destruct (replicateState f n s1). simpl in *. etransitivity; eassumption.
Qed.

Lemma mapState_preserves (R : S -> S -> Prop) `{!PreOrder R} (f : A -> S -> B * S) :
  (forall a s, R s (snd (f a s))) ->
  forall l s, R s (snd (mapState f l s)).
Proof.
  intros Hf l. induction l as [|a l IH]; intros s; simpl; [reflexivity|].
  specialize (Hf a s). destruct (f a s) as [b s1]. specialize (IH s1).
  destruct (mapState f l s1). simpl in *. etransitivity; eassumption.
Qed.

(** When the body leaves the state alone, the loop is [map]. *)
Lemma mapState_pure (g : A -> B) (f : A -> S -> B * S) :
  (forall a s, f a s = (g a, s)) ->
  forall l s, mapState f l s = (map g l, s).
Proof.
  intros Hf l. induction l as [|a l IH]; intros s; simpl; [reflexivity|].
  now rewrite Hf, IH.
Qed.

End StateLoops.

Lemma js_set_get (i : nat) (v : bool) (l : list bool) :
  js_get i (js_set i v l) = v.
Proof.
  unfold js_get. revert l. induction i as [|i IH]; intros [|h t]; simpl; auto.
Qed.

Lemma js_set_get_other (i j : nat) (v : bool) (l : list bool) :
  i <> j -> js_get j (js_set i v l) = js_get j l.
Proof.
  unfold js_get. revert j l.
  induction i as [|i IH]; intros [|j] [|h t] Hne; simpl; auto; try congruence.
  - destruct j; reflexivity.
  - rewrite IH by congruence. destruct j; reflexivity.
Qed.

Lemma js_set_length_in_range (i : nat) (v : bool) (l : list bool) :
  (i < length l)%nat -> length (js_set i v l) = length l.
Proof.
  revert l. induction i as [|i IH]; intros [|h t]; simpl; intros H; try lia.
  rewrite IH; lia.
Qed.

(** [find] on a list in which at most one element can pass the test. *)
Lemma find_none {A : Type} (f : A -> bool) (l : list A) :
  (forall b, In b l -> f b = false) -> find f l = None.
Proof.
  induction l as [|a l IH]; intros H; cbn [find]; [reflexivity|].
  rewrite (H a) by now left. apply IH. intros b Hb. apply H. now right.
Qed.

Lemma find_only (f : nat -> bool) (l : list nat) (a : nat) :
  In a l -> (forall b, In b l -> b <> a -> f b = false) ->
  find f l = if f a then Some a else None.
Proof.
  induction l as [|c l IH]; intros Hin H; [contradiction|]. cbn [find].
  destruct (Nat.eq_dec c a) as [->|Hne].
  - destruct (f a) eqn:Fa; [reflexivity|].
    apply find_none. intros b Hb. destruct (Nat.eq_dec b a) as [->|Hb'];
      [assumption | apply H; [now right | assumption]].
  - rewrite (H c) by (assumption || now left).
    apply IH; [destruct Hin; [contradiction | assumption]|].
    intros b Hb. apply H. now right.
Qed.
