(* ===== verification/Entities.v ===== *)
(** * Entities: the data model of [script.js]

    The catalog of flying objects, the records of the objects the program
    allocates (player, obstacle, coin, particle, power-up, star, nebula), the
    record [World] of the program's global variables together with the part of
    the browser environment they depend on, the setters of every field, and the
    primitive effects: [random] ([Math.random()]), [play] (a sound cue), the
    two [localStorage.setItem] calls and the four assignments to the text of
    a display.  The views of a world and the class [Keeps] are the interface
    between the components and the loop. *)

From Stdlib Require Import String DecimalString ZArith QArith Lqa Lia Bool List RelationClasses.
From S2P Require Import Prelude.
Import ListNotations.
Local Open Scope Q_scope.

(** ** The catalog (lines 71-92) *)

Module Stats.
Record t := mk { width : Q; height : Q; lift : Q; gravity : Q }.
End Stats.

Module FlyingObject.
Record t := mk { name : string; unlockScore : Z; stats : Stats.t }.
End FlyingObject.

Definition flyingObjects : list FlyingObject.t :=
  [ FlyingObject.mk "UFO" 0 (Stats.mk 60 60 (-10) 0.5);
    FlyingObject.mk "Rocket" 500 (Stats.mk 60 60 (-12) 0.5);
    FlyingObject.mk "Spaceship" 1000 (Stats.mk 60 60 (-10) 0.45);
    FlyingObject.mk "Drone" 5000 (Stats.mk 50 50 (-10) 0.5) ].

(** [flyingObjects[i]], read only at indices the program keeps in range. *)
Definition flyingObject (i : nat) : FlyingObject.t :=
  nth i flyingObjects (FlyingObject.mk "UFO" 0 (Stats.mk 60 60 (-10) 0.5)).

Definition maxLives : Z := 5.
Definition coinSize : Q := 20.

Definition mockLeaders : list (string * Z) :=
  [ ("@Fromoon888", 2305%Z); ("@BecsterCrypto", 1375%Z); ("@KrisCustoms_", 1140%Z) ]%string.

(** ** The player object (lines 97-110) *)

Module Player.
Record t := mk {
  x : Q; y : Q; width : Q; height : Q;
  velocity : Q; gravity : Q; lift : Q;
  boost : bool; boostTimer : Q;
  invincible : bool; invincibleTimer : Z; invincibleCount : Z }.

Definition eta (p : t) : t :=
  mk (x p) (y p) (width p) (height p) (velocity p) (gravity p) (lift p)
     (boost p) (boostTimer p) (invincible p) (invincibleTimer p) (invincibleCount p).

Definition set_y := ltac:(make_setter eta y).
Definition set_width := ltac:(make_setter eta width).
Definition set_height := ltac:(make_setter eta height).
Definition set_velocity := ltac:(make_setter eta velocity).
Definition set_gravity := ltac:(make_setter eta gravity).
Definition set_lift := ltac:(make_setter eta lift).
Definition set_boost := ltac:(make_setter eta boost).
Definition set_boostTimer := ltac:(make_setter eta boostTimer).
Definition set_invincible := ltac:(make_setter eta invincible).
Definition set_invincibleTimer := ltac:(make_setter eta invincibleTimer).
Definition set_invincibleCount := ltac:(make_setter eta invincibleCount).

(** [Object.assign(player, stats)]: the four own properties of [stats]. *)
Definition assign (s : Stats.t) (p : t) : t :=
  set_gravity (Stats.gravity s)
    (set_lift (Stats.lift s)
      (set_height (Stats.height s)
        (set_width (Stats.width s) p))).

(** The object literal of lines 97-110 and 421-434, for the catalog entry [i]
    and a canvas of height [h]. *)
Definition fresh (i : nat) (h : Q) : t :=
  let s := FlyingObject.stats (flyingObject i) in
  mk 50 (h / 2) (Stats.width s) (Stats.height s) 0 (Stats.gravity s) (Stats.lift s)
     false 0 false 0 0.
End Player.

(** ** Obstacles and collectibles (lines 322-337, 376-381) *)

Module Ring.
Record t := mk { y : Q; alpha : Q; speed : Q }.
End Ring.

Module Obstacle.
Record t := mk {
  x : Q; height : Q; isTop : bool; width : Q; passed : bool; rings : list Ring.t }.

Definition eta (o : t) : t :=
  mk (x o) (height o) (isTop o) (width o) (passed o) (rings o).

Definition set_x := ltac:(make_setter eta x).
Definition set_passed := ltac:(make_setter eta passed).
Definition set_rings := ltac:(make_setter eta rings).
End Obstacle.

Inductive CoinType := coin | heart | powerUpCapsule.

Module Coin.
Record t := mk { x : Q; y : Q; type : CoinType }.
End Coin.

(** ** Power-ups (lines 560-563) *)

Inductive PowerUpType := double | slow | shield | blast.

Module PowerUp.
Record t := mk { type : PowerUpType; timer : Q }.
End PowerUp.

Definition PowerUpType_eqb (a b : PowerUpType) : bool :=
  match a, b with
  | double, double | slow, slow | shield, shield | blast, blast => true
  | _, _ => false
  end.

(** [powerUp?.type === t] and [powerUp && powerUp.type === t]. *)
Definition powerUpIs (t : PowerUpType) (p : option PowerUp.t) : bool :=
  match p with
  | Some u => PowerUpType_eqb (PowerUp.type u) t
  | None => false
  end.

(** [!powerUp] is [negb (isSomeb powerUp)]. *)
Definition isSomeb {A : Type} (o : option A) : bool :=
  match o with Some _ => true | None => false end.

(** ** Particles (lines 159-166) *)

Inductive ParticleType := pCoin | pHeart | pCrash | pVictory.

Inductive Color := Hex (code : string) | Hsl (hue : Q) (saturation lightness : Z).

Module Particle.
Record t := mk {
  x : Q; y : Q; vx : Q; vy : Q; life : Z; color : Color; size : Q }.
End Particle.

(** ** Background decoration (lines 137-148) and intro-screen hit areas *)

Module Star.
Record t := mk { x : Q; y : Q; speed : Q; size : Q }.
End Star.

Module Nebula.
Record t := mk { x : Q; y : Q; size : Q; hue : Q }.
End Nebula.

Module Area.
Record t := mk { x : Q; y : Q; width : Q; height : Q }.
End Area.

(** ** Outputs: the sound cues of lines 62-69 *)

Inductive Sound :=
| RocketBoost | CoinGrab | PipePass | Crash
| FullSendShout | PowerUpCue | HeartGrab | VictoryCue.

(** ** [localStorage], restricted to the two keys the program uses *)

Module Storage.
Record t := mk { highScoreItem : option string; unlocksItem : option string }.
End Storage.

(** [String(n)] for an integer and [JSON.stringify] of an array of booleans. *)
Definition show_Z (n : Z) : string := NilZero.string_of_int (Z.to_int n).

Definition show_bool (b : bool) : string := (if b then "true" else "false")%string.

Fixpoint show_bools (l : list bool) : string :=
  match l with
  | [] => ""
  | [b] => show_bool b
  | b :: t => show_bool b ++ "," ++ show_bools t
  end%string.

Definition stringify_unlocks (l : list bool) : string :=
  ("[" ++ show_bools l ++ "]")%string.

(** ** The displays (lines 7-10)

    The text of the four elements the script writes to.  The script never
    writes the score display before the first call of [updateScore] or
    [resetGame]: until then it shows what the document holds, [None] here. *)

Module Hud.
Record t := mk {
  scoreDisplay : option string;
  highScoreDisplay : string;
  levelDisplay : string;
  livesDisplay : string }.

Definition eta (h : t) : t :=
  mk (scoreDisplay h) (highScoreDisplay h) (levelDisplay h) (livesDisplay h).

Definition set_scoreDisplay := ltac:(make_setter eta scoreDisplay).
Definition set_highScoreDisplay := ltac:(make_setter eta highScoreDisplay).
Definition set_levelDisplay := ltac:(make_setter eta levelDisplay).
Definition set_livesDisplay := ltac:(make_setter eta livesDisplay).
End Hud.

(** ** The globals (lines 94-135, 137-148, 816) and their environment *)

Record World := mkWorld {
  canvasWidth : Q;
  canvasHeight : Q;
  rand : nat -> Q;
  cursor : nat;
  storage : Storage.t;
  sounds : list Sound;
  posts : list string;
  rafPending : bool;
  unlocks : list bool;
  currentObjectIndex : nat;
  player : Player.t;
  obstacles : list Obstacle.t;
  coins : list Coin.t;
  particles : list Particle.t;
  score : Z;
  highScore : Z;
  level : Z;
  lives : Z;
  coinCount : Z;
  pipeStreak : Z;
  powerUp : option PowerUp.t;
  gameOver : bool;
  intro : bool;
  victory : bool;
  pipeGap : Q;
  pipeSpeed : Q;
  frame : Z;
  lastInputTime : Z;
  lastCollisionTime : Z;
  objectAreas : list Area.t;
  shakeTimer : Z;
  stars : list Star.t;
  nebulas : list Nebula.t;
  lastFrameTime : Q;
  hud : Hud.t }.

Definition etaWorld (w : World) : World :=
  mkWorld (canvasWidth w) (canvasHeight w) (rand w) (cursor w) (storage w)
    (sounds w) (posts w) (rafPending w) (unlocks w) (currentObjectIndex w)
    (player w) (obstacles w) (coins w) (particles w) (score w) (highScore w)
    (level w) (lives w) (coinCount w) (pipeStreak w) (powerUp w) (gameOver w)
    (intro w) (victory w) (pipeGap w) (pipeSpeed w) (frame w) (lastInputTime w)
    (lastCollisionTime w) (objectAreas w) (shakeTimer w) (stars w) (nebulas w)
    (lastFrameTime w) (hud w).

Definition set_canvasWidth := ltac:(make_setter etaWorld canvasWidth).
Definition set_canvasHeight := ltac:(make_setter etaWorld canvasHeight).
Definition set_cursor := ltac:(make_setter etaWorld cursor).
Definition set_storage := ltac:(make_setter etaWorld storage).
Definition set_sounds := ltac:(make_setter etaWorld sounds).
Definition set_posts := ltac:(make_setter etaWorld posts).
Definition set_rafPending := ltac:(make_setter etaWorld rafPending).
Definition set_unlocks := ltac:(make_setter etaWorld unlocks).
Definition set_currentObjectIndex := ltac:(make_setter etaWorld currentObjectIndex).
Definition set_player := ltac:(make_setter etaWorld player).
Definition set_obstacles := ltac:(make_setter etaWorld obstacles).
Definition set_coins := ltac:(make_setter etaWorld coins).
Definition set_particles := ltac:(make_setter etaWorld particles).
Definition set_score := ltac:(make_setter etaWorld score).
Definition set_highScore := ltac:(make_setter etaWorld highScore).
Definition set_level := ltac:(make_setter etaWorld level).
Definition set_lives := ltac:(make_setter etaWorld lives).
Definition set_coinCount := ltac:(make_setter etaWorld coinCount).
Definition set_pipeStreak := ltac:(make_setter etaWorld pipeStreak).
Definition set_powerUp := ltac:(make_setter etaWorld powerUp).
Definition set_gameOver := ltac:(make_setter etaWorld gameOver).
Definition set_intro := ltac:(make_setter etaWorld intro).
Definition set_victory := ltac:(make_setter etaWorld victory).
Definition set_pipeGap := ltac:(make_setter etaWorld pipeGap).
Definition set_pipeSpeed := ltac:(make_setter etaWorld pipeSpeed).
Definition set_frame := ltac:(make_setter etaWorld frame).
Definition set_lastInputTime := ltac:(make_setter etaWorld lastInputTime).
Definition set_lastCollisionTime := ltac:(make_setter etaWorld lastCollisionTime).
Definition set_objectAreas := ltac:(make_setter etaWorld objectAreas).
Definition set_shakeTimer := ltac:(make_setter etaWorld shakeTimer).
Definition set_stars := ltac:(make_setter etaWorld stars).
Definition set_nebulas := ltac:(make_setter etaWorld nebulas).
Definition set_lastFrameTime := ltac:(make_setter etaWorld lastFrameTime).
Definition set_hud := ltac:(make_setter etaWorld hud).

(** [player.f = v] for a field of the player object. *)
Definition on_player (f : Player.t -> Player.t) (w : World) : World :=
  set_player (f (player w)) w.

(** ** Primitive effects *)

(** [Math.random()]: the next value of the oracle stream. *)
Definition random (w : World) : Q * World :=
  (rand w (cursor w), set_cursor (S (cursor w)) w).

(** One of the [play...] functions of lines 62-69: the cue is recorded. *)
Definition play (s : Sound) (w : World) : World :=
  set_sounds (s :: sounds w) w.

(** [localStorage.setItem('highScore', highScore)] (line 658). *)
Definition storeHighScore (w : World) : World :=
  set_storage
    (Storage.mk (Some (show_Z (highScore w))) (Storage.unlocksItem (storage w))) w.

(** [localStorage.setItem('unlocks', JSON.stringify(unlocks))] (line 664). *)
Definition storeUnlocks (w : World) : World :=
  set_storage
    (Storage.mk (Storage.highScoreItem (storage w))
       (Some (stringify_unlocks (unlocks w)))) w.

(** [scoreDisplay.textContent = `${score}`] (lines 446 and 655), and the
    same for the three other displays. *)
Definition showScore (w : World) : World :=
  set_hud (Hud.set_scoreDisplay (Some (show_Z (score w))) (hud w)) w.

Definition showHighScore (w : World) : World :=
  set_hud (Hud.set_highScoreDisplay (show_Z (highScore w)) (hud w)) w.

Definition showLevel (w : World) : World :=
  set_hud (Hud.set_levelDisplay (show_Z (level w)) (hud w)) w.

Definition showLives (w : World) : World :=
  set_hud (Hud.set_livesDisplay (show_Z (lives w)) (hud w)) w.

Arguments on_player f w /.
Arguments showScore w /.
Arguments showHighScore w /.
Arguments showLevel w /.
Arguments showLives w /.
Arguments random w /.
Arguments play s w /.
Arguments storeHighScore w /.
Arguments storeUnlocks w /.

(** [simpl_world] reads fields through setters and nothing else: arithmetic
    is left as written. *)
Ltac simpl_world :=
  cbn [canvasWidth canvasHeight rand cursor storage sounds posts rafPending unlocks
       currentObjectIndex player obstacles coins particles score highScore level
       lives coinCount pipeStreak powerUp gameOver intro victory pipeGap pipeSpeed
       frame lastInputTime lastCollisionTime objectAreas shakeTimer stars nebulas
       lastFrameTime hud set_hud
       Hud.scoreDisplay Hud.highScoreDisplay Hud.levelDisplay Hud.livesDisplay
       Hud.set_scoreDisplay Hud.set_highScoreDisplay Hud.set_levelDisplay
       Hud.set_livesDisplay showScore showHighScore showLevel showLives
       set_canvasWidth set_canvasHeight set_cursor set_storage set_sounds set_posts
       set_rafPending set_unlocks set_currentObjectIndex set_player set_obstacles
       set_coins set_particles set_score set_highScore set_level set_lives
       set_coinCount set_pipeStreak set_powerUp set_gameOver set_intro set_victory
       set_pipeGap set_pipeSpeed set_frame set_lastInputTime set_lastCollisionTime
       set_objectAreas set_shakeTimer set_stars set_nebulas set_lastFrameTime
       Player.x Player.y Player.width Player.height Player.velocity Player.gravity
       Player.lift Player.boost Player.boostTimer Player.invincible
       Player.invincibleTimer Player.invincibleCount
       Player.set_y Player.set_width Player.set_height Player.set_velocity
       Player.set_gravity Player.set_lift Player.set_boost Player.set_boostTimer
       Player.set_invincible Player.set_invincibleTimer Player.set_invincibleCount
       Player.assign
       Obstacle.x Obstacle.height Obstacle.isTop Obstacle.width Obstacle.passed
       Obstacle.rings Obstacle.set_x Obstacle.set_passed Obstacle.set_rings
       Coin.x Coin.y Coin.type PowerUp.type PowerUp.timer
       Storage.highScoreItem Storage.unlocksItem
       on_player play random storeHighScore storeUnlocks fst snd] in *.

(** The same, in the goal only. *)
Ltac simpl_goal :=
  cbn [canvasWidth canvasHeight rand cursor storage sounds posts rafPending unlocks
       currentObjectIndex player obstacles coins particles score highScore level
       lives coinCount pipeStreak powerUp gameOver intro victory pipeGap pipeSpeed
       frame lastInputTime lastCollisionTime objectAreas shakeTimer stars nebulas
       lastFrameTime hud set_hud
       Hud.scoreDisplay Hud.highScoreDisplay Hud.levelDisplay Hud.livesDisplay
       Hud.set_scoreDisplay Hud.set_highScoreDisplay Hud.set_levelDisplay
       Hud.set_livesDisplay showScore showHighScore showLevel showLives
       set_canvasWidth set_canvasHeight set_cursor set_storage set_sounds set_posts
       set_rafPending set_unlocks set_currentObjectIndex set_player set_obstacles
       set_coins set_particles set_score set_highScore set_level set_lives
       set_coinCount set_pipeStreak set_powerUp set_gameOver set_intro set_victory
       set_pipeGap set_pipeSpeed set_frame set_lastInputTime set_lastCollisionTime
       set_objectAreas set_shakeTimer set_stars set_nebulas set_lastFrameTime
       Player.x Player.y Player.width Player.height Player.velocity Player.gravity
       Player.lift Player.boost Player.boostTimer Player.invincible
       Player.invincibleTimer Player.invincibleCount
       Player.set_y Player.set_width Player.set_height Player.set_velocity
       Player.set_gravity Player.set_lift Player.set_boost Player.set_boostTimer
       Player.set_invincible Player.set_invincibleTimer Player.set_invincibleCount
       Player.assign
       Obstacle.x Obstacle.height Obstacle.isTop Obstacle.width Obstacle.passed
       Obstacle.rings Obstacle.set_x Obstacle.set_passed Obstacle.set_rings
       Coin.x Coin.y Coin.type PowerUp.type PowerUp.timer
       Storage.highScoreItem Storage.unlocksItem
       on_player play random storeHighScore storeUnlocks fst snd].

(** The oracle returns values of [[0, 1)], as [Math.random()] does. *)
Definition rand_ok (w : World) : Prop := forall n, 0 <= rand w n < 1.

(** [flyingObjects.map(o => o.unlockScore === 0)] (line 94). *)
Definition defaultUnlocks : list bool :=
  map (fun o => (FlyingObject.unlockScore o =? 0)%Z) flyingObjects.

(** The text of [`${highScore}`] at line 122, where [highScore] is still what
    line 115 read: the stored text itself, or 0 when it is missing or
    empty. *)
Definition highScoreText (st : Storage.t) : string :=
  match Storage.highScoreItem st with
  | Some s => if String.eqb s "" then "0" else s
  | None => "0"
  end%string.

(** The globals as the top-level statements of lines 94-135 and 816 leave
    them, before the background field is drawn: [cw] and [ch] are the canvas
    size after the first [resizeCanvas], [st] the stored items, [us] and [hs]
    the values read from them for [unlocks] and [highScore].  The first frame
    has been requested (line 1064). *)
Definition loadWorld (cw ch : Q) (rnd : nat -> Q) (st : Storage.t)
    (us : list bool) (hs : Z) : World :=
  mkWorld cw ch rnd 0 st [] [] true us 0 (Player.fresh 0 ch) [] [] []
    0 hs 1 3 0 0 None false true false 300 2.5 0 0 0 [] 0 [] [] 0
    (Hud.mk None (highScoreText st) (show_Z 1) (show_Z 3)).

(** A concrete world for examples: an 800 x 600 canvas, an empty store and
    an oracle that always answers one half. *)
Definition demoWorld : World :=
  loadWorld 800 600 (fun _ => 1 # 2) (Storage.mk None None) defaultUnlocks 0.

(** [only_cursor w w']: [w'] is [w] after some calls of [Math.random()]. *)
Definition only_cursor (w w' : World) : Prop := exists c, w' = set_cursor c w.

(** ** Views of the state

    The session counters are what the rules of the game are about, the
    clocks are what drives the loop, the store is what a reload depends on,
    the displays are what the player reads, the shape is what a selection
    gives the player.  An operation that is not a rule of the game keeps the
    five. *)

Module Counters.
Record t := mk {
  intro : bool; gameOver : bool; victory : bool;
  lives : Z; coinCount : Z; score : Z; highScore : Z; pipeStreak : Z; level : Z }.
End Counters.

Definition counters (w : World) : Counters.t :=
  Counters.mk (intro w) (gameOver w) (victory w) (lives w) (coinCount w) (score w)
    (highScore w) (pipeStreak w) (level w).

Definition clocks (w : World) : Z * bool * Q := (frame w, rafPending w, lastFrameTime w).

(** What a reload depends on. *)
Definition store (w : World) : Storage.t * list bool := (storage w, unlocks w).

(** The attributes of the player that only a selection or a reset assigns. *)
Definition playerStats (p : Player.t) : Stats.t :=
  Stats.mk (Player.width p) (Player.height p) (Player.lift p) (Player.gravity p).

Definition shape (w : World) : nat * Q * Stats.t :=
  (currentObjectIndex w, Player.x (player w), playerStats (player w)).

(** What the rules of the game read and write: the session without its
    clocks.  The invariants of a session are predicates on this view. *)
Definition rules (w : World)
    : Counters.t * (Storage.t * list bool) * Hud.t * (nat * Q * Stats.t) :=
  (counters w, store w, hud w, shape w).

Definition session (w : World) := (rules w, clocks w).

(** The displays show the counters: what the player reads is the state.
    As long as the script has not written the score display, the score is
    0. *)
Definition score_shown (w : World) : Prop :=
  match Hud.scoreDisplay (hud w) with
  | None => score w = 0%Z
  | Some t => t = show_Z (score w)
  end.

Definition highScore_shown (w : World) : Prop :=
  Hud.highScoreDisplay (hud w) = show_Z (highScore w).

Definition level_shown (w : World) : Prop := Hud.levelDisplay (hud w) = show_Z (level w).

Definition lives_shown (w : World) : Prop := Hud.livesDisplay (hud w) = show_Z (lives w).

Definition hud_ok (w : World) : Prop :=
  score_shown w /\ highScore_shown w /\ level_shown w /\ lives_shown w.

(** The indices the program uses are in range and the player is an instance
    of the selected catalog entry: [currentObjectIndex] is an index of
    [flyingObjects], there is one unlock flag per catalog entry, the first
    object and the selected one are unlocked, the player stands at x = 50
    with the width, height, lift and gravity of the selected entry. *)
Definition Typed (w : World) : Prop :=
  (currentObjectIndex w < length flyingObjects)%nat /\
  length (unlocks w) = length flyingObjects /\
  js_get 0 (unlocks w) = true /\
  js_get (currentObjectIndex w) (unlocks w) = true /\
  Player.x (player w) = 50 /\
  playerStats (player w) = FlyingObject.stats (flyingObject (currentObjectIndex w)).

(** [Keeps view f]: the operation [f] does not change what [view] shows.
    This is what a component promises to the loop about its operations. *)
Class Keeps {A : Type} (view : World -> A) (f : World -> World) : Prop :=
  keeps : forall w, view (f w) = view w.

#[export] Hint Mode Keeps - ! ! : typeclass_instances.

(** Reads the counters and the clocks through the operations that keep
    them. *)
Ltac keep :=
  rewrite ?(keeps (view:=rules)), ?(keeps (view:=counters)), ?(keeps (view:=clocks)),
    ?(keeps (view:=store)), ?(keeps (view:=hud)), ?(keeps (view:=shape)).

(** [Reads P]: the predicate [P] reads the rules of the session only, so
    that whatever keeps the rules keeps [P]. *)
Class Reads (P : World -> Prop) : Prop :=
  reads : forall w w', rules w' = rules w -> P w -> P w'.

(** ** First facts *)

(** Two worlds (two players, two sets of displays) with the same fields are
    equal. *)
Lemma Player_ext (p q : Player.t) :
  Player.x p = Player.x q /\ Player.y p = Player.y q /\
  Player.width p = Player.width q /\ Player.height p = Player.height q /\
  Player.velocity p = Player.velocity q /\ Player.gravity p = Player.gravity q /\
  Player.lift p = Player.lift q /\ Player.boost p = Player.boost q /\
  Player.boostTimer p = Player.boostTimer q /\
  Player.invincible p = Player.invincible q /\
  Player.invincibleTimer p = Player.invincibleTimer q /\
  Player.invincibleCount p = Player.invincibleCount q ->
  p = q.
Proof.
  destruct p, q. simpl. intros H.
  repeat match goal with H : _ /\ _ |- _ => destruct H end. now subst.
Qed.

Lemma Hud_ext (h k : Hud.t) :
  Hud.scoreDisplay h = Hud.scoreDisplay k /\
  Hud.highScoreDisplay h = Hud.highScoreDisplay k /\
  Hud.levelDisplay h = Hud.levelDisplay k /\ Hud.livesDisplay h = Hud.livesDisplay k ->
  h = k.
Proof. destruct h, k. simpl. now intros (-> & -> & -> & ->). Qed.

Lemma World_ext (a b : World) :
  canvasWidth a = canvasWidth b /\ canvasHeight a = canvasHeight b /\
  rand a = rand b /\ cursor a = cursor b /\ storage a = storage b /\
  sounds a = sounds b /\ posts a = posts b /\ rafPending a = rafPending b /\
  unlocks a = unlocks b /\ currentObjectIndex a = currentObjectIndex b /\
  player a = player b /\ obstacles a = obstacles b /\ coins a = coins b /\
  particles a = particles b /\ score a = score b /\ highScore a = highScore b /\
  level a = level b /\ lives a = lives b /\ coinCount a = coinCount b /\
  pipeStreak a = pipeStreak b /\ powerUp a = powerUp b /\
  gameOver a = gameOver b /\ intro a = intro b /\ victory a = victory b /\
  pipeGap a = pipeGap b /\ pipeSpeed a = pipeSpeed b /\ frame a = frame b /\
  lastInputTime a = lastInputTime b /\ lastCollisionTime a = lastCollisionTime b /\
  objectAreas a = objectAreas b /\ shakeTimer a = shakeTimer b /\
  stars a = stars b /\ nebulas a = nebulas b /\ lastFrameTime a = lastFrameTime b /\
  hud a = hud b ->
  a = b.
Proof.
  destruct a, b. simpl. intros H.
  repeat match goal with H : _ /\ _ |- _ => destruct H end. now subst.
Qed.

(** Proves an equation between worlds field by field. *)
Ltac world_eq :=
  apply World_ext; simpl_goal; repeat split; try reflexivity;
  try (apply Player_ext; simpl_goal; repeat split; reflexivity);
  try (apply Hud_ext; simpl_goal; repeat split; reflexivity).

(** [hud_ok] reads the counters and the displays only. *)
Lemma hud_ok_view (w w' : World) :
  counters w' = counters w -> hud w' = hud w -> hud_ok w -> hud_ok w'.
Proof.
  unfold counters, hud_ok, score_shown, highScore_shown, level_shown, lives_shown.
  intros C H. injection C as _ _ _ L _ S Hs _ Lv. now rewrite H, L, S, Hs, Lv.
Qed.

Lemma only_cursor_refl (w : World) : only_cursor w w.
Proof. exists (cursor w). now destruct w. Qed.

Lemma only_cursor_trans (a b c : World) :
  only_cursor a b -> only_cursor b c -> only_cursor a c.
Proof. intros (n & ->) (n' & ->). now exists n'. Qed.

Lemma only_cursor_random (w : World) : only_cursor w (snd (random w)).
Proof. now exists (S (cursor w)). Qed.

#[export] Instance only_cursor_preorder : PreOrder only_cursor.
Proof. split; [exact only_cursor_refl | exact only_cursor_trans]. Qed.

#[export] Hint Resolve only_cursor_refl only_cursor_random : game.

Lemma flyingObjects_length : length flyingObjects = 4%nat.
Proof. reflexivity. Qed.

Lemma random_range (w : World) : rand_ok w -> 0 <= fst (random w) < 1.
Proof. intros H. apply H. Qed.

Lemma random_rand (w : World) : rand (snd (random w)) = rand w.
Proof. reflexivity. Qed.

Lemma random_rand_ok (w : World) : rand_ok w -> rand_ok (snd (random w)).
Proof. intros H. exact H. Qed.

Lemma PowerUpType_eqb_eq (a b : PowerUpType) : PowerUpType_eqb a b = true <-> a = b.
Proof. destruct a, b; simpl; split; congruence. Qed.

Lemma powerUpIs_Some (t : PowerUpType) (p : option PowerUp.t) :
  powerUpIs t p = true <-> exists u, p = Some u /\ PowerUp.type u = t.
Proof.
  destruct p as [u|]; simpl.
  - rewrite PowerUpType_eqb_eq. split; [eauto|]. now intros [u' [[= <-] H]].
  - split; [discriminate|]. now intros [u [H _]].
Qed.

Lemma Player_assign_stats (s : Stats.t) (p : Player.t) :
  Player.width (Player.assign s p) = Stats.width s /\
  Player.height (Player.assign s p) = Stats.height s /\
  Player.lift (Player.assign s p) = Stats.lift s /\
  Player.gravity (Player.assign s p) = Stats.gravity s.
Proof. repeat split. Qed.

Lemma show_bools_example :
  stringify_unlocks [true; false; false; false] = "[true,false,false,false]"%string.
Proof. reflexivity. Qed.

(** ** Operations that keep a view *)

(** Instances are found by the name of the operation, never by unfolding it. *)
#[export] Typeclasses Opaque set_rafPending set_frame set_lastFrameTime set_lastInputTime.

#[export] Instance session_rules f : Keeps session f -> Keeps rules f.
Proof. intros H w. exact (f_equal fst (H w)). Qed.

#[export] Instance session_clocks f : Keeps session f -> Keeps clocks f.
Proof. intros H w. exact (f_equal snd (H w)). Qed.

#[export] Instance rules_counters f : Keeps rules f -> Keeps counters f.
Proof. intros H w. exact (f_equal (fun s => fst (fst (fst s))) (H w)). Qed.

#[export] Instance rules_store f : Keeps rules f -> Keeps store f.
Proof. intros H w. exact (f_equal (fun s => snd (fst (fst s))) (H w)). Qed.

#[export] Instance rules_hud f : Keeps rules f -> Keeps hud f.
Proof. intros H w. exact (f_equal (fun s => snd (fst s)) (H w)). Qed.

#[export] Instance rules_shape f : Keeps rules f -> Keeps shape f.
Proof. intros H w. exact (f_equal snd (H w)). Qed.

#[export] Instance set_rafPending_rules b : Keeps rules (set_rafPending b).
Proof. now intros w. Qed.

#[export] Instance set_frame_rules n : Keeps rules (set_frame n).
Proof. now intros w. Qed.

#[export] Instance set_lastFrameTime_rules t : Keeps rules (set_lastFrameTime t).
Proof. now intros w. Qed.

#[export] Instance set_lastInputTime_session t : Keeps session (set_lastInputTime t).
Proof. now intros w. Qed.

(** Whatever keeps the rules keeps a predicate that reads them. *)
Lemma reads_keeps (P : World -> Prop) `{!Reads P} (f : World -> World)
    `{!Keeps rules f} (w : World) :
  P w -> P (f w).
Proof. apply reads, keeps. Qed.

(** [Typed] reads the shape and the unlock flags only. *)
Lemma Typed_view (w w' : World) :
  shape w' = shape w -> store w' = store w -> Typed w -> Typed w'.
Proof.
  intros S U.
  pose proof (f_equal (fun s => fst (fst s)) S : currentObjectIndex w' = currentObjectIndex w) as I.
  pose proof (f_equal (fun s => snd (fst s)) S : Player.x (player w') = Player.x (player w)) as X.
  pose proof (f_equal snd S : playerStats (player w') = playerStats (player w)) as P.
  pose proof (f_equal snd U : unlocks w' = unlocks w) as F.
  unfold Typed. now rewrite I, X, P, F.
Qed.

#[export] Instance hud_ok_reads : Reads hud_ok.
Proof.
  intros w w' E. apply hud_ok_view;
    [exact (f_equal (fun s => fst (fst (fst s))) E) | exact (f_equal (fun s => snd (fst s)) E)].
Qed.

#[export] Instance Typed_reads : Reads Typed.
Proof.
  intros w w' E. apply Typed_view;
    [exact (f_equal snd E) | exact (f_equal (fun s => snd (fst (fst s))) E)].
Qed.
