(* ===== verification/Storage.v ===== *)
(** * Storage: what the program reads back from [localStorage]

    The program writes two items: the high score as a decimal number
    (line 658) and the unlock flags as the JSON text of an array of booleans
    (line 664).  At load time (lines 94 and 115) it reads them back:
    [JSON.parse] for the flags, and the stored text itself, used as a number,
    for the high score.  The readers below accept the texts the program
    writes; on any other text they answer [None]: the behaviour of the
    program on it ([JSON.parse] throwing, a value that is not an array of
    booleans, a high score that is not a number) is outside the model. *)

From Stdlib Require Import String Ascii DecimalString Decimal DecimalPos DecimalZ.
From Stdlib Require Import ZArith QArith Lia.
From Stdlib Require Import Bool List.
From S2P Require Import Prelude Entities.
Import ListNotations.

(** ** Readers *)

(** The elements of a JSON array of booleans after the opening bracket, up
    to the closing one. *)
Fixpoint parse_items (s : string) : option (list bool) :=
  match s with
  | String "t" (String "r" (String "u" (String "e" (String "]" EmptyString)))) =>
      Some [true]
  | String "t" (String "r" (String "u" (String "e" (String "," r)))) =>
      option_map (cons true) (parse_items r)
  | String "f" (String "a" (String "l" (String "s" (String "e" (String "]" EmptyString))))) =>
      Some [false]
  | String "f" (String "a" (String "l" (String "s" (String "e" (String "," r))))) =>
      option_map (cons false) (parse_items r)
  | _ => None
  end.

(** [JSON.parse] on the text of an array of booleans. *)
Definition parse_unlocks (s : string) : option (list bool) :=
  match s with
  | String "[" (String "]" EmptyString) => Some []
  | String "[" r => parse_items r
  | _ => None
  end.

(** The number a stored high score stands for in [score > highScore]; the
    empty text is falsy and gives 0 at line 115. *)
Definition parse_Z (s : string) : option Z :=
  option_map Z.of_int (NilZero.int_of_string s).

(** Line 94: [JSON.parse(localStorage.getItem('unlocks')) || defaults]; a
    missing item is [null], which parses to [null]. *)
Definition loadUnlocks (st : Storage.t) : option (list bool) :=
  match Storage.unlocksItem st with
  | None => Some defaultUnlocks
  | Some s => parse_unlocks s
  end.

(** Line 115: [localStorage.getItem('highScore') || 0]. *)
Definition loadHighScore (st : Storage.t) : option Z :=
  match Storage.highScoreItem st with
  | None => Some 0%Z
  | Some s => parse_Z s
  end.

(** The world after the script has loaded, for a canvas of [cw] by [ch], an
    oracle [rnd] and the stored items [st]. *)
Definition boot (cw ch : Q) (rnd : nat -> Q) (st : Storage.t) : option World :=
  match loadUnlocks st, loadHighScore st with
  | Some us, Some hs => Some (loadWorld cw ch rnd st us hs)
  | _, _ => None
  end.

(** What is stored is what a reload would read: the stored items stand for
    the current unlock flags and high score. *)
Definition stored (w : World) : Prop :=
  loadUnlocks (storage w) = Some (unlocks w) /\
  loadHighScore (storage w) = Some (highScore w).

(** ** Round trips *)

(** [stored] reads the store and the high score only. *)
Lemma stored_view (w w' : World) :
  store w' = store w -> highScore w' = highScore w -> stored w -> stored w'.
Proof.
  unfold store, stored. intros S H. injection S as S U. now rewrite S, U, H.
Qed.

#[export] Instance stored_reads : Reads stored.
Proof.
  intros w w' E. apply stored_view;
    [exact (f_equal (fun s => snd (fst (fst s))) E)
    |exact (f_equal (fun s => Counters.highScore (fst (fst (fst s)))) E)].
Qed.


Lemma parse_items_show (b : bool) (l : list bool) :
  parse_items (show_bools (b :: l) ++ "]") = Some (b :: l).
Proof.
  revert b. induction l as [|b' l IH]; intros b.
  - now destruct b.
  - change (show_bools (b :: b' :: l)) with (show_bool b ++ "," ++ show_bools (b' :: l))%string.
    destruct b; cbn [show_bool append parse_items]; now rewrite IH.
Qed.

Lemma show_bools_head (b : bool) (l : list bool) :
  exists r, (show_bools (b :: l) ++ "]")%string = String (if b then "t" else "f")%char r.
Proof. destruct b, l; cbn; eauto. Qed.

(** Reading back the text [JSON.stringify] writes for a list of booleans
    gives the same list. *)
Lemma parse_unlocks_stringify (l : list bool) :
  parse_unlocks (stringify_unlocks l) = Some l.
Proof.
  destruct l as [|b l]; [reflexivity|].
  unfold stringify_unlocks. cbn [append parse_unlocks].
  rewrite <- (parse_items_show b l).
  destruct (show_bools_head b l) as [r ->]. now destruct b.
Qed.

Lemma to_int_not_nil (n : Z) : Z.to_int n <> Pos Nil /\ Z.to_int n <> Neg Nil.
Proof.
  destruct n as [|p|p]; cbn; split; try discriminate;
    intros H; injection H as H; now apply DecimalPos.Unsigned.to_uint_nonnil in H.
Qed.

(** Reading back the decimal text of an integer gives the integer. *)
Lemma parse_Z_show (n : Z) : parse_Z (show_Z n) = Some n.
Proof.
  unfold parse_Z, show_Z. destruct (to_int_not_nil n) as [P N].
  rewrite NilZero.isi by assumption. cbn [option_map]. now rewrite of_to.
Qed.

(** ** Store then load *)

(** C6: What [updateScore] stores is what a reload reads: after
    [localStorage.setItem('unlocks', JSON.stringify(unlocks))] the reader of
    line 94 gives the current flags, in order and length, and after
    [localStorage.setItem('highScore', highScore)] the reader of line 115
    gives the current high score; neither write disturbs the other item. *)
Theorem store_load (w : World) :
  loadUnlocks (storage (storeUnlocks w)) = Some (unlocks w) /\
  loadHighScore (storage (storeUnlocks w)) = loadHighScore (storage w) /\
  loadHighScore (storage (storeHighScore w)) = Some (highScore w) /\
  loadUnlocks (storage (storeHighScore w)) = loadUnlocks (storage w).
Proof.
  unfold loadUnlocks, loadHighScore. simpl_goal.
  split; [apply parse_unlocks_stringify|]. split; [reflexivity|].
  split; [apply parse_Z_show | reflexivity].
Qed.

(** ** The promise of a stored value

    What the writer of an item promises to its reader: the text written for
    a value reads back as that value.  [updateScore] is the writer, the
    top-level initialisation the reader. *)
Class Persisted (A : Type) := {
  write : A -> string;
  read : string -> option A;
  read_write (x : A) : read (write x) = Some x }.

#[export] Instance Persisted_unlocks : Persisted (list bool) :=
  {| write := stringify_unlocks; read := parse_unlocks;
     read_write := parse_unlocks_stringify |}.

#[export] Instance Persisted_highScore : Persisted Z :=
  {| write := show_Z; read := parse_Z; read_write := parse_Z_show |}.

Section Persisted.
Context {A : Type} `{Persisted A}.

(** Two values with the same text are the same value. *)
Lemma write_inj (x y : A) : write x = write y -> x = y.
Proof. intros E. apply (f_equal read) in E. rewrite !read_write in E. congruence. Qed.

(** An item that holds the text of a value reads as that value; a reader
    that answers a value for a missing item answers it. *)
Lemma read_item (d : option A) (x : A) :
  match Some (write x) with None => d | Some s => read s end = Some x.
Proof. apply read_write. Qed.

End Persisted.


Lemma storeUnlocks_stored (w : World) :
  loadHighScore (storage w) = Some (highScore w) -> stored (storeUnlocks w).
Proof.
  intros H. unfold stored, loadUnlocks, loadHighScore in *. simpl_goal.
  split; [exact (read_write (unlocks w)) | exact H].
Qed.

Lemma storeHighScore_stored (w : World) :
  loadUnlocks (storage w) = Some (unlocks w) -> stored (storeHighScore w).
Proof.
  intros H. unfold stored, loadUnlocks, loadHighScore in *. simpl_goal.
  split; [exact H | exact (read_write (highScore w))].
Qed.

(** The world a successful load gives stands in the right relation to the
    store it was loaded from. *)
Lemma boot_stored cw ch rnd st w : boot cw ch rnd st = Some w -> stored w.
Proof.
  unfold boot. destruct (loadUnlocks st) as [us|] eqn:U; [|discriminate].
  destruct (loadHighScore st) as [hs|] eqn:H; [|discriminate].
  intros E. injection E as <-. now split.
Qed.

(** With nothing stored the program starts from the defaults: only the first
    object unlocked and a high score of 0. *)
Lemma boot_empty cw ch rnd :
  boot cw ch rnd (Storage.mk None None)
  = Some (loadWorld cw ch rnd (Storage.mk None None) defaultUnlocks 0).
Proof. reflexivity. Qed.

(** ** The load on texts the readers reject *)

Lemma parse_unlocks_truncated : parse_unlocks "[true,fals"%string = None.
Proof. reflexivity. Qed.

Lemma parse_Z_text : parse_Z "12a"%string = None.
Proof. reflexivity. Qed.


(** A store whose unlock item was cut short stops the load, whatever the
    high score item holds. *)
Lemma boot_truncated cw ch rnd h :
  boot cw ch rnd (Storage.mk h (Some "[true,fals"%string)) = None.
Proof. reflexivity. Qed.
