(* ===== verification/Particles.v ===== *)
(** * Particles: [createParticles], [updateParticles] and the boost trail

    Particles are the short-lived visual entities of lines 156-178 and of the
    trail that [drawPlayer] pushes while the boost is active (lines 736-748).
    [createParticles] refuses a whole batch that would take the array past 200
    entries; the trail does not go through it. *)

From Stdlib Require Import String ZArith QArith Lqa Lia Bool List RelationClasses.
From S2P Require Import Prelude Entities.
Import ListNotations.
Local Open Scope Q_scope.

(** ** Operations *)

(** [life:] of line 163. *)
Definition particleLife (t : ParticleType) : Z :=
  match t with pCrash => 30 | pVictory => 50 | _ => 20 end.

(** [color:] of line 164; only the victory colour reads the oracle. *)
Definition particleColor (t : ParticleType) (w : World) : Color * World :=
  match t with
  | pCoin => (Hex "#FFD700", w)
  | pHeart => (Hex "#FF4444", w)
  | pCrash => (Hex "#FF0000", w)
  | pVictory => let (r, w) := random w in (Hsl (r * 360) 100 50, w)
  end.

(** The object literal of lines 159-166, its properties evaluated in order. *)
Definition newParticle (x y : Q) (t : ParticleType) (w : World) : Particle.t * World :=
  let (r1, w) := random w in
  let (r2, w) := random w in
  let (c, w) := particleColor t w in
  let (r3, w) := random w in
  (Particle.mk x y ((r1 - 0.5) * 5) ((r2 - 0.5) * 5) (particleLife t) c (r3 * 4 + 2), w).

(** The [for] loop of lines 158-167: [count] pushes. *)
Fixpoint pushParticles (count : nat) (x y : Q) (t : ParticleType) (w : World) : World :=
  match count with
  | O => w
  | S n =>
      let (p, w) := newParticle x y t w in
      pushParticles n x y t (set_particles (particles w ++ [p]) w)
  end.

Definition createParticles (x y : Q) (t : ParticleType) (count : nat) (w : World) : World :=
  if (200 <? length (particles w) + count)%nat then w
  else pushParticles count x y t w.

(** The body of the [forEach] of lines 172-177. *)
Definition updateParticle (p : Particle.t) : Particle.t :=
  Particle.mk (Particle.x p + Particle.vx p) (Particle.y p + Particle.vy p)
    (Particle.vx p) (Particle.vy p) (Particle.life p - 1) (Particle.color p)
    (Particle.size p * 0.97).

Definition alive (p : Particle.t) : bool := (Particle.life p >? 0)%Z.

Definition updateParticles (w : World) : World :=
  set_particles (map updateParticle (filter alive (particles w))) w.

(** One trail particle (lines 738-746). *)
Definition newTrailParticle (w : World) : Particle.t * World :=
  let p := player w in
  let (r1, w) := random w in
  let (r2, w) := random w in
  let (r3, w) := random w in
  (Particle.mk (Player.x p + Player.width p / 2) (Player.y p + Player.height p / 2)
     (- (r1 * 3 + 1)) ((r2 - 0.5) * 2) 15 (Hex "#FF4500") (r3 * 3 + 1), w).

Fixpoint pushTrail (count : nat) (w : World) : World :=
  match count with
  | O => w
  | S n =>
      let (p, w) := newTrailParticle w in
      pushTrail n (set_particles (particles w ++ [p]) w)
  end.

(** The state change of [drawPlayer] (lines 725-749): the inner test implies
    the outer one, so the trail is pushed exactly when the boost is active on
    an even frame. *)
Definition drawPlayer (w : World) : World :=
  if Player.boost (player w) || isSomeb (powerUp w) || Player.invincible (player w) then
    if Player.boost (player w) && (Z.rem (frame w) 2 =? 0)%Z then pushTrail 3 w else w
  else w.

(** ** What a particle operation can change

    [only_particles w w'] says that [w'] is [w] with new particles and a moved
    oracle cursor, and nothing else: every other global is read back from [w]. *)

Definition only_particles (w w' : World) : Prop :=
  exists ps c, w' = set_cursor c (set_particles ps w).

Lemma only_particles_refl (w : World) : only_particles w w.
Proof. exists (particles w), (cursor w). now destruct w. Qed.

Lemma only_particles_trans (a b c : World) :
  only_particles a b -> only_particles b c -> only_particles a c.
Proof. intros (ps & n & ->) (ps' & n' & ->). now exists ps', n'. Qed.

#[export] Instance only_particles_preorder : PreOrder only_particles.
Proof. split; [exact only_particles_refl | exact only_particles_trans]. Qed.

Lemma only_particles_set (w : World) (ps : list Particle.t) (n : nat) :
  only_particles w (set_cursor n (set_particles ps w)).
Proof. now exists ps, n. Qed.

Lemma only_particles_push (w : World) (p : Particle.t) :
  only_particles w (set_particles (particles w ++ [p]) w).
Proof. exists (particles w ++ [p]), (cursor w). now destruct w. Qed.

Lemma only_particles_random (w : World) : only_particles w (snd (random w)).
Proof. exists (particles w), (S (cursor w)). now destruct w. Qed.

#[export] Hint Resolve only_particles_refl only_particles_set only_particles_push
  only_particles_random : game.

(** Rewrites the result of an operation by its frame equation. *)
Ltac by_frame lem :=
  let ps := fresh "ps" in let c := fresh "c" in let E := fresh "E" in
  destruct lem as (ps & c & E); rewrite E in *; clear E; simpl in *.

Lemma newParticle_frame x y t w :
  only_particles w (snd (newParticle x y t w)) /\
  particles (snd (newParticle x y t w)) = particles w.
Proof.
  split; [|now destruct t].
  exists (particles w), (cursor (snd (newParticle x y t w))). now destruct t, w.
Qed.

Lemma newTrailParticle_frame w :
  only_particles w (snd (newTrailParticle w)) /\
  particles (snd (newTrailParticle w)) = particles w.
Proof.
  split; [|reflexivity].
  exists (particles w), (cursor (snd (newTrailParticle w))). now destruct w.
Qed.

Lemma pushParticles_frame n x y t w : only_particles w (pushParticles n x y t w).
Proof.
  revert w. induction n as [|n IH]; intros w; cbn [pushParticles]; auto with game.
  destruct (newParticle x y t w) as [p w1] eqn:E.
  pose proof (newParticle_frame x y t w) as [F _]. rewrite E in F. simpl in F.
  eauto using only_particles_trans with game.
Qed.

Lemma pushTrail_frame n w : only_particles w (pushTrail n w).
Proof.
  revert w. induction n as [|n IH]; intros w; cbn [pushTrail]; auto with game.
  destruct (newTrailParticle w) as [p w1] eqn:E.
  pose proof (newTrailParticle_frame w) as [F _]. rewrite E in F. simpl in F.
  eauto using only_particles_trans with game.
Qed.

Lemma createParticles_frame x y t n w : only_particles w (createParticles x y t n w).
Proof.
  unfold createParticles. destruct (_ <? _)%nat; auto using pushParticles_frame with game.
Qed.

Lemma updateParticles_frame w : only_particles w (updateParticles w).
Proof.
  exists (map updateParticle (filter alive (particles w))), (cursor w).
  unfold updateParticles. now destruct w.
Qed.

Lemma drawPlayer_frame w : only_particles w (drawPlayer w).
Proof.
  unfold drawPlayer.
  repeat match goal with |- context [if ?b then _ else _] => destruct b end;
    auto using pushTrail_frame with game.
Qed.

#[export] Hint Resolve createParticles_frame updateParticles_frame drawPlayer_frame
  pushParticles_frame pushTrail_frame : game.

(** Replaces the first call of [createParticles] in the goal by its frame
    equation: the argument world with new particles and a moved cursor. *)
Ltac createParticles_away :=
  match goal with
  | |- context [createParticles ?x ?y ?t ?n ?v] =>
      let ps := fresh "ps" in let cu := fresh "cu" in let E := fresh "E" in
      destruct (createParticles_frame x y t n v) as (ps & cu & E); rewrite E; clear E
  end.

(** ** Counting *)

Lemma pushParticles_length n x y t w :
  length (particles (pushParticles n x y t w)) = (length (particles w) + n)%nat.
Proof.
  revert w. induction n as [|n IH]; intros w; cbn [pushParticles]; [lia|].
  destruct (newParticle x y t w) as [p w1] eqn:E.
  pose proof (newParticle_frame x y t w) as [_ F]. rewrite E in F. simpl in F.
  rewrite IH. simpl. rewrite length_app, F. simpl. lia.
Qed.

Lemma pushTrail_length n w :
  length (particles (pushTrail n w)) = (length (particles w) + n)%nat.
Proof.
  revert w. induction n as [|n IH]; intros w; cbn [pushTrail]; [lia|].
  destruct (newTrailParticle w) as [p w1] eqn:E.
  pose proof (newTrailParticle_frame w) as [_ F]. rewrite E in F. simpl in F.
  rewrite IH. simpl. rewrite length_app, F. simpl. lia.
Qed.

(** [createParticles] adds exactly [count] particles when the batch fits
    under the cap of 200 and none otherwise. *)
Lemma createParticles_length x y t count w :
  length (particles (createParticles x y t count w)) =
  if (200 <? length (particles w) + count)%nat
  then length (particles w)
  else (length (particles w) + count)%nat.
Proof.
  unfold createParticles. destruct (_ <? _)%nat; [reflexivity|].
  apply pushParticles_length.
Qed.

(** The cap is an invariant of [createParticles]. *)
Theorem createParticles_cap x y t count w :
  (length (particles w) <= 200)%nat ->
  (length (particles (createParticles x y t count w)) <= 200)%nat.
Proof.
  intros H. rewrite createParticles_length.
  destruct (Nat.ltb_spec 200 (length (particles w) + count)); lia.
Qed.

Lemma createParticles_cap_witness :
  (length (particles (createParticles 0 0 pCrash 20 demoWorld)) <= 200)%nat.
Proof. apply createParticles_cap. simpl. lia. Defined.

(** The boost trail is pushed whatever the number of live particles. *)
Theorem drawPlayer_trail_length w :
  Player.boost (player w) = true -> Z.rem (frame w) 2 = 0%Z ->
  length (particles (drawPlayer w)) = (length (particles w) + 3)%nat.
Proof.
  intros B F. unfold drawPlayer. rewrite B, F. simpl. apply (pushTrail_length 3).
Qed.

Lemma drawPlayer_trail_length_witness :
  length (particles (drawPlayer (on_player (Player.set_boost true) demoWorld))) = 3%nat.
Proof. apply (drawPlayer_trail_length (on_player (Player.set_boost true) demoWorld)); reflexivity. Defined.

(** ** Ageing *)

Lemma updateParticles_particles w :
  particles (updateParticles w) = map updateParticle (filter alive (particles w)).
Proof. reflexivity. Qed.

Lemma updateParticles_length_le w :
  (length (particles (updateParticles w)) <= length (particles w))%nat.
Proof. rewrite updateParticles_particles, length_map. apply filter_length_le. Qed.

(** Every particle that survives an update has a life one shorter, and it was
    positive before. *)
Lemma updateParticles_life (k : Z) w :
  Forall (fun p => (Particle.life p <= k)%Z) (particles w) ->
  Forall (fun p => (0 <= Particle.life p <= k - 1)%Z) (particles (updateParticles w)).
Proof.
  rewrite updateParticles_particles. intros H.
  induction H as [|p l Hp Hl IH]; simpl; [constructor|].
  unfold alive at 1. destruct (Z.gtb_spec (Particle.life p) 0); simpl; auto.
  constructor; auto. simpl. lia.
Qed.

Lemma updateParticles_dead w :
  Forall (fun p => (Particle.life p <= 0)%Z) (particles w) ->
  particles (updateParticles w) = [].
Proof.
  rewrite updateParticles_particles. intros H.
  rewrite filter_all_false; [reflexivity|].
  eapply Forall_impl; [|exact H]. intros p Hp. unfold alive. cbv beta in Hp.
  destruct (Z.gtb_spec (Particle.life p) 0); [lia|reflexivity].
Qed.

Lemma iter_updateParticles_life (n : nat) (k : Z) w :
  Forall (fun p => (Particle.life p <= k)%Z) (particles w) ->
  Forall (fun p => (Particle.life p <= k - Z.of_nat n)%Z)
         (particles (Nat.iter n updateParticles w)).
Proof.
  intros H. induction n as [|n IH]; simpl Nat.iter.
  - eapply Forall_impl; [|exact H]. simpl. intros; lia.
  - apply updateParticles_life in IH.
    eapply Forall_impl; [|exact IH]. simpl. intros; lia.
Qed.

(** C39: Particles die out: with no new spawn, a list whose lives are at most [k]
    is empty after [k + 1] updates. *)
Theorem updateParticles_extinct (k : nat) w :
  Forall (fun p => (Particle.life p <= Z.of_nat k)%Z) (particles w) ->
  particles (Nat.iter (S k) updateParticles w) = [].
Proof.
  intros H. simpl. apply updateParticles_dead.
  apply (iter_updateParticles_life k) in H.
  eapply Forall_impl; [|exact H]. simpl. intros; lia.
Qed.

Lemma updateParticles_extinct_witness :
  particles (Nat.iter 3 updateParticles
    (set_particles [Particle.mk 0 0 1 1 2 (Hex "#FFD700") 3] demoWorld)) = [].
Proof.
  apply (updateParticles_extinct 2
    (set_particles [Particle.mk 0 0 1 1 2 (Hex "#FFD700") 3] demoWorld)).
  repeat constructor. simpl. lia.
Defined.

(** ** The particle operations keep the session *)

#[export] Typeclasses Opaque createParticles updateParticles drawPlayer.

Lemma only_particles_session w w' : only_particles w w' -> session w' = session w.
Proof. now intros (ps & c & ->). Qed.

#[export] Instance createParticles_session x y t n : Keeps session (createParticles x y t n).
Proof. intros w. apply only_particles_session, createParticles_frame. Qed.

#[export] Instance updateParticles_session : Keeps session updateParticles.
Proof. intros w. apply only_particles_session, updateParticles_frame. Qed.

#[export] Instance drawPlayer_session : Keeps session drawPlayer.
Proof. intros w. apply only_particles_session, drawPlayer_frame. Qed.
