(* ===== verification/Background.v ===== *)
(** * Background: the star and nebula field

    [resetBackground] (lines 462-479, and the initialisers of lines 137-148)
    draws a new field from the oracle; [drawBackground] (lines 680-716) moves
    it by one frame.  The field is decoration: no other global reads it. *)

From Stdlib Require Import String ZArith QArith Lqa Lia Bool List RelationClasses.
From S2P Require Import Prelude Entities.
Import ListNotations.
Local Open Scope Q_scope.

(** ** Operations *)

(** The arrow function of lines 464-469. *)
Definition newStar (w : World) : Star.t * World :=
  let (r1, w) := random w in
  let (r2, w) := random w in
  let (r3, w) := random w in
  let (r4, w) := random w in
  (Star.mk (r1 * canvasWidth w) (r2 * canvasHeight w) (r3 * 0.8 + 0.5) (r4 * 3 + 1), w).

(** The arrow function of lines 470-475; the colour is kept by its hue. *)
Definition newNebula (w : World) : Nebula.t * World :=
  let (r1, w) := random w in
  let (r2, w) := random w in
  let (r3, w) := random w in
  let (r4, w) := random w in
  (Nebula.mk (r1 * canvasWidth w) (r2 * canvasHeight w) (r3 * 120 + 60) (r4 * 360), w).

Definition resetBackground (w : World) : World :=
  let (ss, w) := replicateState newStar 100 w in
  let w := set_stars ss w in
  let (ns, w) := replicateState newNebula 7 w in
  set_nebulas ns w.

(** [Math.floor(score / 200)] (line 682). *)
Definition stage (w : World) : Z := (score w / 200)%Z.

(** Lines 694-695. *)
Definition moveStar (w : World) (s : Star.t) : Star.t :=
  let x := Star.x s - Star.speed s * (1 + inject_Z (stage w) * 0.1) in
  Star.mk (if (x <? 0)%game then canvasWidth w else x) (Star.y s) (Star.speed s) (Star.size s).

(** Lines 705-710. *)
Definition moveNebula (n : Nebula.t) (w : World) : Nebula.t * World :=
  let x := Nebula.x n - pipeSpeed w * 0.5 in
  if (x + Nebula.size n <? 0)%game then
    let (r1, w) := random w in
    let (r2, w) := random w in
    (Nebula.mk (canvasWidth w + Nebula.size n) (r1 * canvasHeight w) (Nebula.size n) (r2 * 360), w)
  else (Nebula.mk x (Nebula.y n) (Nebula.size n) (Nebula.hue n), w).

(** The state change of [drawBackground]. *)
Definition drawBackground (w : World) : World :=
  let w := set_stars (map (moveStar w) (stars w)) w in
  let (ns, w) := mapState moveNebula (nebulas w) w in
  set_nebulas ns w.

(** ** Frame: only the field and the oracle cursor change *)

Definition only_background (w w' : World) : Prop :=
  exists ss ns c, w' = set_cursor c (set_nebulas ns (set_stars ss w)).

Lemma only_background_refl (w : World) : only_background w w.
Proof. exists (stars w), (nebulas w), (cursor w). now destruct w. Qed.

Lemma only_background_trans (a b c : World) :
  only_background a b -> only_background b c -> only_background a c.
Proof. intros (ss & ns & n & ->) (ss' & ns' & n' & ->). now exists ss', ns', n'. Qed.

#[export] Instance only_background_preorder : PreOrder only_background.
Proof. split; [exact only_background_refl | exact only_background_trans]. Qed.

Lemma only_background_random (w : World) : only_background w (snd (random w)).
Proof. exists (stars w), (nebulas w), (S (cursor w)). now destruct w. Qed.

Lemma only_background_stars (w : World) ss : only_background w (set_stars ss w).
Proof. exists ss, (nebulas w), (cursor w). now destruct w. Qed.

Lemma only_background_nebulas (w : World) ns : only_background w (set_nebulas ns w).
Proof. exists (stars w), ns, (cursor w). now destruct w. Qed.

#[export] Hint Resolve only_background_refl only_background_random
  only_background_stars only_background_nebulas : game.

Lemma newStar_frame w : only_background w (snd (newStar w)).
Proof. exists (stars w), (nebulas w), (cursor (snd (newStar w))). now destruct w. Qed.

Lemma newNebula_frame w : only_background w (snd (newNebula w)).
Proof. exists (stars w), (nebulas w), (cursor (snd (newNebula w))). now destruct w. Qed.

Lemma moveNebula_frame n w : only_background w (snd (moveNebula n w)).
Proof.
  exists (stars w), (nebulas w), (cursor (snd (moveNebula n w))).
  unfold moveNebula. destruct (_ <? _)%game; now destruct w.
Qed.

Lemma resetBackground_frame w : only_background w (resetBackground w).
Proof.
  unfold resetBackground.
  pose proof (replicateState_preserves only_background newStar newStar_frame 100 w) as H1.
  destruct (replicateState newStar 100 w) as [ss w1]. simpl in H1.
  pose proof (replicateState_preserves only_background newNebula newNebula_frame 7
    (set_stars ss w1)) as H2.
  destruct (replicateState newNebula 7 (set_stars ss w1)) as [ns w2]. simpl in H2.
  eauto using only_background_trans with game.
Qed.

Lemma drawBackground_frame w : only_background w (drawBackground w).
Proof.
  unfold drawBackground.
  set (w0 := set_stars (map (moveStar w) (stars w)) w).
  pose proof (mapState_preserves only_background moveNebula moveNebula_frame
    (nebulas w0) w0) as H.
  destruct (mapState moveNebula (nebulas w0) w0) as [ns w1]. simpl in H.
  assert (only_background w w0) by (subst w0; auto with game).
  eauto using only_background_trans with game.
Qed.

#[export] Hint Resolve resetBackground_frame drawBackground_frame : game.

Ltac by_background lem :=
  let ss := fresh "ss" in let ns := fresh "ns" in let c := fresh "c" in
  let E := fresh "E" in
  destruct lem as (ss & ns & c & E); rewrite E in *; clear E; simpl in *.

(** ** The field keeps its size *)

Definition same_stars (w w' : World) : Prop := stars w' = stars w.

#[export] Instance same_stars_preorder : PreOrder same_stars.
Proof. split; [now intros w | intros a b c H1 H2; exact (eq_trans H2 H1)]. Qed.

Lemma resetBackground_sizes w :
  length (stars (resetBackground w)) = 100%nat /\
  length (nebulas (resetBackground w)) = 7%nat.
Proof.
  unfold resetBackground.
  pose proof (replicateState_length newStar 100 w) as L1.
  destruct (replicateState newStar 100 w) as [ss w1]. simpl in L1.
  pose proof (replicateState_length newNebula 7 (set_stars ss w1)) as L2.
  pose proof (replicateState_preserves same_stars newNebula (fun s => eq_refl)
    7%nat (set_stars ss w1)) as P. unfold same_stars in P.
  destruct (replicateState newNebula 7 (set_stars ss w1)) as [ns w2].
  simpl in *. rewrite P. auto.
Qed.

Lemma moveNebula_stars n w : same_stars w (snd (moveNebula n w)).
Proof. unfold same_stars, moveNebula. now destruct (_ <? _)%game. Qed.

Lemma drawBackground_sizes w :
  length (stars (drawBackground w)) = length (stars w) /\
  length (nebulas (drawBackground w)) = length (nebulas w).
Proof.
  unfold drawBackground.
  set (w0 := set_stars (map (moveStar w) (stars w)) w).
  pose proof (mapState_length moveNebula (nebulas w0) w0) as L.
  pose proof (mapState_preserves same_stars moveNebula moveNebula_stars
    (nebulas w0) w0) as P. unfold same_stars in P.
  destruct (mapState moveNebula (nebulas w0) w0) as [ns w1].
  simpl in *. rewrite P, L. subst w0. simpl. now rewrite length_map.
Qed.

(** A star stays on the canvas: it re-enters from the right edge as soon as
    it leaves by the left one. *)
Lemma moveStar_on_canvas w s :
  0 <= canvasWidth w -> (0 <= score w)%Z -> 0 <= Star.speed s ->
  0 <= Star.x s <= canvasWidth w ->
  0 <= Star.x (moveStar w s) <= canvasWidth w.
Proof.
  intros Hc Hs Hv Hx. unfold moveStar. simpl.
  assert (0 <= inject_Z (stage w)) as Hst.
  { unfold stage. change 0 with (inject_Z 0). rewrite <- Zle_Qle.
    apply Z.div_pos; lia. }
  assert (0 <= Star.speed s * (1 + inject_Z (stage w) * 0.1)) by nra.
  case_cmp; lra.
Qed.

(** ** The background operations keep the session *)

#[export] Typeclasses Opaque resetBackground drawBackground.

Lemma only_background_session w w' : only_background w w' -> session w' = session w.
Proof. now intros (ss & ns & c & ->). Qed.

#[export] Instance resetBackground_session : Keeps session resetBackground.
Proof. intros w. apply only_background_session, resetBackground_frame. Qed.

#[export] Instance drawBackground_session : Keeps session drawBackground.
Proof. intros w. apply only_background_session, drawBackground_frame. Qed.
