(* ===== verification/Spawner.v ===== *)
(** * Spawner: obstacle pairs and their collectible

    The [Obstacle] and [Coin] classes (constructors of lines 323-337 and
    377-381, [update] methods of lines 363-373 and 414-416) and
    [generateObstacles] (lines 481-502), which every 150 frames pushes a top
    and a bottom obstacle at the right edge and one collectible in the middle
    of the gap between them. *)

From Stdlib Require Import String ZArith QArith Qminmax Lqa Lia Bool List.
From S2P Require Import Prelude Entities.
Import ListNotations.
Local Open Scope Q_scope.

(** ** Operations *)

(** One pass of the constructor's loop (lines 331-335). *)
Definition newRing (height : Q) (w : World) : Ring.t * World :=
  let (r1, w) := random w in
  let (r2, w) := random w in
  (Ring.mk (r1 * height) 1 ((r2 - 0.5) * 0.5), w).

(** [new Obstacle(x, height, isTop)]. *)
Definition newObstacle (x height : Q) (isTop : bool) (w : World) : Obstacle.t * World :=
  let (rs, w) := replicateState (newRing height) 3 w in
  (Obstacle.mk x height isTop 80 false rs, w).

(** The body of the [forEach] in [Obstacle.update] (lines 366-371). *)
Definition updateRing (o : Obstacle.t) (r : Ring.t) : Ring.t :=
  let y := Ring.y r + Ring.speed r in
  let alpha := Qmax 0 (Ring.alpha r - 0.01) in
  if (y <? 0)%game || (y >? Obstacle.height o)%game
  then Ring.mk (if Obstacle.isTop o then Obstacle.height o else 0) 1 (Ring.speed r)
  else Ring.mk y alpha (Ring.speed r).

(** [obstacle.update()], reading the global [pipeSpeed]. *)
Definition updateObstacle (w : World) (o : Obstacle.t) : Obstacle.t :=
  let o := Obstacle.set_x (Obstacle.x o - pipeSpeed w) o in
  Obstacle.set_rings (map (updateRing o) (Obstacle.rings o)) o.

(** [coin.update()]. *)
Definition updateCoin (w : World) (c : Coin.t) : Coin.t :=
  Coin.mk (Coin.x c - pipeSpeed w) (Coin.y c) (Coin.type c).

(** The choice of lines 490-497. *)
Definition coinTypeOf (rand : Q) : CoinType :=
  if (rand <? 0.1)%game then powerUpCapsule
  else if (rand <? 0.15)%game then heart
  else coin.

(** [pipeHeight] of line 486 for the oracle value [r]. *)
Definition pipeHeightOf (w : World) (r : Q) : Q :=
  let minHeight := canvasHeight w * 0.2 in
  let maxHeight := canvasHeight w * 0.6 in
  r * (maxHeight - minHeight) + minHeight.

Definition generateObstacles (w : World) : World :=
  if (Z.rem (frame w) 150 =? 0)%Z then
    let (r, w) := random w in
    let pipeHeight := pipeHeightOf w r in
    let (top, w) := newObstacle (canvasWidth w) pipeHeight true w in
    let w := set_obstacles (obstacles w ++ [top]) w in
    let (bottom, w) :=
      newObstacle (canvasWidth w) (canvasHeight w - pipeHeight - pipeGap w) false w in
    let w := set_obstacles (obstacles w ++ [bottom]) w in
    let coinY := pipeHeight + pipeGap w / 2 in
    let (rand, w) := random w in
    set_coins (coins w ++ [Coin.mk (canvasWidth w + 80 / 2) coinY (coinTypeOf rand)]) w
  else w.

(** ** The constructor *)

Lemma newRing_frame h w : only_cursor w (snd (newRing h w)).
Proof. now exists (S (S (cursor w))). Qed.

Lemma newObstacle_spec x h t w :
  exists rs c,
    newObstacle x h t w = (Obstacle.mk x h t 80 false rs, set_cursor c w) /\
    length rs = 3%nat.
Proof.
  unfold newObstacle.
  pose proof (replicateState_preserves only_cursor (newRing h) (newRing_frame h) 3 w)
    as [c E].
  pose proof (replicateState_length (newRing h) 3 w) as L.
  destruct (replicateState (newRing h) 3 w) as [rs w1]. simpl in *.
  exists rs, c. now rewrite E.
Qed.

(** ** The update methods *)

Lemma updateObstacle_fields w o :
  Obstacle.x (updateObstacle w o) = Obstacle.x o - pipeSpeed w /\
  Obstacle.height (updateObstacle w o) = Obstacle.height o /\
  Obstacle.width (updateObstacle w o) = Obstacle.width o /\
  Obstacle.isTop (updateObstacle w o) = Obstacle.isTop o /\
  Obstacle.passed (updateObstacle w o) = Obstacle.passed o.
Proof. repeat split. Qed.

(** A ring stays inside its obstacle and keeps an opacity in [[0, 1]]. *)
Lemma updateRing_in_bounds o r :
  0 <= Obstacle.height o -> 0 <= Ring.alpha r <= 1 ->
  0 <= Ring.y (updateRing o r) <= Obstacle.height o /\
  0 <= Ring.alpha (updateRing o r) <= 1.
Proof.
  intros Hh Ha. unfold updateRing.
  pose proof (Q.le_max_l 0 (Ring.alpha r - 0.01)).
  assert (Qmax 0 (Ring.alpha r - 0.01) <= 1) by (apply Q.max_lub; lra).
  unfold Qgtb. do 2 case_cmp; simpl; destruct (Obstacle.isTop o); simpl; lra.
Qed.

(** ** The spawn *)

Lemma coinTypeOf_cases (r : Q) :
  (r < 0.1 /\ coinTypeOf r = powerUpCapsule) \/
  (0.1 <= r < 0.15 /\ coinTypeOf r = heart) \/
  (0.15 <= r /\ coinTypeOf r = coin).
Proof. unfold coinTypeOf. do 2 (case_cmp; [auto|]); auto 6. Qed.

Lemma pipeHeightOf_range w r :
  0 <= canvasHeight w -> 0 <= r < 1 ->
  canvasHeight w * 0.2 <= pipeHeightOf w r <= canvasHeight w * 0.6.
Proof. intros H Hr. unfold pipeHeightOf. nra. Qed.

(** Off the cadence nothing is spawned. *)
Lemma generateObstacles_idle w :
  Z.rem (frame w) 150 <> 0%Z -> generateObstacles w = w.
Proof.
  intros H. unfold generateObstacles.
  destruct (Z.eqb_spec (Z.rem (frame w) 150) 0); [contradiction|reflexivity].
Qed.

(** The world after a spawn, written out: the two obstacles and the coin are
    appended and the cursor has moved; nothing else changes. *)
Lemma generateObstacles_shape w :
  Z.rem (frame w) 150 = 0%Z ->
  let r := rand w (cursor w) in
  let ph := pipeHeightOf w r in
  exists rs1 rs2 k c,
    generateObstacles w =
    set_cursor (S c)
      (set_coins (coins w ++
         [Coin.mk (canvasWidth w + 80 / 2) (ph + pipeGap w / 2) (coinTypeOf k)])
      (set_obstacles ((obstacles w ++
         [Obstacle.mk (canvasWidth w) ph true 80 false rs1]) ++
         [Obstacle.mk (canvasWidth w) (canvasHeight w - ph - pipeGap w) false 80 false rs2])
       w)) /\
    k = rand w c /\ length rs1 = 3%nat /\ length rs2 = 3%nat.
Proof.
  intros H r ph. subst r ph. unfold generateObstacles. rewrite H.
  cbv beta iota delta [Z.eqb random].
  match goal with |- context [newObstacle ?x ?h ?t ?v] =>
    destruct (newObstacle_spec x h t v) as (rs1 & c1 & E1 & L1); rewrite E1 end.
  cbv beta iota.
  match goal with |- context [newObstacle ?x ?h ?t ?v] =>
    destruct (newObstacle_spec x h t v) as (rs2 & c2 & E2 & L2); rewrite E2 end.
  exists rs1, rs2, (rand w c2), c2. repeat split; auto.
Qed.

(** C10: On the cadence exactly one pair and one collectible are spawned; the
    pair stands at the right edge, is 80 wide and not yet passed; the heights
    of the pair and the gap add up to the canvas height; the collectible is in
    the middle of the gap, 40 to the right of the pair's left edge. *)
Theorem generateObstacles_spawn w :
  Z.rem (frame w) 150 = 0%Z ->
  exists top bottom c,
    obstacles (generateObstacles w) = obstacles w ++ [top; bottom] /\
    coins (generateObstacles w) = coins w ++ [c] /\
    Obstacle.isTop top = true /\ Obstacle.isTop bottom = false /\
    Obstacle.x top = canvasWidth w /\ Obstacle.x bottom = canvasWidth w /\
    Obstacle.width top = 80 /\ Obstacle.width bottom = 80 /\
    Obstacle.passed top = false /\ Obstacle.passed bottom = false /\
    Obstacle.height top + pipeGap w + Obstacle.height bottom == canvasHeight w /\
    Coin.y c == Obstacle.height top + pipeGap w / 2 /\
    Coin.x c == Obstacle.x top + 40.
Proof.
  intros H. destruct (generateObstacles_shape w H) as (rs1 & rs2 & k & c & E & _).
  rewrite E. simpl. rewrite <- app_assoc. simpl.
  do 3 eexists. repeat split; simpl; try reflexivity; try lra.
  field.
Qed.

Lemma generateObstacles_spawn_witness :
  exists top bottom c,
    obstacles (generateObstacles demoWorld) = obstacles demoWorld ++ [top; bottom] /\
    coins (generateObstacles demoWorld) = coins demoWorld ++ [c] /\
    Obstacle.height top + pipeGap demoWorld + Obstacle.height bottom
      == canvasHeight demoWorld.
Proof.
  destruct (generateObstacles_spawn demoWorld eq_refl)
    as (top & bottom & c & A & B & _ & _ & _ & _ & _ & _ & _ & _ & C & _).
  exists top, bottom, c. auto.
Defined.

(** C40: The top obstacle covers between 20% and 60% of the canvas height. *)
Theorem generateObstacles_top_height w :
  Z.rem (frame w) 150 = 0%Z -> rand_ok w -> 0 <= canvasHeight w ->
  exists top bottom,
    obstacles (generateObstacles w) = obstacles w ++ [top; bottom] /\
    canvasHeight w * 0.2 <= Obstacle.height top <= canvasHeight w * 0.6 /\
    canvasHeight w * 0.4 - pipeGap w <= Obstacle.height bottom
      <= canvasHeight w * 0.8 - pipeGap w.
Proof.
  intros H R Hc. destruct (generateObstacles_shape w H) as (rs1 & rs2 & k & c & E & _).
  rewrite E. simpl. rewrite <- app_assoc. simpl.
  pose proof (pipeHeightOf_range w (rand w (cursor w)) Hc (R _)).
  do 2 eexists. split; [reflexivity|]. simpl. lra.
Qed.

Lemma generateObstacles_top_height_witness :
  exists top bottom,
    obstacles (generateObstacles demoWorld) = obstacles demoWorld ++ [top; bottom] /\
    canvasHeight demoWorld * 0.2 <= Obstacle.height top <= canvasHeight demoWorld * 0.6 /\
    canvasHeight demoWorld * 0.4 - pipeGap demoWorld <= Obstacle.height bottom
      <= canvasHeight demoWorld * 0.8 - pipeGap demoWorld.
Proof.
  apply generateObstacles_top_height.
  - reflexivity.
  - intros n. split; vm_compute; [discriminate | reflexivity].
  - vm_compute. discriminate.
Defined.

(** The kind of the collectible follows the thresholds 0.1 and 0.15. *)
Theorem generateObstacles_coin_kind w :
  Z.rem (frame w) 150 = 0%Z ->
  exists c k,
    coins (generateObstacles w) = coins w ++ [c] /\
    ((k < 0.1 /\ Coin.type c = powerUpCapsule) \/
     (0.1 <= k < 0.15 /\ Coin.type c = heart) \/
     (0.15 <= k /\ Coin.type c = coin)).
Proof.
  intros H. destruct (generateObstacles_shape w H) as (rs1 & rs2 & k & c & E & _).
  rewrite E. simpl. do 2 eexists. split; [reflexivity|]. simpl.
  apply coinTypeOf_cases.
Qed.

(** ** The spawner keeps the session *)

(** Whether it spawns or not, [generateObstacles] writes the obstacles, the
    collectibles and the cursor only. *)
Lemma generateObstacles_frame w :
  exists os cs c, generateObstacles w = set_cursor c (set_coins cs (set_obstacles os w)).
Proof.
  destruct (Z.eq_dec (Z.rem (frame w) 150) 0) as [E|E].
  - destruct (generateObstacles_shape w E) as (rs1 & rs2 & k & c & -> & _). eauto.
  - rewrite generateObstacles_idle by assumption.
    exists (obstacles w), (coins w), (cursor w). world_eq.
Qed.

#[export] Typeclasses Opaque generateObstacles.

#[export] Instance generateObstacles_session : Keeps session generateObstacles.
Proof. intros w. now destruct (generateObstacles_frame w) as (os & cs & c & ->). Qed.
