(* ===== verification/Progression.v ===== *)
(** * Progression: levels, invincibility milestones and scoring

    [getLevelThreshold] and [updateLevel] (lines 504-524), [checkInvincibility]
    (lines 526-544) and [updateScore] (lines 639-678): what the player earns
    from the obstacles passed, the high score and unlocks that persist, the
    victory flag, the level and the speed and gap that follow from it. *)

From Stdlib Require Import String ZArith QArith Qminmax Lqa Lia Bool List.
From S2P Require Import Prelude Entities Storage Particles Background.
Import ListNotations.
Local Open Scope Q_scope.

(** ** Operations *)

Definition getLevelThreshold (level : Z) : Z :=
  if (level =? 1)%Z then 50
  else if (level =? 2)%Z then 100
  else if (level =? 3)%Z then 175
  else if (level =? 4)%Z then 275
  else 275 + (level - 4) * 100.

(** [2.5 + (level - 1) * 0.2] (lines 517 and 986). *)
Definition levelSpeed (level : Z) : Q := 2.5 + inject_Z (level - 1) * 0.2.

(** [level >= 3 ? Math.max(200, 300 - (level - 2) * 20) : 300] (line 518). *)
Definition levelGap (level : Z) : Q :=
  if (level >=? 3)%Z then Qmax 200 (300 - inject_Z (level - 2) * 20) else 300.

(** The guard of line 515, for the globals [score] and [level]. *)
Definition levelUpDue (score level : Z) : bool :=
  (score >=? getLevelThreshold level)%Z &&
  ((level =? 1)%Z || (score <? getLevelThreshold (level + 1))%Z).

Definition updateLevel (w : World) : World :=
  if levelUpDue (score w) (level w) then
    let w := set_level (level w + 1) w in
    let w := set_pipeSpeed (levelSpeed (level w)) w in
    let w := set_pipeGap (levelGap (level w)) w in
    showLevel w
  else w.

(** The guard of line 529. *)
Definition milestoneDue (w : World) : bool :=
  (score w >=? 250 * (Player.invincibleCount (player w) + 1))%Z &&
  negb (Player.invincible (player w)) && negb (isSomeb (powerUp w)).

Definition checkInvincibility (w : World) : World :=
  let w :=
    if milestoneDue w then
      let w := on_player (Player.set_invincible true) w in
      let w := on_player (fun p =>
                 Player.set_invincibleCount (Player.invincibleCount p + 1) p) w in
      let w := on_player (Player.set_invincibleTimer 900) w in
      play PowerUpCue w
    else w in
  if Player.invincible (player w) then
    let w := on_player (fun p =>
               Player.set_invincibleTimer (Player.invincibleTimer p - 1) p) w in
    if (Player.invincibleTimer (player w) <=? 0)%Z
    then on_player (Player.set_invincible false) w
    else w
  else w.

(** The test of line 642. *)
Definition crossed (w : World) (o : Obstacle.t) : bool :=
  (Obstacle.x o + Obstacle.width o <? Player.x (player w))%game &&
  negb (Obstacle.passed o).

(** The reward for one bottom obstacle (lines 645-651). *)
Definition scorePipe (w : World) : World :=
  let w := set_score (score w + (if powerUpIs double (powerUp w) then 10 else 5)) w in
  let w := set_pipeStreak (pipeStreak w + 1) w in
  let w :=
    if (Z.rem (pipeStreak w) 3 =? 0)%Z
    then play CoinGrab (set_score (score w + 10) w)
    else w in
  play PipePass w.

(** The body of the loop of lines 641-654. *)
Definition passObstacle (o : Obstacle.t) (w : World) : Obstacle.t * World :=
  if crossed w o then
    (Obstacle.set_passed true o, if negb (Obstacle.isTop o) then scorePipe w else w)
  else (o, w).

(** Lines 656-660. *)
Definition updateHighScore (w : World) : World :=
  if (score w >? highScore w)%Z then
    let w := set_highScore (score w) w in
    let w := storeHighScore w in
    showHighScore w
  else w.

(** The body of the [forEach] of lines 661-667. *)
Definition unlockObject (i : nat) (obj : FlyingObject.t) (w : World) : World :=
  if (score w >=? FlyingObject.unlockScore obj)%Z && negb (js_get i (unlocks w))
  then storeUnlocks (set_unlocks (js_set i true (unlocks w)) w)
  else w.

Fixpoint unlockFrom (i : nat) (objs : list FlyingObject.t) (w : World) : World :=
  match objs with
  | [] => w
  | obj :: rest => unlockFrom (S i) rest (unlockObject i obj w)
  end.

(** Lines 668-672. *)
Definition checkVictory (w : World) : World :=
  if (score w >=? 10000)%Z && negb (victory w) then
    let w := set_victory true w in
    let w := play VictoryCue w in
    createParticles (canvasWidth w / 2) (canvasHeight w / 2) pVictory 50 w
  else w.

Definition updateScore (w : World) : World :=
  let (os, w) := mapState passObstacle (obstacles w) w in
  let w := set_obstacles os w in
  let w := showScore w in
  let w := updateHighScore w in
  let w := unlockFrom 0 flyingObjects w in
  let w := checkVictory w in
  let w := updateLevel w in
  if (score w >? 0)%Z && (Z.rem (score w) 200 =? 0)%Z then resetBackground w else w.

(** ** Reference definitions *)

(** Bottom obstacles that [updateScore] is about to count. *)
Definition scoring (w : World) (o : Obstacle.t) : bool :=
  crossed w o && negb (Obstacle.isTop o).

(** The reward for [n] pipes passed in one frame with streak [k] before:
    [base] each, and 10 more for every multiple of 3 the streak reaches. *)
Definition pipeReward (base n k : Z) : Z :=
  n * base + 10 * ((k + n) / 3 - k / 3).

(** [base] of line 645. *)
Definition pipeBase (w : World) : Z := if powerUpIs double (powerUp w) then 10 else 5.

(** What the loop leaves in [obstacle.passed]. *)
Definition markPassed (w : World) (o : Obstacle.t) : Obstacle.t :=
  if crossed w o then Obstacle.set_passed true o else o.

(** The displays after [updateScore] for a new score [s]: the score display
    shows it, the high-score display shows it when it is a new high score,
    the level display shows the new level when the level rises. *)
Definition hudFor (s : Z) (w : World) : Hud.t :=
  Hud.mk (Some (show_Z s))
    (if (s >? highScore w)%Z then show_Z s else Hud.highScoreDisplay (hud w))
    (if levelUpDue s (level w) then show_Z (level w + 1) else Hud.levelDisplay (hud w))
    (Hud.livesDisplay (hud w)).

(** The unlock flags after the [forEach] for a score [s]. *)
Fixpoint unlocksFor (s : Z) (i : nat) (objs : list FlyingObject.t) (us : list bool) : list bool :=
  match objs with
  | [] => us
  | obj :: rest =>
      unlocksFor s (S i) rest
        (if (s >=? FlyingObject.unlockScore obj)%Z && negb (js_get i us)
         then js_set i true us else us)
  end.

(** The level was earned: from level 2 on, the score has reached the
    threshold of the level below. *)
Definition levelEarned (w : World) : Prop :=
  (1 <= level w)%Z /\
  ((2 <= level w)%Z -> (getLevelThreshold (level w - 1) <= score w)%Z).

(** Every milestone claimed was reached. *)
Definition milestonesEarned (w : World) : Prop :=
  (0 <= Player.invincibleCount (player w))%Z /\
  (250 * Player.invincibleCount (player w) <= score w)%Z.

(** ** Levels *)

Lemma getLevelThreshold_values :
  getLevelThreshold 1 = 50%Z /\ getLevelThreshold 2 = 100%Z /\
  getLevelThreshold 3 = 175%Z /\ getLevelThreshold 4 = 275%Z /\
  forall n, (4 < n)%Z -> getLevelThreshold n = (275 + (n - 4) * 100)%Z.
Proof.
  repeat split. intros n H. unfold getLevelThreshold.
  repeat (case_cmp; try lia).
Qed.

(** From level 1 on, the thresholds are strictly increasing. *)
Theorem getLevelThreshold_increasing (l : Z) :
  (1 <= l)%Z -> (getLevelThreshold l < getLevelThreshold (l + 1))%Z.
Proof.
  intros H. unfold getLevelThreshold. repeat (case_cmp; try lia).
Qed.

Lemma getLevelThreshold_increasing_witness :
  (getLevelThreshold 4 < getLevelThreshold (4 + 1))%Z.
Proof. apply getLevelThreshold_increasing. lia. Defined.

Lemma levelUpDue_true (s l : Z) :
  levelUpDue s l = true <->
  (getLevelThreshold l <= s)%Z /\
  (l = 1%Z \/ (s < getLevelThreshold (l + 1))%Z).
Proof.
  unfold levelUpDue. rewrite andb_true_iff, orb_true_iff, Z.geb_le, Z.eqb_eq, Z.ltb_lt.
  tauto.
Qed.

Lemma updateLevel_up w :
  levelUpDue (score w) (level w) = true ->
  updateLevel w =
  showLevel (set_pipeGap (levelGap (level w + 1))
    (set_pipeSpeed (levelSpeed (level w + 1)) (set_level (level w + 1) w))).
Proof. intros H. unfold updateLevel. now rewrite H. Qed.

Lemma updateLevel_stay w :
  levelUpDue (score w) (level w) = false -> updateLevel w = w.
Proof. intros H. unfold updateLevel. now rewrite H. Qed.

(** One call raises the level by one or leaves it: it never lowers it and
    never skips a level. *)
Theorem updateLevel_level_step w :
  level (updateLevel w) = level w \/ level (updateLevel w) = (level w + 1)%Z.
Proof.
  destruct (levelUpDue (score w) (level w)) eqn:E.
  - rewrite updateLevel_up by assumption. now right.
  - rewrite updateLevel_stay by assumption. now left.
Qed.

(** [updateLevel] touches the level, its display, the speed and the gap
    only, and what it writes depends on the score and the level only. *)
Lemma updateLevel_eq w :
  let due := levelUpDue (score w) (level w) in
  updateLevel w =
  set_hud (if due then Hud.set_levelDisplay (show_Z (level w + 1)) (hud w) else hud w)
    (set_pipeGap (if due then levelGap (level w + 1) else pipeGap w)
      (set_pipeSpeed (if due then levelSpeed (level w + 1) else pipeSpeed w)
        (set_level (if due then level w + 1 else level w)%Z w))).
Proof.
  intros due. subst due. destruct (levelUpDue (score w) (level w)) eqn:E.
  - now rewrite updateLevel_up.
  - rewrite updateLevel_stay by assumption. now destruct w.
Qed.

Lemma levelGap_range (l : Z) : 200 <= levelGap l <= 300.
Proof.
  unfold levelGap. rewrite Z.geb_leb. case_cmp; [|lra].
  pose proof (Q.le_max_l 200 (300 - inject_Z (l - 2) * 20)).
  assert (0 <= inject_Z (l - 2)).
  { change 0 with (inject_Z 0). rewrite <- Zle_Qle. lia. }
  split; [assumption|]. apply Q.max_lub; lra.
Qed.

(** C19: When the level rises, the speed is [2.5 + 0.2 (level - 1)] for the new
    level, and the gap is 300 up to level 2, then 20 less per level, never
    under 200. *)
Theorem updateLevel_tuning w :
  levelUpDue (score w) (level w) = true ->
  let w' := updateLevel w in
  level w' = (level w + 1)%Z /\
  pipeSpeed w' == 2.5 + 0.2 * inject_Z (level w' - 1) /\
  200 <= pipeGap w' <= 300 /\
  ((level w' <= 2)%Z -> pipeGap w' == 300) /\
  ((3 <= level w' <= 7)%Z -> pipeGap w' == 300 - 20 * inject_Z (level w' - 2)) /\
  ((7 <= level w')%Z -> pipeGap w' == 200).
Proof.
  intros H w'. subst w'. rewrite updateLevel_up by assumption. simpl.
  split; [reflexivity|]. split; [unfold levelSpeed; lra|].
  split; [apply levelGap_range|].
  set (l := (level w + 1)%Z). unfold levelGap. rewrite Z.geb_leb.
  assert (forall a b : Z, (a <= b)%Z -> inject_Z a <= inject_Z b) as Hle
    by (intros; now rewrite <- Zle_Qle).
  repeat split; intros Hl; case_cmp; try lia; try lra.
  - rewrite Q.max_r; [lra|].
    pose proof (Hle (l - 2)%Z 5%Z ltac:(lia)) as B. change (inject_Z 5) with 5 in B. lra.
  - rewrite Q.max_l; [lra|].
    pose proof (Hle 5%Z (l - 2)%Z ltac:(lia)) as B. change (inject_Z 5) with 5 in B. lra.
Qed.

Lemma updateLevel_tuning_witness :
  level (updateLevel (set_score 51 demoWorld)) = (level (set_score 51 demoWorld) + 1)%Z /\
  pipeSpeed (updateLevel (set_score 51 demoWorld))
    == 2.5 + 0.2 * inject_Z (level (updateLevel (set_score 51 demoWorld)) - 1).
Proof.
  destruct (updateLevel_tuning (set_score 51 demoWorld) eq_refl) as (A & B & _).
  split; assumption.
Defined.

(** C26: From level 2 on, a score that has already reached the threshold of the
    next level blocks the level for good: [updateLevel] does nothing, whatever
    higher value the score takes later. *)
Theorem updateLevel_stuck w (s : Z) :
  (2 <= level w)%Z -> (getLevelThreshold (level w + 1) <= s)%Z ->
  updateLevel (set_score s w) = set_score s w.
Proof.
  intros L S. apply updateLevel_stay. simpl_world.
  destruct (levelUpDue s (level w)) eqn:E; [|reflexivity].
  apply levelUpDue_true in E. lia.
Qed.

Lemma updateLevel_stuck_witness :
  updateLevel (set_score 176 (set_level 2 demoWorld)) = set_score 176 (set_level 2 demoWorld).
Proof. apply (updateLevel_stuck (set_level 2 demoWorld) 176); vm_compute; discriminate. Defined.

(** The level is always an earned one. *)
Lemma updateLevel_levelEarned w : levelEarned w -> levelEarned (updateLevel w).
Proof.
  intros [L E]. destruct (levelUpDue (score w) (level w)) eqn:D.
  - rewrite updateLevel_up by assumption. apply levelUpDue_true in D.
    split; simpl; [lia|]. intros _. replace (level w + 1 - 1)%Z with (level w) by lia. tauto.
  - now rewrite updateLevel_stay.
Qed.

Lemma levelEarned_score w (s : Z) :
  (score w <= s)%Z -> levelEarned w -> levelEarned (set_score s w).
Proof. intros H [L E]. split; simpl; [assumption|]. intros H2. specialize (E H2). lia. Qed.

(** ** Invincibility milestones *)

Lemma milestoneDue_true w :
  milestoneDue w = true <->
  (250 * (Player.invincibleCount (player w) + 1) <= score w)%Z /\
  Player.invincible (player w) = false /\ powerUp w = None.
Proof.
  unfold milestoneDue. rewrite !andb_true_iff, !negb_true_iff, Z.geb_le.
  destruct (powerUp w); simpl; intuition congruence.
Qed.

Lemma checkInvincibility_grant_eq w :
  milestoneDue w = true ->
  checkInvincibility w =
  set_sounds (PowerUpCue :: sounds w)
    (on_player (fun p =>
       Player.set_invincibleCount (Player.invincibleCount p + 1)
         (Player.set_invincibleTimer 899 (Player.set_invincible true p))) w).
Proof.
  intros H. unfold checkInvincibility. rewrite H.
  now destruct w as [? ? ? ? ? ? ? ? ? ? []].
Qed.

Lemma checkInvincibility_tick_eq w :
  milestoneDue w = false -> Player.invincible (player w) = true ->
  checkInvincibility w =
  on_player (fun p =>
    Player.set_invincible (negb (Player.invincibleTimer p - 1 <=? 0)%Z)
      (Player.set_invincibleTimer (Player.invincibleTimer p - 1) p)) w.
Proof.
  intros M I. unfold checkInvincibility. rewrite M, I.
  destruct w as [? ? ? ? ? ? ? ? ? ? []]. simpl in *. subst.
  now destruct (_ <=? _)%Z.
Qed.

Lemma checkInvincibility_idle w :
  milestoneDue w = false -> Player.invincible (player w) = false ->
  checkInvincibility w = w.
Proof. intros M I. unfold checkInvincibility. now rewrite M, I. Qed.

(** When a milestone is due, the player becomes invincible, the milestone
    counter advances by one, the timer reads 899 at the end of the call (900
    less the tick of the same call) and the power-up cue is played. *)
Theorem checkInvincibility_grant w :
  milestoneDue w = true ->
  let p' := player (checkInvincibility w) in
  Player.invincible p' = true /\
  Player.invincibleTimer p' = 899%Z /\
  Player.invincibleCount p' = (Player.invincibleCount (player w) + 1)%Z /\
  sounds (checkInvincibility w) = PowerUpCue :: sounds w.
Proof. intros H. rewrite checkInvincibility_grant_eq by assumption. simpl. auto. Qed.

Lemma checkInvincibility_grant_witness :
  Player.invincible (player (checkInvincibility (set_score 250 demoWorld))) = true /\
  Player.invincibleTimer (player (checkInvincibility (set_score 250 demoWorld))) = 899%Z.
Proof.
  destruct (checkInvincibility_grant (set_score 250 demoWorld) eq_refl) as (A & B & _).
  split; assumption.
Defined.

(** With no milestone due, a call is a tick of the running timer. *)
Lemma checkInvincibility_tick w :
  milestoneDue w = false -> Player.invincible (player w) = true ->
  let t := (Player.invincibleTimer (player w) - 1)%Z in
  Player.invincibleTimer (player (checkInvincibility w)) = t /\
  Player.invincible (player (checkInvincibility w)) = negb (t <=? 0)%Z /\
  Player.invincibleCount (player (checkInvincibility w)) =
    Player.invincibleCount (player w).
Proof. intros M I. rewrite checkInvincibility_tick_eq by assumption. simpl. auto. Qed.

(** C28: An active power-up blocks the milestone: while [powerUp] is not [null]
    and the player is not invincible, [checkInvincibility] does nothing,
    whatever the score. *)
Theorem checkInvincibility_blocked w u :
  powerUp w = Some u -> Player.invincible (player w) = false ->
  checkInvincibility w = w.
Proof.
  intros P I. apply checkInvincibility_idle; [|assumption].
  destruct (milestoneDue w) eqn:E; [|reflexivity].
  apply milestoneDue_true in E. destruct E as (_ & _ & E). congruence.
Qed.

Lemma checkInvincibility_blocked_witness :
  checkInvincibility (set_score 5000 (set_powerUp (Some (PowerUp.mk blast 0)) demoWorld))
  = set_score 5000 (set_powerUp (Some (PowerUp.mk blast 0)) demoWorld).
Proof. apply (checkInvincibility_blocked _ (PowerUp.mk blast 0)); reflexivity. Defined.

(** [checkInvincibility] touches the player's three invincibility fields and
    the sound log only. *)
Lemma checkInvincibility_frame w :
  exists i t c snds,
    checkInvincibility w =
    set_sounds snds (on_player (fun p =>
      Player.set_invincibleCount c (Player.set_invincibleTimer t (Player.set_invincible i p))) w).
Proof.
  destruct (milestoneDue w) eqn:M; [|destruct (Player.invincible (player w)) eqn:I].
  - rewrite checkInvincibility_grant_eq by assumption.
    exists true, 899%Z, (Player.invincibleCount (player w) + 1)%Z, (PowerUpCue :: sounds w).
    now destruct w as [? ? ? ? ? ? ? ? ? ? []].
  - rewrite checkInvincibility_tick_eq by assumption.
    exists (negb (Player.invincibleTimer (player w) - 1 <=? 0)%Z),
           (Player.invincibleTimer (player w) - 1)%Z,
           (Player.invincibleCount (player w)), (sounds w).
    now destruct w as [? ? ? ? ? ? ? ? ? ? []].
  - rewrite checkInvincibility_idle by assumption.
    exists false, (Player.invincibleTimer (player w)),
           (Player.invincibleCount (player w)), (sounds w).
    destruct w as [? ? ? ? ? ? ? ? ? ? []]. simpl in *. now subst.
Qed.

Lemma milestoneDue_invincible w :
  Player.invincible (player w) = true -> milestoneDue w = false.
Proof. intros I. unfold milestoneDue. rewrite I. simpl. now rewrite andb_false_r. Qed.

(** The countdown: an invincible player with [t] on the timer stays
    invincible through the next [t - 1] calls and loses it at call [t]. *)
Lemma checkInvincibility_countdown (n : nat) : forall w,
  Player.invincible (player w) = true ->
  (Z.of_nat n < Player.invincibleTimer (player w))%Z ->
  Player.invincible (player (Nat.iter n checkInvincibility w)) = true /\
  Player.invincibleTimer (player (Nat.iter n checkInvincibility w)) =
    (Player.invincibleTimer (player w) - Z.of_nat n)%Z.
Proof.
  induction n as [|n IH]; intros w I T.
  - simpl. split; [assumption|lia].
  - destruct (IH w I ltac:(lia)) as [I' T']. rewrite Nat.iter_succ.
    destruct (checkInvincibility_tick _ (milestoneDue_invincible _ I') I') as (A & B & _).
    rewrite A, B, T'. split; [apply negb_true_iff, Z.leb_gt|]; lia.
Qed.

Lemma checkInvincibility_expiry (n : nat) w :
  Player.invincible (player w) = true ->
  Player.invincibleTimer (player w) = Z.of_nat (S n) ->
  Player.invincible (player (Nat.iter (S n) checkInvincibility w)) = false.
Proof.
  intros I T. destruct (checkInvincibility_countdown n w I ltac:(lia)) as [I' T'].
  rewrite Nat.iter_succ.
  destruct (checkInvincibility_tick _ (milestoneDue_invincible _ I') I') as (_ & B & _).
  rewrite B, T', T. apply negb_false_iff, Z.leb_le. lia.
Qed.

(** C27: The protection granted at a milestone covers the frame of the grant
    and the 898 frames after it, and ends at the 899th call that follows. *)
Theorem invincibility_duration w (n : nat) :
  milestoneDue w = true ->
  ((n < 899)%nat ->
   Player.invincible (player (Nat.iter n checkInvincibility (checkInvincibility w))) = true) /\
  (n = 899%nat ->
   Player.invincible (player (Nat.iter n checkInvincibility (checkInvincibility w))) = false).
Proof.
  intros M. rewrite (checkInvincibility_grant_eq w M).
  match goal with |- context [Nat.iter n checkInvincibility ?v] => set (w1 := v) end.
  assert (Player.invincible (player w1) = true) as I by reflexivity.
  assert (Player.invincibleTimer (player w1) = 899%Z) as T by reflexivity.
  clearbody w1. split; intros H.
  - apply checkInvincibility_countdown; [assumption|]. rewrite T. lia.
  - subst n. apply (checkInvincibility_expiry 898); [assumption|]. now rewrite T.
Qed.

Lemma invincibility_duration_witness :
  Player.invincible
    (player (Nat.iter 10 checkInvincibility
       (checkInvincibility (set_score 250 demoWorld)))) = true.
Proof.
  apply (proj1 (invincibility_duration (set_score 250 demoWorld) 10 eq_refl)). lia.
Defined.

(** Milestones are claimed only once reached, and the counter never goes
    back. *)
Lemma checkInvincibility_milestones w :
  milestonesEarned w ->
  milestonesEarned (checkInvincibility w) /\
  score (checkInvincibility w) = score w /\
  (Player.invincibleCount (player w)
     <= Player.invincibleCount (player (checkInvincibility w)))%Z.
Proof.
  intros [C S]. unfold milestonesEarned.
  destruct (milestoneDue w) eqn:M; [|destruct (Player.invincible (player w)) eqn:I].
  - rewrite checkInvincibility_grant_eq by assumption.
    apply milestoneDue_true in M. simpl_world. lia.
  - rewrite checkInvincibility_tick_eq by assumption. simpl_world. lia.
  - rewrite checkInvincibility_idle by assumption. lia.
Qed.

(** ** Scoring *)

Lemma pipeReward_step (b n k : Z) :
  (0 <= k)%Z -> (0 <= n)%Z ->
  (b + (if (Z.rem (k + 1) 3 =? 0)%Z then 10 else 0) + pipeReward b n (k + 1))%Z
  = pipeReward b (n + 1) k.
Proof.
  intros Hk Hn. unfold pipeReward. rewrite Z.rem_mod_nonneg by lia.
  replace (k + 1 + n)%Z with (k + (n + 1))%Z by lia.
  destruct (Z.eqb_spec ((k + 1) mod 3) 0); Z.to_euclidean_division_equations; lia.
Qed.

Lemma pipeReward_nonneg (b n k : Z) :
  (0 <= b)%Z -> (0 <= n)%Z -> (0 <= pipeReward b n k)%Z.
Proof.
  intros Hb Hn. unfold pipeReward.
  assert (k / 3 <= (k + n) / 3)%Z by (apply Z.div_le_mono; lia). nia.
Qed.

Lemma pipeBase_cases w : pipeBase w = 5%Z \/ pipeBase w = 10%Z.
Proof. unfold pipeBase. destruct (powerUpIs double (powerUp w)); auto. Qed.

Lemma scorePipe_eq w :
  exists snds,
    scorePipe w =
    set_sounds snds
      (set_pipeStreak (pipeStreak w + 1)
        (set_score (score w + pipeBase w +
                    (if (Z.rem (pipeStreak w + 1) 3 =? 0)%Z then 10 else 0)) w)).
Proof.
  unfold scorePipe, pipeBase. simpl_world.
  destruct (Z.rem (pipeStreak w + 1) 3 =? 0)%Z; eexists; simpl_world;
    rewrite ?Z.add_0_r; reflexivity.
Qed.

Lemma only_score_collapse snds a b s1 a1 b1 w :
  set_sounds snds (set_pipeStreak a (set_score b
    (set_sounds s1 (set_pipeStreak a1 (set_score b1 w)))))
  = set_sounds snds (set_pipeStreak a (set_score b w)).
Proof. reflexivity. Qed.

Lemma only_score_ext snds (a a' b b' : Z) w :
  a = a' -> b = b' ->
  set_sounds snds (set_pipeStreak a (set_score b w))
  = set_sounds snds (set_pipeStreak a' (set_score b' w)).
Proof. now intros -> ->. Qed.

Lemma passObstacle_cases o w :
  (scoring w o = true /\ passObstacle o w = (markPassed w o, scorePipe w)) \/
  (scoring w o = false /\ passObstacle o w = (markPassed w o, w)).
Proof.
  unfold scoring, passObstacle, markPassed.
  destruct (crossed w o), (Obstacle.isTop o); simpl; auto.
Qed.

Lemma scoring_frame w w' o : player w' = player w -> scoring w' o = scoring w o.
Proof. intros H. unfold scoring, crossed. now rewrite H. Qed.

Lemma markPassed_frame w w' o : player w' = player w -> markPassed w' o = markPassed w o.
Proof. intros H. unfold markPassed, crossed. now rewrite H. Qed.

(** The loop of lines 641-654 as a whole: every crossed obstacle is marked,
    and the [n] bottom ones among them are paid by [pipeReward]. *)
Lemma passObstacles_spec (os : list Obstacle.t) : forall w,
  (0 <= pipeStreak w)%Z ->
  exists snds,
    mapState passObstacle os w =
    (map (markPassed w) os,
     set_sounds snds
       (set_pipeStreak (pipeStreak w + Z.of_nat (length (filter (scoring w) os)))
         (set_score
            (score w + pipeReward (pipeBase w)
                         (Z.of_nat (length (filter (scoring w) os))) (pipeStreak w)) w))).
Proof.
  induction os as [|o os IH]; intros w K.
  - exists (sounds w). simpl. unfold pipeReward.
    rewrite !Z.add_0_r, Z.sub_diag. simpl. rewrite !Z.add_0_r. now destruct w.
  - cbn [mapState filter map].
    destruct (passObstacle_cases o w) as [[S E]|[S E]]; rewrite E, S.
    + destruct (scorePipe_eq w) as [s1 E1]. rewrite E1.
      match goal with |- context [mapState passObstacle os ?v] =>
        destruct (IH v) as [snds E2]; [simpl_world; lia|]; rewrite E2 end.
      rewrite (map_ext _ (markPassed w)) by (intros; now apply markPassed_frame).
      rewrite (filter_ext _ (scoring w)) by (intros; now apply scoring_frame).
      exists snds. cbn [length]. rewrite Nat2Z.inj_succ. unfold Z.succ.
      set (m := Z.of_nat (length (filter (scoring w) os))).
      rewrite <- (pipeReward_step _ m) by (subst m; lia).
      f_equal. rewrite only_score_collapse. apply only_score_ext; simpl_world; [lia|].
      unfold pipeBase. simpl_world. lia.
    + destruct (IH w K) as [snds E2]. rewrite E2. eauto.
Qed.

Lemma updateHighScore_eq w :
  exists st,
    updateHighScore w =
    set_hud (if (score w >? highScore w)%Z
             then Hud.set_highScoreDisplay (show_Z (score w)) (hud w) else hud w)
      (set_storage st (set_highScore (Z.max (highScore w) (score w)) w)).
Proof.
  unfold updateHighScore. destruct (score w >? highScore w)%Z eqn:G.
  - eexists. simpl_world. rewrite Z.max_r by lia. reflexivity.
  - exists (storage w). rewrite Z.max_l by lia. now destruct w.
Qed.

Lemma unlockFrom_eq (objs : list FlyingObject.t) : forall i w,
  exists st,
    unlockFrom i objs w =
    set_storage st (set_unlocks (unlocksFor (score w) i objs (unlocks w)) w).
Proof.
  induction objs as [|obj objs IH]; intros i w; cbn [unlockFrom unlocksFor].
  - exists (storage w). now destruct w.
  - unfold unlockObject.
    destruct ((score w >=? FlyingObject.unlockScore obj)%Z && negb (js_get i (unlocks w))).
    + match goal with |- context [unlockFrom _ _ ?v] => destruct (IH (S i) v) as [st E] end.
      rewrite E. simpl_world. now exists st.
    + apply IH.
Qed.

Lemma checkVictory_eq w :
  exists snds ps c,
    checkVictory w =
    set_cursor c (set_particles ps (set_sounds snds
      (set_victory (victory w || (score w >=? 10000)%Z) w))).
Proof.
  unfold checkVictory. destruct (score w >=? 10000)%Z, (victory w) eqn:V; simpl andb.
  - exists (sounds w), (particles w), (cursor w). destruct w. simpl in *. now subst.
  - createParticles_away. simpl_world. do 3 eexists. reflexivity.
  - exists (sounds w), (particles w), (cursor w). destruct w. simpl in *. now subst.
  - exists (sounds w), (particles w), (cursor w). destruct w. simpl in *. now subst.
Qed.

(** The whole of [updateScore], field by field: the obstacles are marked, the
    score and the streak advance by the pipes passed, the high score is the
    maximum, unlocks and victory follow the new score, the level rises when due
    at the new score and the speed and gap with it, the displays show the
    new score, high score and level; sounds, the stored items, particles and
    the background are the only other globals written. *)
Lemma updateScore_shape w :
  (0 <= pipeStreak w)%Z ->
  let n := Z.of_nat (length (filter (scoring w) (obstacles w))) in
  let s := (score w + pipeReward (pipeBase w) n (pipeStreak w))%Z in
  let due := levelUpDue s (level w) in
  exists snds st ps c ss ns,
    updateScore w =
    set_hud (hudFor s w)
    (set_nebulas ns (set_stars ss (set_cursor c (set_particles ps
      (set_storage st (set_sounds snds
        (set_pipeGap (if due then levelGap (level w + 1) else pipeGap w)
          (set_pipeSpeed (if due then levelSpeed (level w + 1) else pipeSpeed w)
            (set_level (if due then level w + 1 else level w)%Z
              (set_victory (victory w || (s >=? 10000)%Z)
                (set_unlocks (unlocksFor s 0 flyingObjects (unlocks w))
                  (set_highScore (Z.max (highScore w) s)
                    (set_pipeStreak (pipeStreak w + n)
                      (set_score s
                        (set_obstacles (map (markPassed w) (obstacles w)) w))))))))))))))).
Proof.
  intros K n s due. unfold updateScore.
  destruct (passObstacles_spec (obstacles w) w K) as [snds E]. fold n in E. fold s in E.
  rewrite E. clear E. clearbody s n.
  match goal with |- context [updateHighScore ?v] =>
    destruct (updateHighScore_eq v) as [st1 E1]; rewrite E1; clear E1 end.
  match goal with |- context [unlockFrom 0 flyingObjects ?v] =>
    destruct (unlockFrom_eq flyingObjects 0 v) as [st2 E2]; rewrite E2; clear E2 end.
  match goal with |- context [checkVictory ?v] =>
    destruct (checkVictory_eq v) as (sn3 & ps & c & E3); rewrite E3; clear E3 end.
  rewrite updateLevel_eq. simpl_goal. fold due.
  match goal with |- context [if ?b then resetBackground ?v else _] =>
    destruct b; [destruct (resetBackground_frame v) as (ss & ns & c' & E6); rewrite E6|] end;
    [exists sn3, st2, ps, c', ss, ns | exists sn3, st2, ps, c, (stars w), (nebulas w)];
    unfold hudFor; subst due;
    destruct (levelUpDue s (level w)), (s >? highScore w)%Z; world_eq.
Qed.

(** Rewrites [updateScore w] by its shape [updateScore_shape w K], naming the
    written values. *)
Ltac by_updateScore shape :=
  let snds := fresh "snds" in let st := fresh "st" in let ps := fresh "ps" in
  let c := fresh "c" in let ss := fresh "ss" in let ns := fresh "ns" in
  let E := fresh "E" in
  destruct shape as (snds & st & ps & c & ss & ns & E);
  rewrite E; clear E; simpl_world.

(** The counters after [updateScore], read off its shape. *)
Lemma updateScore_fields w :
  (0 <= pipeStreak w)%Z ->
  let n := Z.of_nat (length (filter (scoring w) (obstacles w))) in
  let s := (score w + pipeReward (pipeBase w) n (pipeStreak w))%Z in
  (score w <= s)%Z /\ (0 <= n)%Z /\
  score (updateScore w) = s /\ pipeStreak (updateScore w) = (pipeStreak w + n)%Z /\
  highScore (updateScore w) = Z.max (highScore w) s /\
  level (updateScore w) = (if levelUpDue s (level w) then level w + 1 else level w)%Z /\
  victory (updateScore w) = victory w || (s >=? 10000)%Z /\
  lives (updateScore w) = lives w /\ gameOver (updateScore w) = gameOver w /\
  intro (updateScore w) = intro w /\ coinCount (updateScore w) = coinCount w /\
  frame (updateScore w) = frame w /\ rafPending (updateScore w) = rafPending w /\
  lastFrameTime (updateScore w) = lastFrameTime w.
Proof.
  intros K n s. by_updateScore (updateScore_shape w K). fold n s.
  pose proof (pipeReward_nonneg (pipeBase w) n (pipeStreak w)).
  assert (0 <= pipeBase w)%Z by (destruct (pipeBase_cases w); lia).
  assert (0 <= n)%Z by (subst n; lia).
  split; [subst s; lia|]. repeat split. assumption.
Qed.

(** C3: One call of [updateScore] adds to the score 5 (10 under the double
    power-up) for each bottom obstacle newly behind the player, and 10 more
    each time the streak reaches a multiple of 3; the streak advances by the
    number of those obstacles.  In particular the score never decreases. *)
Theorem updateScore_score w :
  (0 <= pipeStreak w)%Z ->
  let n := Z.of_nat (length (filter (scoring w) (obstacles w))) in
  score (updateScore w) = (score w + pipeReward (pipeBase w) n (pipeStreak w))%Z /\
  pipeStreak (updateScore w) = (pipeStreak w + n)%Z /\
  (score w <= score (updateScore w))%Z.
Proof.
  intros K n. by_updateScore (updateScore_shape w K). fold n. repeat split.
  pose proof (pipeReward_nonneg (pipeBase w) n (pipeStreak w)).
  destruct (pipeBase_cases w); subst n; lia.
Qed.

Lemma updateScore_score_witness :
  score (updateScore
    (set_obstacles [Obstacle.mk (-40) 200 false 80 false []] demoWorld)) = 5%Z.
Proof.
  destruct (updateScore_score
    (set_obstacles [Obstacle.mk (-40) 200 false 80 false []] demoWorld)) as (S & _);
    [simpl; lia|].
  rewrite S. reflexivity.
Defined.

(** C23: After [updateScore] the high score is the larger of the old high score
    and the new score. *)
Theorem updateScore_highScore w :
  (0 <= pipeStreak w)%Z ->
  highScore (updateScore w) = Z.max (highScore w) (score (updateScore w)).
Proof. intros K. by_updateScore (updateScore_shape w K). reflexivity. Qed.

Lemma updateScore_highScore_witness :
  highScore (updateScore (set_score 30 demoWorld)) = 30%Z.
Proof.
  rewrite (updateScore_highScore (set_score 30 demoWorld)); [|simpl; lia].
  destruct (updateScore_fields (set_score 30 demoWorld)) as (_ & _ & S & _); [simpl; lia|].
  rewrite S. reflexivity.
Defined.

Lemma unlocksFor_get (s : Z) (objs : list FlyingObject.t) : forall i us j,
  js_get j (unlocksFor s i objs us) =
  js_get j us ||
  match nth_error objs (j - i) with
  | Some o => (i <=? j)%nat && (s >=? FlyingObject.unlockScore o)%Z
  | None => false
  end.
Proof.
  induction objs as [|obj objs IH]; intros i us j; cbn [unlocksFor].
  - destruct (j - i)%nat; simpl; now rewrite orb_false_r.
  - rewrite IH. destruct (Nat.leb_spec (S i) j) as [L|L].
    + replace (j - i)%nat with (S (j - S i)) by lia. cbn [nth_error].
      replace (i <=? j)%nat with true by (symmetry; apply Nat.leb_le; lia).
      destruct (_ && negb _); [|reflexivity].
      now rewrite js_set_get_other by lia.
    + cbn [andb].
      replace (match nth_error objs (j - S i) with Some _ | None => false end)
        with false by now destruct (nth_error objs (j - S i)).
      rewrite orb_false_r.
      destruct (Nat.eq_dec i j) as [->|N].
      * rewrite Nat.sub_diag, Nat.leb_refl. cbn [nth_error andb].
        destruct (s >=? _)%Z, (js_get j us) eqn:G; simpl; rewrite ?js_set_get; auto.
      * replace (i <=? j)%nat with false by (symmetry; apply Nat.leb_gt; lia).
        destruct (nth_error _ _); simpl; rewrite orb_false_r;
          destruct (_ && negb _); auto; now rewrite js_set_get_other by lia.
Qed.

(** C24: After [updateScore], object [i] of the catalog is unlocked exactly when
    it was unlocked before or the new score has reached its threshold: a flag
    never goes back to false. *)
Theorem updateScore_unlocks w (i : nat) :
  (0 <= pipeStreak w)%Z ->
  js_get i (unlocks (updateScore w)) =
  js_get i (unlocks w) ||
  match nth_error flyingObjects i with
  | Some o => (FlyingObject.unlockScore o <=? score (updateScore w))%Z
  | None => false
  end.
Proof.
  intros K. by_updateScore (updateScore_shape w K). rewrite unlocksFor_get, Nat.sub_0_r.
  destruct (nth_error flyingObjects i); [|reflexivity].
  now rewrite Z.geb_leb.
Qed.

Lemma updateScore_unlocks_witness :
  js_get 1 (unlocks (updateScore (set_score 500 demoWorld))) = true.
Proof.
  rewrite (updateScore_unlocks (set_score 500 demoWorld) 1); [|simpl; lia].
  destruct (updateScore_fields (set_score 500 demoWorld)) as (_ & _ & S & _); [simpl; lia|].
  rewrite S. reflexivity.
Defined.

(** C25: [updateScore] raises the victory flag exactly when the new score is at
    least 10000, and never lowers it. *)
Theorem updateScore_victory w :
  (0 <= pipeStreak w)%Z ->
  victory (updateScore w) = victory w || (10000 <=? score (updateScore w))%Z.
Proof. intros K. by_updateScore (updateScore_shape w K). now rewrite Z.geb_leb. Qed.

Lemma updateScore_victory_witness :
  victory (updateScore (set_score 10000 demoWorld)) = true.
Proof.
  rewrite (updateScore_victory (set_score 10000 demoWorld)); [|simpl; lia].
  destruct (updateScore_fields (set_score 10000 demoWorld)) as (_ & _ & S & _); [simpl; lia|].
  rewrite S. reflexivity.
Defined.

(** [updateScore] leaves the lives, the session flags [gameOver] and
    [intro], the player, the collectibles, the power-up and the coin counter
    as they were. *)
Lemma updateScore_untouched w :
  (0 <= pipeStreak w)%Z ->
  lives (updateScore w) = lives w /\ gameOver (updateScore w) = gameOver w /\
  intro (updateScore w) = intro w /\ player (updateScore w) = player w /\
  coins (updateScore w) = coins w /\ powerUp (updateScore w) = powerUp w /\
  coinCount (updateScore w) = coinCount w.
Proof. intros K. by_updateScore (updateScore_shape w K). repeat split. Qed.

(** The level after [updateScore] is decided on the new score. *)
Lemma updateScore_level w :
  (0 <= pipeStreak w)%Z ->
  level (updateScore w) =
  (if levelUpDue (score (updateScore w)) (level w) then level w + 1 else level w)%Z.
Proof. intros K. by_updateScore (updateScore_shape w K). reflexivity. Qed.

Lemma markPassed_not_scoring w o : scoring w (markPassed w o) = false.
Proof.
  unfold markPassed. destruct (crossed w o) eqn:C.
  - unfold scoring, crossed. simpl_world. now rewrite andb_false_r.
  - unfold scoring. now rewrite C.
Qed.

(** No obstacle is counted twice: after [updateScore] no obstacle is left
    to score, so a second call adds nothing. *)
Theorem updateScore_once w :
  (0 <= pipeStreak w)%Z ->
  filter (scoring (updateScore w)) (obstacles (updateScore w)) = [] /\
  score (updateScore (updateScore w)) = score (updateScore w).
Proof.
  intros K.
  assert (filter (scoring (updateScore w)) (obstacles (updateScore w)) = []) as F.
  { destruct (updateScore_untouched w K) as (_ & _ & _ & P & _).
    rewrite (filter_ext _ (scoring w)) by (intros; now apply scoring_frame).
    by_updateScore (updateScore_shape w K). apply filter_all_false, Forall_map, Forall_forall.
    intros o _. apply markPassed_not_scoring. }
  split; [assumption|].
  destruct (updateScore_fields w K) as (_ & N & _ & K' & _).
  destruct (updateScore_fields (updateScore w)) as (_ & _ & S & _); [lia|].
  rewrite S, F. unfold pipeReward. simpl. rewrite Z.add_0_r, Z.sub_diag. lia.
Qed.

Lemma updateScore_once_witness :
  score (updateScore (updateScore
    (set_obstacles [Obstacle.mk (-40) 200 false 80 false []] demoWorld)))
  = score (updateScore
    (set_obstacles [Obstacle.mk (-40) 200 false 80 false []] demoWorld)).
Proof.
  apply (updateScore_once
    (set_obstacles [Obstacle.mk (-40) 200 false 80 false []] demoWorld)).
  simpl. lia.
Defined.

(** ** What the progression rules keep *)

(** ** The displays after [updateScore] *)

(** [updateScore] leaves the four displays showing the counters, provided
    the displays of the high score, the level and the lives did before: it
    writes the score display in every call, the high-score display with
    every new high score and the level display with every new level. *)
Lemma updateScore_hud_ok w :
  (0 <= pipeStreak w)%Z ->
  highScore_shown w -> level_shown w -> lives_shown w -> hud_ok (updateScore w).
Proof.
  intros K H Lv L. unfold hud_ok, score_shown, highScore_shown, level_shown, lives_shown in *.
  by_updateScore (updateScore_shape w K). unfold hudFor. simpl_goal.
  set (s := (score w + _)%Z). clearbody s. rewrite H, Lv, L, Z.gtb_ltb.
  split; [reflexivity|]. split; [|split; [now destruct (levelUpDue _ _) | reflexivity]].
  case_cmp; [now rewrite Z.max_r by lia | now rewrite Z.max_l by lia].
Qed.

(** ** The unlock flags stay one per object *)

Lemma unlocksFor_length (s : Z) (objs : list FlyingObject.t) : forall i us,
  (i + length objs <= length us)%nat -> length (unlocksFor s i objs us) = length us.
Proof.
  induction objs as [|obj objs IH]; intros i us L; cbn [unlocksFor length] in *; [reflexivity|].
  destruct (_ && negb _).
  - rewrite IH; rewrite js_set_length_in_range; lia.
  - apply IH. lia.
Qed.

(** A flag that is set stays set. *)
Lemma unlocksFor_mono (s : Z) (objs : list FlyingObject.t) (i j : nat) (us : list bool) :
  js_get j us = true -> js_get j (unlocksFor s i objs us) = true.
Proof. intros H. now rewrite unlocksFor_get, H. Qed.

(** [updateScore] does not touch the player's shape, and leaves one flag
    per object with every flag that was set still set. *)
Lemma updateScore_Typed w : (0 <= pipeStreak w)%Z -> Typed w -> Typed (updateScore w).
Proof.
  intros K (I & L & U0 & Ui & X & P). unfold Typed.
  by_updateScore (updateScore_shape w K).
  rewrite unlocksFor_length by (rewrite L; cbn; lia).
  rewrite !unlocksFor_mono by assumption. auto 6.
Qed.

#[export] Typeclasses Opaque checkInvincibility updateLevel updateScore.

#[export] Instance checkInvincibility_session : Keeps session checkInvincibility.
Proof. intros w. now destruct (checkInvincibility_frame w) as (i & t & c & s & ->). Qed.

#[export] Instance updateLevel_clocks : Keeps clocks updateLevel.
Proof. intros w. now rewrite updateLevel_eq. Qed.

(** ** What is stored is what a reload reads *)

Lemma updateHighScore_stored w : stored w -> stored (updateHighScore w).
Proof.
  intros [U H]. unfold updateHighScore. destruct (_ >? _)%Z; [|now split].
  now apply storeHighScore_stored.
Qed.

Lemma unlockObject_stored i obj w : stored w -> stored (unlockObject i obj w).
Proof.
  intros [U H]. unfold unlockObject. destruct (_ && _); [|now split].
  now apply storeUnlocks_stored.
Qed.

Lemma unlockFrom_stored objs : forall i w, stored w -> stored (unlockFrom i objs w).
Proof.
  induction objs as [|obj objs IH]; intros i w S; cbn [unlockFrom]; [exact S|].
  now apply IH, unlockObject_stored.
Qed.

(** [updateScore] keeps the store in step with the flags and the high score
    it writes. *)
Lemma updateScore_stored w : (0 <= pipeStreak w)%Z -> stored w -> stored (updateScore w).
Proof.
  intros K S. unfold updateScore.
  destruct (passObstacles_spec (obstacles w) w K) as [snds ->].
  match goal with |- context [updateHighScore ?v] =>
    assert (stored (unlockFrom 0 flyingObjects (updateHighScore v))) as S1
      by (apply unlockFrom_stored, updateHighScore_stored;
          now apply (stored_view w));
    set (v1 := unlockFrom 0 flyingObjects (updateHighScore v)) in * end.
  clearbody v1. destruct (checkVictory_eq v1) as (sn & ps & c & ->).
  rewrite updateLevel_eq. simpl_goal.
  match goal with |- stored (if ?b then resetBackground ?v else _) =>
    cut (stored v); [intros S2; destruct b; [now apply (reads_keeps stored) | exact S2]|] end.
  now apply (stored_view v1).
Qed.
