(* ===== verification/Collision.v ===== *)
(** * Collision: pickups, hazards and the blast

    [detectCollision] (lines 546-637).  After the 200 ms debounce it runs the
    pickup loop over the collectibles from the last to the first, then, unless
    the player is invincible, tests the canvas bounds and the obstacles,
    resolves a collision (shield consumed, life lost, or game over) and
    finally applies the blast power-up. *)

From Stdlib Require Import String ZArith QArith Qminmax Lqa Lia Bool List RelationClasses.
From S2P Require Import Prelude Entities Particles.
Import ListNotations.
Local Open Scope Q_scope.

(** ** Operations *)

(** The box test of lines 553-556. *)
Definition overlapsCoin (p : Player.t) (c : Coin.t) : bool :=
  (Player.x p <? Coin.x c + coinSize)%game &&
  (Player.x p + Player.width p >? Coin.x c)%game &&
  (Player.y p <? Coin.y c + coinSize)%game &&
  (Player.y p + Player.height p >? Coin.y c)%game.

(** The roll of lines 559-563. *)
Definition rollPowerUp (rand : Q) : PowerUp.t :=
  if (rand <? 0.33)%game then PowerUp.mk double 600
  else if (rand <? 0.66)%game then PowerUp.mk slow 600
  else if (rand <? 0.83)%game then PowerUp.mk shield 300
  else PowerUp.mk blast 10.

(** The effect of one pickup (lines 558-582); a heart at full lives falls
    through both [else if] and has no effect. *)
Definition collect (c : Coin.t) (w : World) : World :=
  match Coin.type c with
  | powerUpCapsule =>
      let (rand, w) := random w in
      let w := set_powerUp (Some (rollPowerUp rand)) w in
      let w := play PowerUpCue w in
      createParticles (Coin.x c) (Coin.y c) pCoin 10 w
  | heart =>
      if (lives w <? maxLives)%Z then
        let w := set_lives (lives w + 1) w in
        let w := showLives w in
        let w := play HeartGrab w in
        createParticles (Coin.x c) (Coin.y c) pHeart 10 w
      else w
  | coin =>
      let w := set_score (score w + (if powerUpIs double (powerUp w) then 20 else 10)) w in
      let w := set_coinCount (coinCount w + 1) w in
      let w := play CoinGrab w in
      let w := createParticles (Coin.x c) (Coin.y c) pCoin 10 w in
      if (coinCount w >=? 5)%Z then
        let w := on_player (Player.set_boost true) w in
        let w := on_player (Player.set_boostTimer 200) w in
        let w := set_coinCount 0 w in
        play FullSendShout w
      else w
  end.

(** The loop of lines 550-585: [i] runs from the last index down to 0 and a
    collected coin is spliced out, so the tail is processed before the head. *)
Fixpoint pickupCoins (cs : list Coin.t) (w : World) : list Coin.t * World :=
  match cs with
  | [] => ([], w)
  | c :: rest =>
      let (rest', w) := pickupCoins rest w in
      if overlapsCoin (player w) c then (rest', collect c w) else (c :: rest', w)
  end.

(** Line 590. *)
Definition outOfBounds (w : World) : bool :=
  (Player.y (player w) + Player.height (player w) >? canvasHeight w)%game ||
  (Player.y (player w) <? 0)%game.

(** The test of lines 593-598. *)
Definition hitsObstacle (w : World) (o : Obstacle.t) : bool :=
  (Player.x (player w) + Player.width (player w) >? Obstacle.x o)%game &&
  (Player.x (player w) <? Obstacle.x o + Obstacle.width o)%game &&
  ((Obstacle.isTop o && (Player.y (player w) <? Obstacle.height o)%game) ||
   (negb (Obstacle.isTop o) &&
    (Player.y (player w) + Player.height (player w)
       >? canvasHeight w - Obstacle.height o)%game)).

(** [collisionDetected] at line 604. *)
Definition collisionDetected (w : World) : bool :=
  outOfBounds w || existsb (hitsObstacle w) (obstacles w).

(** [createParticles(player.x + player.width / 2, ..., 'crash', 20)]. *)
Definition crashParticles (w : World) : World :=
  createParticles (Player.x (player w) + Player.width (player w) / 2)
    (Player.y (player w) + Player.height (player w) / 2) pCrash 20 w.

(** The filter of line 615. *)
Definition behindPlayer (w : World) (o : Obstacle.t) : bool :=
  (Obstacle.x o + Obstacle.width o <? Player.x (player w))%game.

(** Lines 605-626, at the time [now] read from the clock. *)
Definition resolveCollision (now : Z) (w : World) : World :=
  let w := set_lastCollisionTime now w in
  if powerUpIs shield (powerUp w) then
    let w := set_powerUp None w in
    let w := crashParticles w in
    play Crash w
  else if (lives w >? 1)%Z then
    let w := set_lives (lives w - 1) w in
    let w := showLives w in
    let w := on_player (Player.set_y (canvasHeight w / 2)) w in
    let w := on_player (Player.set_velocity 0) w in
    let w := set_obstacles (filter (behindPlayer w) (obstacles w)) w in
    let w := crashParticles w in
    let w := play Crash w in
    set_shakeTimer 10 w
  else
    let w := set_lives 0 w in
    let w := showLives w in
    let w := set_gameOver true w in
    let w := crashParticles w in
    let w := play Crash w in
    set_shakeTimer 10 w.

(** Lines 629-633. *)
Definition blastEffect (w : World) : World :=
  match powerUp w with
  | Some u =>
      if PowerUpType_eqb (PowerUp.type u) blast && (PowerUp.timer u >? 0)%game then
        let w := set_obstacles [] w in
        let w := set_powerUp (Some (PowerUp.mk (PowerUp.type u) (PowerUp.timer u - 1))) w in
        createParticles (canvasWidth w / 2) (canvasHeight w / 2) pCrash 10 w
      else w
  | None => w
  end.

(** [detectCollision], with [now] the value of [Date.now()]. *)
Definition detectCollision (now : Z) (w : World) : World :=
  if (now - lastCollisionTime w <? 200)%Z then w
  else
    let (cs, w) := pickupCoins (coins w) w in
    let w := set_coins cs w in
    if Player.invincible (player w) then w
    else
      let w := if collisionDetected w then resolveCollision now w else w in
      blastEffect w.

(** ** Reference definition *)

(** The pickup loop without indices: the collectibles that do not overlap
    the player stay, in their order; the others are collected, the last of
    the list first. *)
Definition pickupCoins_ref (cs : list Coin.t) (w : World) : list Coin.t * World :=
  (filter (fun c => negb (overlapsCoin (player w) c)) cs,
   fold_right collect w (filter (overlapsCoin (player w)) cs)).

(** ** Invariants of the component *)

(** While playing, the player has between 1 and [maxLives] lives. *)
Definition playing_lives (w : World) : Prop :=
  gameOver w = false /\ (1 <= lives w <= maxLives)%Z.

(** At any time: either that, or the game is over with no life left. *)
Definition lives_ok (w : World) : Prop :=
  playing_lives w \/ (gameOver w = true /\ lives w = 0%Z).

(** The coin counter counts modulo 5. *)
Definition coinCount_ok (w : World) : Prop := (0 <= coinCount w < 5)%Z.

(** ** What a pickup can change *)

Definition only_pickup (w w' : World) : Prop :=
  exists sc cc lv ld pu b bt snds ps c,
    w' =
    set_cursor c (set_particles ps (set_sounds snds
      (on_player (fun p => Player.set_boostTimer bt (Player.set_boost b p))
        (set_powerUp pu (set_hud (Hud.set_livesDisplay ld (hud w))
          (set_lives lv (set_coinCount cc (set_score sc w)))))))).

#[export] Instance only_pickup_preorder : PreOrder only_pickup.
Proof.
  split.
  - intros w. exists (score w), (coinCount w), (lives w), (Hud.livesDisplay (hud w)),
      (powerUp w), (Player.boost (player w)), (Player.boostTimer (player w)),
      (sounds w), (particles w), (cursor w).
    now destruct w as [? ? ? ? ? ? ? ? ? ? [] ? ? ? ? ? ? ? ? ? ? ? ? ? ? ? ? ? ? ? ? ? ? ? []].
  - intros a b c (sc & cc & lv & ld & pu & bo & bt & sn & ps & cu & ->)
                 (sc' & cc' & lv' & ld' & pu' & bo' & bt' & sn' & ps' & cu' & ->).
    now exists sc', cc', lv', ld', pu', bo', bt', sn', ps', cu'.
Qed.

(** What a pickup does to the counters: the score and the lives do not
    decrease, the lives stay under the maximum, the coin counter stays in
    range, and a power-up, once held, is still held. *)
Definition pickup_gain (w w' : World) : Prop :=
  (score w <= score w')%Z /\
  (lives w <= lives w' <= Z.max (lives w) maxLives)%Z /\
  (coinCount_ok w -> coinCount_ok w') /\
  (isSomeb (powerUp w) = true -> isSomeb (powerUp w') = true) /\
  player w' = Player.set_boostTimer (Player.boostTimer (player w'))
                (Player.set_boost (Player.boost (player w')) (player w)).

#[export] Instance pickup_gain_preorder : PreOrder pickup_gain.
Proof.
  split.
  - intros w. unfold pickup_gain. split; [lia|]. split; [lia|]. do 2 (split; [auto|]).
    destruct (player w); reflexivity.
  - intros a b c (S1 & L1 & C1 & P1 & Y1) (S2 & L2 & C2 & P2 & Y2).
    unfold pickup_gain. split; [lia|]. split; [lia|]. do 2 (split; [auto|]).
    rewrite Y2, Y1. reflexivity.
Qed.

Lemma collect_frame c w : only_pickup w (collect c w).
Proof.
  unfold collect. destruct (Coin.type c).
  - createParticles_away. destruct (_ >=? 5)%Z; do 10 eexists; world_eq.
  - destruct (_ <? _)%Z; [|reflexivity].
    createParticles_away. do 10 eexists; world_eq.
  - cbv beta iota delta [random].
    createParticles_away. do 10 eexists; world_eq.
Qed.

Lemma collect_gain c w : pickup_gain w (collect c w).
Proof.
  unfold collect, pickup_gain, coinCount_ok. destruct (Coin.type c).
  - createParticles_away. simpl_goal. rewrite Z.geb_leb. case_cmp; simpl_goal.
    all: split; [destruct (powerUpIs _ _); lia|].
    all: split; [lia|].
    all: split; [lia|].
    all: split; [auto|]; apply Player_ext; simpl_goal; repeat split.
  - unfold maxLives. case_cmp.
    + createParticles_away. simpl_goal. split; [lia|]. split; [lia|]. do 2 (split; [auto|]).
      apply Player_ext; repeat split.
    + split; [lia|]. split; [lia|]. do 2 (split; [auto|]). apply Player_ext; repeat split.
  - cbv beta iota delta [random].
    createParticles_away. simpl_goal. split; [lia|]. split; [lia|]. do 2 (split; [auto|]).
    apply Player_ext; repeat split.
Qed.

(** A preorder that every pickup respects is respected by the pickup loop. *)
Lemma pickupCoins_preserves (R : World -> World -> Prop) `{!PreOrder R} :
  (forall c w, R w (collect c w)) ->
  forall cs w, R w (snd (pickupCoins cs w)).
Proof.
  intros Hc cs. induction cs as [|c cs IH]; intros w; cbn [pickupCoins]; [reflexivity|].
  specialize (IH w). destruct (pickupCoins cs w) as [rest w1]. cbn [snd] in IH.
  destruct (overlapsCoin (player w1) c); cbn [snd]; [|assumption].
  etransitivity; [exact IH | apply Hc].
Qed.

Lemma overlapsCoin_boost p b bt c :
  overlapsCoin (Player.set_boostTimer bt (Player.set_boost b p)) c = overlapsCoin p c.
Proof. reflexivity. Qed.

(** The pickup loop removes exactly the collectibles whose box overlaps the
    player's, and keeps the others in their order. *)
Lemma pickupCoins_filter (cs : list Coin.t) (w : World) :
  fst (pickupCoins cs w) = filter (fun c => negb (overlapsCoin (player w) c)) cs.
Proof.
  induction cs as [|c cs IH]; cbn [pickupCoins filter]; [reflexivity|].
  pose proof (pickupCoins_preserves pickup_gain collect_gain cs w) as (_ & _ & _ & _ & P).
  destruct (pickupCoins cs w) as [rest w1]. cbn [fst snd] in *.
  rewrite P, overlapsCoin_boost.
  destruct (overlapsCoin (player w) c); cbn [fst negb]; now rewrite IH.
Qed.

(** C14: The loop that walks the array backwards and splices out what it collects
    computes what the reference definition says: a filter for the list that
    remains and a fold for the effects.  The test of an element is not
    affected by the pickups made before it, which change only the boost of
    the player. *)
Theorem pickupCoins_equiv (cs : list Coin.t) (w : World) :
  pickupCoins cs w = pickupCoins_ref cs w.
Proof.
  unfold pickupCoins_ref.
  induction cs as [|c cs IH]; cbn [pickupCoins filter fold_right]; [reflexivity|].
  pose proof (pickupCoins_preserves pickup_gain collect_gain cs w) as (_ & _ & _ & _ & P).
  rewrite IH in *. cbn [snd] in P. rewrite P, overlapsCoin_boost.
  now destruct (overlapsCoin (player w) c).
Qed.

(** ** Resolution of a collision *)

Lemma resolveCollision_shield now w :
  powerUpIs shield (powerUp w) = true ->
  exists ps c,
    resolveCollision now w =
    set_cursor c (set_particles ps (set_sounds (Crash :: sounds w)
      (set_powerUp None (set_lastCollisionTime now w)))).
Proof.
  intros H. unfold resolveCollision, crashParticles. simpl_goal. rewrite H.
  createParticles_away. exists ps, cu. world_eq.
Qed.

Lemma resolveCollision_life now w :
  powerUpIs shield (powerUp w) = false -> (1 < lives w)%Z ->
  exists ps c,
    resolveCollision now w =
    set_cursor c (set_particles ps (set_shakeTimer 10 (set_sounds (Crash :: sounds w)
      (set_obstacles (filter (behindPlayer w) (obstacles w))
        (on_player (fun p => Player.set_velocity 0 (Player.set_y (canvasHeight w / 2) p))
          (showLives (set_lives (lives w - 1) (set_lastCollisionTime now w)))))))).
Proof.
  intros H L. unfold resolveCollision, crashParticles. simpl_goal. rewrite H.
  rewrite Z.gtb_ltb. case_cmp; [|lia].
  createParticles_away. exists ps, cu. world_eq.
Qed.

Lemma resolveCollision_last now w :
  powerUpIs shield (powerUp w) = false -> (lives w <= 1)%Z ->
  exists ps c,
    resolveCollision now w =
    set_cursor c (set_particles ps (set_shakeTimer 10 (set_sounds (Crash :: sounds w)
      (set_gameOver true (showLives (set_lives 0 (set_lastCollisionTime now w))))))).
Proof.
  intros H L. unfold resolveCollision, crashParticles. simpl_goal. rewrite H.
  rewrite Z.gtb_ltb. case_cmp; [lia|].
  createParticles_away. exists ps, cu. world_eq.
Qed.

(** C4: A collision is resolved in one of three ways.  With a shield the
    power-up is consumed and no life is lost; otherwise, with more than one
    life, one life is lost and play goes on; otherwise the last life is lost
    and the game is over.  The score is never changed. *)
Theorem resolveCollision_cases now w :
  playing_lives w ->
  let w' := resolveCollision now w in
  score w' = score w /\ lastCollisionTime w' = now /\
  (if powerUpIs shield (powerUp w)
   then powerUp w' = None /\ lives w' = lives w /\ gameOver w' = false
   else powerUp w' = powerUp w /\
        if (1 <? lives w)%Z
        then lives w' = (lives w - 1)%Z /\ gameOver w' = false
        else lives w' = 0%Z /\ gameOver w' = true).
Proof.
  intros [G L] w'. subst w'. destruct (powerUpIs shield (powerUp w)) eqn:S.
  - destruct (resolveCollision_shield now w S) as (ps & c & ->). simpl_goal. auto.
  - case_cmp.
    + destruct (resolveCollision_life now w S) as (ps & c & ->); [lia|]. simpl_goal. auto.
    + destruct (resolveCollision_last now w S) as (ps & c & ->); [lia|]. simpl_goal. auto 6.
Qed.

Lemma resolveCollision_cases_witness :
  lives (resolveCollision 1000 demoWorld) = 2%Z.
Proof.
  destruct (resolveCollision_cases 1000 demoWorld) as (_ & _ & _ & L & _).
  - split; [reflexivity|]. unfold maxLives. simpl. lia.
  - exact L.
Defined.

(** How a collision is resolved, as one case analysis on the three shapes. *)
Ltac by_resolveCollision now w :=
  let Sh := fresh "Sh" in let L := fresh "L" in
  destruct (powerUpIs shield (powerUp w)) eqn:Sh;
    [destruct (resolveCollision_shield now w Sh) as (? & ? & ->)
    |destruct (Z.ltb_spec 1 (lives w)) as [L|L];
       [destruct (resolveCollision_life now w Sh L) as (? & ? & ->)
       |destruct (resolveCollision_last now w Sh L) as (? & ? & ->)]].

Lemma resolveCollision_lives_ok now w :
  playing_lives w -> lives_ok (resolveCollision now w).
Proof.
  intros [G L]. unfold lives_ok, playing_lives, maxLives in *.
  by_resolveCollision now w; simpl_goal; [left|left|right]; split; auto; lia.
Qed.

Lemma resolveCollision_counts now w :
  score (resolveCollision now w) = score w /\
  coinCount (resolveCollision now w) = coinCount w.
Proof. by_resolveCollision now w; simpl_goal; auto. Qed.

(** ** The blast *)

Lemma blastEffect_eq w :
  exists os pu ps c,
    blastEffect w = set_cursor c (set_particles ps (set_powerUp pu (set_obstacles os w))) /\
    isSomeb pu = isSomeb (powerUp w).
Proof.
  unfold blastEffect. destruct (powerUp w) as [u|] eqn:P.
  - destruct (_ && _).
    + createParticles_away. do 4 eexists. split; [world_eq|reflexivity].
    + exists (obstacles w), (powerUp w), (particles w), (cursor w).
      split; [world_eq | now rewrite P].
  - exists (obstacles w), (powerUp w), (particles w), (cursor w).
    split; [world_eq | now rewrite P].
Qed.

(** While a blast is held with time left, every frame that reaches the end
    of [detectCollision] removes all obstacles and takes 1 off the timer; the
    power-up itself is never taken out of the slot by the blast. *)
Theorem blastEffect_active w u :
  powerUp w = Some u -> PowerUp.type u = blast -> 0 < PowerUp.timer u ->
  obstacles (blastEffect w) = [] /\
  powerUp (blastEffect w) = Some (PowerUp.mk blast (PowerUp.timer u - 1)).
Proof.
  intros P T H. unfold blastEffect. rewrite P, T.
  replace (PowerUp.timer u >? 0)%game with true
    by (symmetry; apply Qltb_true; assumption).
  cbn [PowerUpType_eqb andb].
  createParticles_away. simpl_goal. auto.
Qed.

Lemma blastEffect_active_witness :
  obstacles (blastEffect (set_powerUp (Some (PowerUp.mk blast 10)) demoWorld)) = [] /\
  powerUp (blastEffect (set_powerUp (Some (PowerUp.mk blast 10)) demoWorld))
    = Some (PowerUp.mk blast (10 - 1)).
Proof.
  apply (blastEffect_active (set_powerUp (Some (PowerUp.mk blast 10)) demoWorld)
           (PowerUp.mk blast 10)); reflexivity.
Defined.

(** ** [detectCollision] as a whole *)

(** C29: Inside the 200 ms that follow a resolved collision the whole function
    is skipped, the pickup loop included: a collectible the player overlaps
    is not collected. *)
Theorem detectCollision_debounced now w :
  (now - lastCollisionTime w < 200)%Z -> detectCollision now w = w.
Proof.
  intros H. unfold detectCollision.
  destruct (Z.ltb_spec (now - lastCollisionTime w) 200); [reflexivity|lia].
Qed.

Lemma detectCollision_debounced_witness :
  detectCollision 150
    (set_coins [Coin.mk 50 300 coin] (set_intro false demoWorld))
  = set_coins [Coin.mk 50 300 coin] (set_intro false demoWorld).
Proof. apply detectCollision_debounced. simpl. lia. Defined.

(** The world after the pickup loop, with what is known about it. *)
Lemma pickups_spec w :
  exists w1,
    pickupCoins (coins w) w =
      (filter (fun c => negb (overlapsCoin (player w) c)) (coins w), w1) /\
    only_pickup w w1 /\ pickup_gain w w1.
Proof.
  pose proof (pickupCoins_filter (coins w) w) as F.
  pose proof (pickupCoins_preserves only_pickup collect_frame (coins w) w) as O.
  pose proof (pickupCoins_preserves pickup_gain collect_gain (coins w) w) as G.
  destruct (pickupCoins (coins w) w) as [cs w1]. cbn [fst snd] in *.
  exists w1. now rewrite F.
Qed.

Lemma pickups_playing_lives w w1 :
  only_pickup w w1 -> pickup_gain w w1 -> playing_lives w -> playing_lives w1.
Proof.
  intros (sc & cc & lv & ld & pu & b & bt & sn & ps & c & E) (_ & L & _) [G R].
  unfold playing_lives, maxLives in *. split; [|lia].
  rewrite E. simpl_goal. assumption.
Qed.

Lemma blastEffect_lives_ok w : lives_ok w -> lives_ok (blastEffect w).
Proof.
  destruct (blastEffect_eq w) as (os & pu & ps & c & -> & _).
  unfold lives_ok, playing_lives. simpl_goal. auto.
Qed.

Lemma set_coins_lives_ok cs w : lives_ok w -> lives_ok (set_coins cs w).
Proof. unfold lives_ok, playing_lives. simpl_goal. auto. Qed.

(** From a playing state, [detectCollision] leaves either a playing state
    with 1 to 5 lives, or a finished game with no life: the lives are never
    negative, never more than 5, and game over is entered exactly when they
    reach 0. *)
Lemma detectCollision_lives_ok now w :
  playing_lives w -> lives_ok (detectCollision now w).
Proof.
  intros P. unfold detectCollision.
  destruct (_ <? 200)%Z; [now left|].
  destruct (pickups_spec w) as (w1 & -> & O & G).
  pose proof (pickups_playing_lives w w1 O G P) as P1.
  assert (playing_lives (set_coins (filter (fun c => negb (overlapsCoin (player w) c))
                                      (coins w)) w1)) as P2 by exact P1.
  destruct (Player.invincible _); [now left|].
  apply blastEffect_lives_ok.
  destruct (collisionDetected _); [now apply resolveCollision_lives_ok | now left].
Qed.

(** [detectCollision] never lowers the score and keeps the coin counter in
    [[0, 5)]. *)
Lemma detectCollision_score now w :
  playing_lives w -> coinCount_ok w ->
  (score w <= score (detectCollision now w))%Z /\ coinCount_ok (detectCollision now w).
Proof.
  intros P C. unfold detectCollision.
  destruct (_ <? 200)%Z; [split; [lia|assumption]|].
  destruct (pickups_spec w) as (w1 & -> & O & G).
  pose proof (pickups_playing_lives w w1 O G P) as P1.
  destruct G as (S & _ & C1 & _). specialize (C1 C).
  set (w2 := set_coins _ w1).
  assert (score w2 = score w1 /\ coinCount w2 = coinCount w1) as [S2 C2] by now split.
  destruct (Player.invincible _); [unfold coinCount_ok in *; split; lia|].
  destruct (blastEffect_eq (if collisionDetected w2 then resolveCollision now w2 else w2))
    as (os & pu & ps & c & -> & _).
  unfold coinCount_ok. simpl_goal.
  destruct (collisionDetected w2); [|unfold coinCount_ok in *; split; lia].
  destruct (resolveCollision_counts now w2) as [S3 C3].
  unfold coinCount_ok in *. split; lia.
Qed.

(** C9: Outside the debounce window, the collectibles that remain after
    [detectCollision] are exactly those whose box does not overlap the
    player's, in their order, whether or not the player is invincible or
    collides. *)
Theorem detectCollision_coins now w :
  (200 <= now - lastCollisionTime w)%Z ->
  coins (detectCollision now w)
  = filter (fun c => negb (overlapsCoin (player w) c)) (coins w).
Proof.
  intros D. unfold detectCollision.
  destruct (Z.ltb_spec (now - lastCollisionTime w) 200); [lia|].
  destruct (pickups_spec w) as (w1 & -> & _ & _).
  destruct (Player.invincible _); [reflexivity|].
  match goal with |- context [blastEffect ?v] =>
    destruct (blastEffect_eq v) as (os & pu & ps & c & -> & _) end.
  simpl_goal. destruct (collisionDetected _); [|reflexivity].
  match goal with |- context [resolveCollision now ?v] => by_resolveCollision now v end;
    reflexivity.
Qed.

Lemma detectCollision_coins_witness :
  coins (detectCollision 1000
    (set_coins [Coin.mk 50 300 coin; Coin.mk 500 300 heart] (set_intro false demoWorld)))
  = [Coin.mk 500 300 heart].
Proof. rewrite detectCollision_coins; [reflexivity | simpl; lia]. Defined.

Lemma pickupCoins_none cs w :
  Forall (fun c => overlapsCoin (player w) c = false) cs -> pickupCoins cs w = (cs, w).
Proof.
  induction 1 as [|c cs Hc Hcs IH]; cbn [pickupCoins]; [reflexivity|].
  now rewrite IH, Hc.
Qed.

(** C8: With one life left, no shield, no invincibility and no collectible in
    reach, a collision outside the debounce window ends the game: the lives
    are 0, [gameOver] is set, the crash cue is played and the score is the
    same. *)
Theorem detectCollision_game_over now w :
  (200 <= now - lastCollisionTime w)%Z ->
  Forall (fun c => overlapsCoin (player w) c = false) (coins w) ->
  Player.invincible (player w) = false -> collisionDetected w = true ->
  powerUpIs shield (powerUp w) = false -> lives w = 1%Z ->
  let w' := detectCollision now w in
  lives w' = 0%Z /\ gameOver w' = true /\ score w' = score w /\
  sounds w' = Crash :: sounds w.
Proof.
  intros D N I C S L w'. subst w'. unfold detectCollision.
  destruct (Z.ltb_spec (now - lastCollisionTime w) 200); [lia|].
  rewrite pickupCoins_none by assumption.
  replace (set_coins (coins w) w) with w by world_eq.
  rewrite I, C.
  destruct (resolveCollision_last now w S) as (ps & c & ->); [lia|].
  match goal with |- context [blastEffect ?v] =>
    destruct (blastEffect_eq v) as (os & pu & ps' & c' & -> & _) end.
  simpl_goal. auto.
Qed.

Lemma detectCollision_game_over_witness :
  lives (detectCollision 1000
    (on_player (Player.set_y 700) (set_lives 1 (set_intro false demoWorld)))) = 0%Z /\
  gameOver (detectCollision 1000
    (on_player (Player.set_y 700) (set_lives 1 (set_intro false demoWorld)))) = true.
Proof.
  destruct (detectCollision_game_over 1000
    (on_player (Player.set_y 700) (set_lives 1 (set_intro false demoWorld))))
    as (A & B & _); try reflexivity.
  - simpl. lia.
  - constructor.
  - split; assumption.
Defined.

(** C30: An invincible player is not hurt: no life is lost, the game does not
    end and no obstacle is removed, although collectibles are still picked
    up. *)
Theorem detectCollision_invincible now w :
  Player.invincible (player w) = true ->
  let w' := detectCollision now w in
  (lives w <= lives w')%Z /\ gameOver w' = gameOver w /\ obstacles w' = obstacles w.
Proof.
  intros I w'. subst w'. unfold detectCollision.
  destruct (_ <? 200)%Z; [repeat split; lia|].
  destruct (pickups_spec w) as (w1 & -> & O & G).
  destruct G as (_ & L & _ & _ & P).
  destruct O as (sc & cc & lv & ld & pu & b & bt & sn & ps & c & E).
  rewrite E in *. simpl_world. rewrite I. simpl_goal. repeat split; lia.
Qed.

Lemma detectCollision_invincible_witness :
  (lives (on_player (Player.set_invincible true) demoWorld)
     <= lives (detectCollision 1000 (on_player (Player.set_invincible true) demoWorld)))%Z.
Proof.
  exact (proj1 (detectCollision_invincible 1000
    (on_player (Player.set_invincible true) demoWorld) eq_refl)).
Defined.

(** C31: After a life is lost, the obstacles that remain are exactly those that
    were entirely behind the player; every obstacle at or ahead of the player
    is removed. *)
Theorem resolveCollision_keeps_behind now w :
  powerUpIs shield (powerUp w) = false -> (1 < lives w)%Z ->
  obstacles (resolveCollision now w) = filter (behindPlayer w) (obstacles w) /\
  Forall (fun o => Obstacle.x o + Obstacle.width o < Player.x (player w))
         (obstacles (resolveCollision now w)).
Proof.
  intros S L. destruct (resolveCollision_life now w S L) as (ps & c & ->).
  simpl_goal. split; [reflexivity|].
  eapply Forall_impl; [|apply Forall_filter_true].
  intros o H. unfold behindPlayer in H. now apply Qltb_true.
Qed.

Lemma resolveCollision_keeps_behind_witness :
  obstacles (resolveCollision 1000
    (set_obstacles [Obstacle.mk 400 100 true 80 false []] demoWorld)) = [].
Proof.
  destruct (resolveCollision_keeps_behind 1000
    (set_obstacles [Obstacle.mk 400 100 true 80 false []] demoWorld)) as [A _].
  - reflexivity.
  - simpl. lia.
  - rewrite A. reflexivity.
Defined.

(** The state that belongs to the progression rules ([updateScore],
    [updateLevel], [checkInvincibility]) and to the session. *)
Definition same_progress (w w' : World) : Prop :=
  pipeStreak w' = pipeStreak w /\ level w' = level w /\ highScore w' = highScore w /\
  unlocks w' = unlocks w /\ victory w' = victory w /\ intro w' = intro w /\
  pipeGap w' = pipeGap w /\ pipeSpeed w' = pipeSpeed w /\ frame w' = frame w /\
  storage w' = storage w /\ rafPending w' = rafPending w /\
  Player.invincibleCount (player w') = Player.invincibleCount (player w) /\
  Player.invincible (player w') = Player.invincible (player w) /\
  lastFrameTime w' = lastFrameTime w /\ lastInputTime w' = lastInputTime w /\
  Hud.scoreDisplay (hud w') = Hud.scoreDisplay (hud w) /\
  Hud.highScoreDisplay (hud w') = Hud.highScoreDisplay (hud w) /\
  Hud.levelDisplay (hud w') = Hud.levelDisplay (hud w) /\
  currentObjectIndex w' = currentObjectIndex w /\
  Player.x (player w') = Player.x (player w) /\
  Player.width (player w') = Player.width (player w) /\
  Player.height (player w') = Player.height (player w) /\
  Player.lift (player w') = Player.lift (player w) /\
  Player.gravity (player w') = Player.gravity (player w).

#[export] Instance same_progress_preorder : PreOrder same_progress.
Proof.
  split.
  - intros w. unfold same_progress. tauto.
  - intros a b c H1 H2. unfold same_progress in *.
    decompose [and] H1. decompose [and] H2. repeat split; congruence.
Qed.

Ltac by_progress := unfold same_progress; simpl_goal; tauto.

Lemma only_pickup_progress w w' : only_pickup w w' -> same_progress w w'.
Proof. intros (sc & cc & lv & ld & pu & b & bt & sn & ps & c & ->). by_progress. Qed.

Lemma resolveCollision_progress now w : same_progress w (resolveCollision now w).
Proof.
  by_resolveCollision now w; by_progress.
Qed.

Lemma blastEffect_progress w : same_progress w (blastEffect w).
Proof. destruct (blastEffect_eq w) as (os & pu & ps & c & -> & _). by_progress. Qed.

(** [detectCollision] never writes the progression state: in particular
    [pipeStreak] survives a collision. *)
Lemma detectCollision_untouched now w : same_progress w (detectCollision now w).
Proof.
  unfold detectCollision. destruct (_ <? 200)%Z; [reflexivity|].
  destruct (pickups_spec w) as (w1 & -> & O & _).
  transitivity w1; [now apply only_pickup_progress|].
  transitivity (set_coins (filter (fun c => negb (overlapsCoin (player w) c)) (coins w)) w1);
    [by_progress|].
  destruct (Player.invincible _); [reflexivity|].
  etransitivity; [|apply blastEffect_progress].
  destruct (collisionDetected _); [apply resolveCollision_progress | reflexivity].
Qed.

(** C32: A collision does not reset the streak of passed pipes: whatever
    happens in [detectCollision], [pipeStreak] keeps its value, so the bonus
    of every third pipe counts pipes across lost lives. *)
Theorem detectCollision_keeps_streak now w :
  pipeStreak (detectCollision now w) = pipeStreak w.
Proof. exact (proj1 (detectCollision_untouched now w)). Qed.

(** ** The displays through a collision

    [detectCollision] writes the lives display at each of the three places
    where it changes [lives]; it adds the points of the coins to [score]
    without writing the score display, which [updateScore] does next. *)

Definition lives_kept_shown (w w' : World) : Prop := lives_shown w -> lives_shown w'.

#[export] Instance lives_kept_shown_preorder : PreOrder lives_kept_shown.
Proof. split; [now intros w | intros a b c H1 H2 L; exact (H2 (H1 L))]. Qed.

Lemma collect_lives_shown c w : lives_kept_shown w (collect c w).
Proof.
  unfold lives_kept_shown, lives_shown, collect. destruct (Coin.type c).
  - createParticles_away. now destruct (_ >=? 5)%Z.
  - destruct (_ <? _)%Z; [|trivial]. createParticles_away. reflexivity.
  - cbv beta iota delta [random]. createParticles_away. trivial.
Qed.

Lemma resolveCollision_lives_shown now w : lives_kept_shown w (resolveCollision now w).
Proof. unfold lives_kept_shown, lives_shown. by_resolveCollision now w; trivial. Qed.

Lemma blastEffect_lives_shown w : lives_kept_shown w (blastEffect w).
Proof.
  unfold lives_kept_shown, lives_shown.
  now destruct (blastEffect_eq w) as (os & pu & ps & c & -> & _).
Qed.

Lemma detectCollision_lives_shown now w : lives_kept_shown w (detectCollision now w).
Proof.
  unfold detectCollision. destruct (_ <? 200)%Z; [reflexivity|].
  pose proof (pickupCoins_preserves lives_kept_shown collect_lives_shown (coins w) w) as P.
  destruct (pickupCoins (coins w) w) as [cs w1]. cbn [snd] in P.
  transitivity w1; [exact P|].
  transitivity (set_coins cs w1); [now intros L|].
  destruct (Player.invincible _); [reflexivity|].
  etransitivity; [|apply blastEffect_lives_shown].
  destruct (collisionDetected _); [apply resolveCollision_lives_shown | reflexivity].
Qed.

(** After [detectCollision] the displays of the high score, the level and
    the lives are still true; the score display is as it was. *)
Lemma detectCollision_shown now w :
  highScore_shown w /\ level_shown w /\ lives_shown w ->
  highScore_shown (detectCollision now w) /\ level_shown (detectCollision now w) /\
  lives_shown (detectCollision now w) /\
  Hud.scoreDisplay (hud (detectCollision now w)) = Hud.scoreDisplay (hud w).
Proof.
  intros (H & Lv & L).
  destruct (detectCollision_untouched now w)
    as (_ & Lv' & H' & _ & _ & _ & _ & _ & _ & _ & _ & _ & _ & _ & _ & Sd & Hd & Ld & _).
  unfold highScore_shown, level_shown in *. rewrite Hd, Ld, H', Lv'.
  repeat split; try assumption. now apply detectCollision_lives_shown.
Qed.

#[export] Typeclasses Opaque detectCollision.

#[export] Instance detectCollision_clocks now : Keeps clocks (detectCollision now).
Proof.
  intros w. destruct (detectCollision_untouched now w)
    as (_ & _ & _ & _ & _ & _ & _ & _ & F & _ & R & _ & _ & L & _).
  unfold clocks. now rewrite F, R, L.
Qed.

#[export] Instance detectCollision_store now : Keeps store (detectCollision now).
Proof.
  intros w. destruct (detectCollision_untouched now w)
    as (_ & _ & _ & U & _ & _ & _ & _ & _ & S & _).
  unfold store. now rewrite U, S.
Qed.

#[export] Instance detectCollision_shape now : Keeps shape (detectCollision now).
Proof.
  intros w. destruct (detectCollision_untouched now w)
    as (_ & _ & _ & _ & _ & _ & _ & _ & _ & _ & _ & _ & _ & _ & _ & _ & _ & _ &
        I & X & Wd & Ht & Lf & G).
  unfold shape, playerStats. now rewrite I, X, Wd, Ht, Lf, G.
Qed.
