(* ===== verification/Session.v ===== *)
(** * Session: reset and the three input handlers

    [resetGame] (lines 419-460) and the handlers [handleMobileInput],
    [handleDesktopInput] and [handleDesktopInputMouse] (lines 193-316).  A
    handler takes the value [now] of [Date.now()] and the data of the event
    it reads (the pointer position, or the key code).  The session mode
    ([Mode]) is read off the three flags the way [gameLoop] branches on them. *)

From Stdlib Require Import String ZArith QArith Lqa Lia Bool List RelationClasses.
From S2P Require Import Prelude Entities Particles Background.
Import ListNotations.
Local Open Scope Q_scope.

(** ** Operations *)

(** The assignments of [resetGame] (lines 421-454): a new player object for
    the selected catalog entry, the collections emptied, the counters at
    their initial values and the three displays that show them.
    [highScore], its display, [unlocks], [currentObjectIndex] and the input
    and frame clocks are not assigned. *)
Definition resetState (w : World) : World :=
  let w := set_player (Player.fresh (currentObjectIndex w) (canvasHeight w)) w in
  let w := set_obstacles [] w in
  let w := set_coins [] w in
  let w := set_particles [] w in
  let w := set_score 0 w in
  let w := set_level 1 w in
  let w := set_lives 3 w in
  let w := set_coinCount 0 w in
  let w := set_pipeStreak 0 w in
  let w := set_powerUp None w in
  let w := set_pipeSpeed 2.5 w in
  let w := set_pipeGap 300 w in
  let w := showScore w in
  let w := showLevel w in
  let w := showLives w in
  let w := set_gameOver false w in
  let w := set_intro true w in
  let w := set_victory false w in
  let w := set_frame 0 w in
  let w := set_lastCollisionTime 0 w in
  set_shakeTimer 0 w.

(** [resetGame]: those assignments, then a new background. *)
Definition resetGame (w : World) : World := resetBackground (resetState w).

(** The hit test of lines 209 and 286 for one rectangle. *)
Definition inArea (x y : Q) (a : Area.t) : bool :=
  (x >=? Area.x a)%game && (x <=? Area.x a + Area.width a)%game &&
  (y >=? Area.y a)%game && (y <=? Area.y a + Area.height a)%game.

(** The condition of the [if] at lines 209 and 286 for the index [i]:
    [objectAreas[i]] exists, the point is inside it and [unlocks[i]] is
    truthy. *)
Definition selectable (x y : Q) (w : World) (i : nat) : bool :=
  match nth_error (objectAreas w) i with
  | Some a => inArea x y a && js_get i (unlocks w)
  | None => false
  end.

(** The [for] loop of lines 207-217: the first index that passes the test. *)
Definition pickObject (x y : Q) (w : World) : option nat :=
  find (selectable x y w) (seq 0 (length flyingObjects)).

(** The body of the [if] (lines 210-214), also lines 254-257 for index 0. *)
Definition selectObject (i : nat) (w : World) : World :=
  let w := set_currentObjectIndex i w in
  let w := on_player (Player.assign (FlyingObject.stats (flyingObject i))) w in
  let w := set_intro false w in
  play RocketBoost w.

(** [player.velocity = player.lift; playRocketBoost()]. *)
Definition flap (w : World) : World :=
  let w := on_player (fun p => Player.set_velocity (Player.lift p) p) w in
  play RocketBoost w.

(** The button rectangles of lines 222-226 and 296-300. *)
Definition buttonWidth : Q := 220.
Definition buttonHeight : Q := 50.
Definition centerX (w : World) : Q := canvasWidth w / 2 - buttonWidth / 2.
Definition playAgainY (w : World) : Q := canvasHeight w / 2 + 80.
Definition postScoreY (w : World) : Q := canvasHeight w / 2 + 150.

(** The hit test of a button whose top is [top], with the vertical
    [buffer] of the touch handler (0 for the mouse). *)
Definition inButton (buffer top x y : Q) (w : World) : bool :=
  (x >=? centerX w)%game && (x <=? centerX w + buttonWidth)%game &&
  (y >=? top - buffer)%game && (y <=? top + buttonHeight + buffer)%game.

(** The text of lines 235 and 308. *)
Definition tweet (w : World) : string :=
  if victory w
  then ("I escaped the galaxy with " ++ show_Z (score w)
        ++ " points in $fullsend Community Challenge! #FullSend")%string
  else ("Scored " ++ show_Z (score w)
        ++ " in $fullsend Community Challenge! #FullSend")%string.

(** [window.open(...)]: the text handed to the sharing page is recorded. *)
Definition postScore (w : World) : World := set_posts (tweet w :: posts w) w.

(** The end-screen branch of the pointer handlers. *)
Definition endScreenInput (buffer x y : Q) (w : World) : World :=
  if inButton buffer (playAgainY w) x y w then resetGame w
  else if inButton buffer (postScoreY w) x y w then postScore w
  else w.

(** The intro branch of the pointer handlers. *)
Definition introInput (x y : Q) (w : World) : World :=
  match pickObject x y w with
  | Some i => selectObject i w
  | None => w
  end.

(** [handleMobileInput] for a touch at [(x, y)]. *)
Definition handleMobileInput (now : Z) (x y : Q) (w : World) : World :=
  if (now - lastInputTime w <? 150)%Z then w
  else
    let w := set_lastInputTime now w in
    if intro w then introInput x y w
    else if negb (gameOver w) && negb (victory w) then flap w
    else endScreenInput 20 x y w.

(** [handleDesktopInput] for a key whose [event.code] is [code]. *)
Definition handleDesktopInput (now : Z) (code : string) (w : World) : World :=
  if negb (String.eqb code "Space") then w
  else if (now - lastInputTime w <? 150)%Z then w
  else
    let w := set_lastInputTime now w in
    if intro w then selectObject 0 w
    else if negb (gameOver w) && negb (victory w) then flap w
    else resetGame w.

(** [handleDesktopInputMouse] for a click at [(x, y)]: there is no branch
    for the playing state. *)
Definition handleDesktopInputMouse (now : Z) (x y : Q) (w : World) : World :=
  if (now - lastInputTime w <? 150)%Z then w
  else
    let w := set_lastInputTime now w in
    if intro w then introInput x y w
    else if gameOver w || victory w then endScreenInput 0 x y w
    else w.

(** ** The session mode *)

Inductive Mode := Intro | Playing | GameOver | Victory.

(** The branch [gameLoop] and the handlers take; on the end screen the
    [victory] flag decides what is shown. *)
Definition mode (w : World) : Mode :=
  if intro w then Intro
  else if negb (gameOver w) && negb (victory w) then Playing
  else if victory w then Victory else GameOver.

Definition Mode_eqb (a b : Mode) : bool :=
  match a, b with
  | Intro, Intro | Playing, Playing | GameOver, GameOver | Victory, Victory => true
  | _, _ => false
  end.

(** What an input may do to the mode. *)
Inductive input_step : Mode -> Mode -> Prop :=
| input_ignored m : input_step m m
| input_launch : input_step Intro Playing
| input_restart_lost : input_step GameOver Intro
| input_restart_won : input_step Victory Intro.

(** The intents an input resolves to: the effect of any handler on any event
    is one of these six. *)
Inductive handled (now : Z) (w : World) : World -> Prop :=
| handled_ignored : handled now w w
| handled_stamped : handled now w (set_lastInputTime now w)
| handled_select i :
    intro w = true -> (i < length flyingObjects)%nat ->
    i = 0%nat \/ js_get i (unlocks w) = true ->
    handled now w (selectObject i (set_lastInputTime now w))
| handled_flap :
    intro w = false -> negb (gameOver w) && negb (victory w) = true ->
    handled now w (flap (set_lastInputTime now w))
| handled_restart :
    intro w = false -> negb (gameOver w) && negb (victory w) = false ->
    handled now w (resetGame (set_lastInputTime now w))
| handled_share :
    intro w = false -> negb (gameOver w) && negb (victory w) = false ->
    handled now w (postScore (set_lastInputTime now w)).

(** The fields [resetGame] leaves alone. *)
Definition same_persisted (w w' : World) : Prop :=
  highScore w' = highScore w /\ unlocks w' = unlocks w /\ storage w' = storage w /\
  currentObjectIndex w' = currentObjectIndex w /\
  canvasWidth w' = canvasWidth w /\ canvasHeight w' = canvasHeight w /\
  rand w' = rand w /\ rafPending w' = rafPending w /\
  lastFrameTime w' = lastFrameTime w /\ objectAreas w' = objectAreas w.

#[export] Instance same_persisted_preorder : PreOrder same_persisted.
Proof.
  split.
  - intros w. unfold same_persisted. tauto.
  - intros a b c H1 H2. unfold same_persisted in *.
    decompose [and] H1. decompose [and] H2. repeat split; congruence.
Qed.


(** The events the three listeners registered at lines 318-320 deliver. *)
Inductive Input :=
| Touch (x y : Q)
| Key (code : string)
| Click (x y : Q).

Definition handleInput (now : Z) (i : Input) (w : World) : World :=
  match i with
  | Touch x y => handleMobileInput now x y w
  | Key code => handleDesktopInput now code w
  | Click x y => handleDesktopInputMouse now x y w
  end.

(** An input passes the filters at the head of its handler. *)
Definition accepts (now : Z) (i : Input) (w : World) : bool :=
  negb (now - lastInputTime w <? 150)%Z &&
  match i with Key code => String.eqb code "Space" | _ => true end.

(** The flags are consistent: the introduction screen is never shown over a
    finished game. *)
Definition flags_ok (w : World) : Prop :=
  intro w = true -> gameOver w = false /\ victory w = false.

(** ** [resetGame] *)

Lemma resetGame_frame w : only_background (resetState w) (resetGame w).
Proof. exact (resetBackground_frame (resetState w)). Qed.

(** Rewrites [resetGame v] in the goal as [resetState v] under a new
    background. *)
Ltac resetGame_away :=
  match goal with
  | |- context [resetGame ?v] =>
      let ss := fresh "ss" in let ns := fresh "ns" in let c := fresh "c" in
      let E := fresh "E" in
      destruct (resetGame_frame v) as (ss & ns & c & E); rewrite E; clear E;
      unfold resetState
  end.

(** C22: [resetGame] puts every transient field at its initial value: a new
    player for the selected object at mid-height, empty collections, score 0,
    level 1, 3 lives, no power-up, speed 2.5 and gap 300, frame 0, and the
    introduction screen; the displays show score 0, level 1 and 3 lives, and
    the high-score display is left as it was. *)
Theorem resetGame_initial (w : World) :
  let w' := resetGame w in
  player w' = Player.fresh (currentObjectIndex w) (canvasHeight w) /\
  obstacles w' = [] /\ coins w' = [] /\ particles w' = [] /\
  score w' = 0%Z /\ level w' = 1%Z /\ lives w' = 3%Z /\ coinCount w' = 0%Z /\
  pipeStreak w' = 0%Z /\ powerUp w' = None /\ pipeSpeed w' = 2.5 /\ pipeGap w' = 300 /\
  gameOver w' = false /\ intro w' = true /\ victory w' = false /\
  frame w' = 0%Z /\ lastCollisionTime w' = 0%Z /\ shakeTimer w' = 0%Z /\
  hud w' = Hud.mk (Some "0"%string) (Hud.highScoreDisplay (hud w)) "1"%string "3"%string.
Proof.
  intros w'. subst w'. resetGame_away. simpl_goal.
  repeat split.
Qed.


Lemma resetGame_background (w : World) :
  length (stars (resetGame w)) = 100%nat /\ length (nebulas (resetGame w)) = 7%nat.
Proof. exact (resetBackground_sizes (resetState w)). Qed.

Lemma resetGame_mode (w : World) : mode (resetGame w) = Intro.
Proof. resetGame_away. reflexivity. Qed.

Lemma resetGame_lastInputTime (w : World) :
  lastInputTime (resetGame w) = lastInputTime w.
Proof. resetGame_away. reflexivity. Qed.

Lemma resetGame_flags_ok (w : World) : flags_ok (resetGame w).
Proof. unfold flags_ok. resetGame_away. simpl_goal. auto. Qed.

(** ** Selection *)

Lemma pickObject_Some x y w i :
  pickObject x y w = Some i ->
  (i < length flyingObjects)%nat /\ js_get i (unlocks w) = true /\
  exists a, nth_error (objectAreas w) i = Some a /\ inArea x y a = true.
Proof.
  intros H. apply find_some in H. destruct H as [I S].
  apply in_seq in I. split; [lia|]. unfold selectable in S.
  destruct (nth_error (objectAreas w) i) as [a|]; [|discriminate].
  apply andb_true_iff in S. destruct S. eauto.
Qed.

(** On the introduction screen a pointer input starts the game only with
    an object whose unlock flag is set and whose rectangle holds the point;
    otherwise no field but the input clock changes. *)
Theorem introInput_unlocked x y w :
  (exists i, (i < 4)%nat /\ js_get i (unlocks w) = true /\
             introInput x y w = selectObject i w) \/
  introInput x y w = w.
Proof.
  unfold introInput. destruct (pickObject x y w) as [i|] eqn:P; [|now right].
  left. exists i. apply pickObject_Some in P. rewrite flyingObjects_length in P. tauto.
Qed.

(** A point outside every rectangle, or inside rectangles of locked objects
    only, selects nothing. *)
Lemma pickObject_locked x y w :
  (forall i a, nth_error (objectAreas w) i = Some a -> inArea x y a = true ->
               js_get i (unlocks w) = false) ->
  pickObject x y w = None.
Proof.
  intros H. destruct (pickObject x y w) as [i|] eqn:P; [|reflexivity].
  apply pickObject_Some in P. destruct P as (_ & U & a & A & I).
  rewrite (H i a A I) in U. discriminate.
Qed.

Lemma selectObject_player i w :
  player (selectObject i w) = Player.assign (FlyingObject.stats (flyingObject i)) (player w) /\
  currentObjectIndex (selectObject i w) = i /\ intro (selectObject i w) = false /\
  sounds (selectObject i w) = RocketBoost :: sounds w.
Proof. unfold selectObject. simpl_goal. auto. Qed.

(** The player a reset builds has the size, gravity and lift of the
    object selected last. *)
Theorem resetGame_selected i w :
  let p := player (selectObject i w) in
  let p' := player (resetGame (selectObject i w)) in
  Player.width p' = Player.width p /\ Player.height p' = Player.height p /\
  Player.gravity p' = Player.gravity p /\ Player.lift p' = Player.lift p.
Proof.
  intros p p'. subst p p'. resetGame_away. unfold selectObject. simpl_goal.
  repeat split.
Qed.

(** ** The handlers *)

Lemma flap_eq w :
  flap w = set_sounds (RocketBoost :: sounds w)
             (on_player (fun p => Player.set_velocity (Player.lift p) p) w).
Proof. reflexivity. Qed.

(** An input that arrives less than 150 ms after the last accepted one
    changes nothing, whatever the handler. *)
Lemma handleInput_debounced now i w :
  (now - lastInputTime w < 150)%Z -> handleInput now i w = w.
Proof.
  intros H. assert ((now - lastInputTime w <? 150)%Z = true) as E by now apply Z.ltb_lt.
  destruct i; cbn [handleInput];
    unfold handleMobileInput, handleDesktopInput, handleDesktopInputMouse; rewrite E;
    [reflexivity | now destruct (negb _) | reflexivity].
Qed.

Lemma endScreenInput_lastInputTime b x y w :
  lastInputTime (endScreenInput b x y w) = lastInputTime w.
Proof.
  unfold endScreenInput. destruct (inButton _ (playAgainY w) _ _ _).
  - apply resetGame_lastInputTime.
  - now destruct (inButton _ _ _ _ _).
Qed.

Lemma introInput_lastInputTime x y w :
  lastInputTime (introInput x y w) = lastInputTime w.
Proof. unfold introInput. now destruct (pickObject x y w). Qed.

(** An accepted input stamps the input clock. *)
Lemma handleInput_accepted now i w :
  accepts now i w = true -> lastInputTime (handleInput now i w) = now.
Proof.
  unfold accepts. intros H. apply andb_true_iff in H. destruct H as [D K].
  apply negb_true_iff in D.
  destruct i; cbn [handleInput];
    unfold handleMobileInput, handleDesktopInput, handleDesktopInputMouse;
    rewrite D; try rewrite K; cbn [negb]; simpl_goal.
  - destruct (intro w); [apply introInput_lastInputTime|].
    destruct (_ && _); [reflexivity | apply endScreenInput_lastInputTime].
  - destruct (intro w); [reflexivity|].
    destruct (_ && _); [reflexivity | apply resetGame_lastInputTime].
  - destruct (intro w); [apply introInput_lastInputTime|].
    destruct (_ || _); [apply endScreenInput_lastInputTime | reflexivity].
Qed.

(** C20: Inputs are rate-limited: after an accepted input at [now1], any input
    at a time [now2] less than 150 ms later is ignored. *)
Theorem input_rate_limit now1 now2 i1 i2 w :
  accepts now1 i1 w = true -> (now2 - now1 < 150)%Z ->
  handleInput now2 i2 (handleInput now1 i1 w) = handleInput now1 i1 w.
Proof.
  intros A H. apply handleInput_debounced. now rewrite handleInput_accepted.
Qed.

Lemma input_rate_limit_witness :
  handleInput 1100 (Touch 10 10) (handleInput 1000 (Key "Space") demoWorld)
  = handleInput 1000 (Key "Space") demoWorld.
Proof. apply input_rate_limit; [reflexivity | lia]. Defined.

(** ** Inputs and the session mode *)

Lemma orb_negb_andb (a b : bool) : a || b = negb (negb a && negb b).
Proof. now destruct a, b. Qed.

Lemma if_negb {A : Type} (b : bool) (x y : A) :
  (if negb b then x else y) = (if b then y else x).
Proof. now destruct b. Qed.

Lemma mode_flags w :
  match mode w with
  | Intro => intro w = true
  | Playing => intro w = false /\ gameOver w = false /\ victory w = false
  | Victory => intro w = false /\ victory w = true
  | GameOver => intro w = false /\ gameOver w = true /\ victory w = false
  end.
Proof. unfold mode. destruct (intro w), (gameOver w), (victory w); cbn; auto. Qed.

Lemma flap_mode w : mode (flap w) = mode w.
Proof. reflexivity. Qed.

Lemma selectObject_step i w :
  flags_ok w -> intro w = true -> input_step (mode w) (mode (selectObject i w)).
Proof.
  intros F I. destruct (F I) as [G V]. unfold mode, selectObject. simpl_goal.
  rewrite I, G, V. constructor.
Qed.

Lemma resetGame_step w :
  intro w = false -> negb (gameOver w) && negb (victory w) = false ->
  input_step (mode w) (mode (resetGame w)).
Proof.
  intros I E. rewrite resetGame_mode. unfold mode. rewrite I, E.
  destruct (victory w); constructor.
Qed.

Lemma selectObject_flags_ok i w : flags_ok (selectObject i w).
Proof. unfold flags_ok, selectObject. simpl_goal. discriminate. Qed.

(** *** The handlers resolve inputs to intents *)

Lemma introInput_handled now x y w :
  intro w = true -> handled now w (introInput x y (set_lastInputTime now w)).
Proof.
  intros I. unfold introInput.
  destruct (pickObject x y _) as [i|] eqn:P; [|apply handled_stamped].
  apply pickObject_Some in P. apply handled_select; [exact I | apply P | right; apply P].
Qed.

Lemma endScreenInput_handled now b x y w :
  intro w = false -> negb (gameOver w) && negb (victory w) = false ->
  handled now w (endScreenInput b x y (set_lastInputTime now w)).
Proof.
  intros I E. unfold endScreenInput. destruct (inButton _ (playAgainY _) _ _ _).
  - now apply handled_restart.
  - destruct (inButton _ _ _ _ _); [now apply handled_share | apply handled_stamped].
Qed.

(** The three branches of a handler once its filters are passed. *)
Lemma branches_handled now w (onIntro onPlaying onEnd : World -> World) :
  let v := set_lastInputTime now w in
  (intro w = true -> handled now w (onIntro v)) ->
  (intro w = false -> negb (gameOver w) && negb (victory w) = true ->
   handled now w (onPlaying v)) ->
  (intro w = false -> negb (gameOver w) && negb (victory w) = false ->
   handled now w (onEnd v)) ->
  handled now w
    (if intro v then onIntro v
     else if negb (gameOver v) && negb (victory v) then onPlaying v else onEnd v).
Proof.
  intros v HI HP HE. change (intro v) with (intro w).
  change (gameOver v) with (gameOver w). change (victory v) with (victory w).
  destruct (intro w); [auto|]. destruct (negb (gameOver w) && negb (victory w)); auto.
Qed.

(** Whatever the event, a handler does one of six things: nothing (the
    input is filtered out); only stamp the input clock; select an object of
    the catalog on the introduction screen; flap while playing; restart or
    share on an end screen. *)
Lemma handleInput_handled now i w : handled now w (handleInput now i w).
Proof.
  destruct i; cbn [handleInput];
    unfold handleMobileInput, handleDesktopInput, handleDesktopInputMouse;
    try (destruct (negb (String.eqb _ "Space")); [apply handled_ignored|]);
    (destruct (_ <? 150)%Z; [apply handled_ignored|]); cbv zeta.
  - apply (branches_handled now w (introInput x y) flap (endScreenInput 20 x y));
      [apply introInput_handled | apply handled_flap | apply endScreenInput_handled].
  - apply (branches_handled now w (selectObject 0) flap resetGame);
      [|apply handled_flap | apply handled_restart].
    intros I. apply handled_select; [exact I | rewrite flyingObjects_length; lia | now left].
  - rewrite orb_negb_andb, if_negb.
    apply (branches_handled now w (introInput x y) (fun v => v) (endScreenInput 0 x y));
      [apply introInput_handled | intros _ _; apply handled_stamped
      | apply endScreenInput_handled].
Qed.

(** *** The intents follow the mode machine *)

Lemma handled_mode now w w' :
  flags_ok w -> handled now w w' -> input_step (mode w) (mode w').
Proof.
  intros F H. destruct H as [| |i I _|I E|I E|I E].
  - constructor.
  - constructor.
  - now apply (selectObject_step i (set_lastInputTime now w)).
  - constructor.
  - now apply (resetGame_step (set_lastInputTime now w)).
  - constructor.
Qed.

Lemma handled_flags_ok now w w' : flags_ok w -> handled now w w' -> flags_ok w'.
Proof.
  intros F H. destruct H as [| |i I _|I E|I E|I E]; try exact F.
  - apply selectObject_flags_ok.
  - apply resetGame_flags_ok.
Qed.

(** ** The selected object through the inputs *)

Lemma selectObject_Typed i w :
  (i < length flyingObjects)%nat -> i = 0%nat \/ js_get i (unlocks w) = true ->
  Typed w -> Typed (selectObject i w).
Proof.
  intros L U (_ & Ln & U0 & _ & X & _). unfold Typed, selectObject, playerStats. simpl_goal.
  repeat split; try assumption.
  - destruct U as [->|U]; assumption.
  - now destruct (FlyingObject.stats (flyingObject i)).
Qed.

Lemma resetGame_Typed w : Typed w -> Typed (resetGame w).
Proof.
  intros (I & Ln & U0 & Ui & _ & _). apply (Typed_view (resetState w));
    [unfold resetGame; apply (keeps (view:=shape))
    |unfold resetGame; apply (keeps (view:=store))|].
  unfold Typed, resetState, playerStats, Player.fresh. simpl_goal.
  repeat split; try assumption.
  now destruct (FlyingObject.stats (flyingObject (currentObjectIndex w))).
Qed.

(** No intent breaks the typing: a selection installs the shape of an
    unlocked catalog entry, a restart installs the shape of the selected
    one. *)
Lemma handled_Typed now w w' : handled now w w' -> Typed w -> Typed w'.
Proof.
  intros H T. destruct H as [| |i I L U|I E|I E|I E]; try exact T.
  - exact (selectObject_Typed i (set_lastInputTime now w) L U T).
  - exact (resetGame_Typed (set_lastInputTime now w) T).
Qed.

(** ** The displays through the inputs *)

Lemma resetGame_hud_ok (w : World) : hud_ok w -> hud_ok (resetGame w).
Proof.
  intros (_ & H & _). apply (hud_ok_view (resetState w));
    [unfold resetGame; apply (keeps (view:=counters))
    |unfold resetGame; apply (keeps (view:=hud))|].
  unfold hud_ok, score_shown, highScore_shown, level_shown, lives_shown, resetState.
  simpl_goal. repeat split. exact H.
Qed.

(** No intent breaks the displays: only the restart changes what they
    show. *)
Lemma handled_hud_ok now w w' : handled now w w' -> hud_ok w -> hud_ok w'.
Proof.
  intros H K. destruct H as [| |i I _|I E|I E|I E]; try exact K.
  exact (resetGame_hud_ok (set_lastInputTime now w) K).
Qed.

(** The handlers implement the mode machine: an input is ignored, or
    launches the game from the introduction screen, or takes a finished game
    back to the introduction screen; it never ends a game and never leaves
    the introduction screen for an end screen. *)
Theorem handleInput_mode now i w :
  flags_ok w -> input_step (mode w) (mode (handleInput now i w)).
Proof. intros F. eapply handled_mode; [exact F | apply handleInput_handled]. Qed.

Lemma handleInput_mode_witness :
  input_step (mode demoWorld) (mode (handleInput 1000 (Key "Space") demoWorld)).
Proof. apply handleInput_mode. intros _. split; reflexivity. Defined.

(** ** Flap, share and the buttons *)

(** While playing, an accepted touch or Space press sets the velocity to
    the lift of the player, whatever it was, plays the boost cue and changes
    no other field of the player. *)
Theorem handleInput_flap now i w :
  mode w = Playing -> accepts now i w = true ->
  match i with Click _ _ => False | _ => True end ->
  player (handleInput now i w)
    = Player.set_velocity (Player.lift (player w)) (player w) /\
  sounds (handleInput now i w) = RocketBoost :: sounds w /\
  lastInputTime (handleInput now i w) = now.
Proof.
  intros M A C. pose proof (mode_flags w) as Fl. rewrite M in Fl.
  destruct Fl as (I & G & V). unfold accepts in A. apply andb_true_iff in A.
  destruct A as [D K]. apply negb_true_iff in D.
  destruct i; [| |contradiction]; cbn [handleInput];
    unfold handleMobileInput, handleDesktopInput; rewrite D; try rewrite K;
    simpl_goal; rewrite I, G, V; cbn [negb andb]; unfold flap; simpl_goal; auto.
Qed.

Lemma handleInput_flap_witness :
  Player.velocity (player (handleInput 1000 (Key "Space") (set_intro false demoWorld)))
  = -10.
Proof.
  destruct (handleInput_flap 1000 (Key "Space") (set_intro false demoWorld))
    as (P & _); [reflexivity | reflexivity | exact I |].
  rewrite P. reflexivity.
Defined.

(** C38: A mouse click while playing does not flap, yet it is an accepted
    input: it stamps the input clock, so that a Space press within the next
    150 ms is ignored. *)
Theorem click_blocks_flap now now' x y w :
  mode w = Playing -> accepts now (Click x y) w = true -> (now' - now < 150)%Z ->
  handleInput now' (Key "Space") (handleInput now (Click x y) w)
  = set_lastInputTime now w.
Proof.
  intros M A H. rewrite handleInput_debounced by now rewrite handleInput_accepted.
  pose proof (mode_flags w) as Fl. rewrite M in Fl. destruct Fl as (I & G & V).
  unfold accepts in A. rewrite andb_true_r in A. apply negb_true_iff in A.
  cbn [handleInput]. unfold handleDesktopInputMouse. rewrite A. simpl_goal.
  now rewrite I, G, V.
Qed.

Lemma click_blocks_flap_witness :
  handleInput 1100 (Key "Space")
    (handleInput 1000 (Click 10 10) (set_intro false demoWorld))
  = set_lastInputTime 1000 (set_intro false demoWorld).
Proof. apply click_blocks_flap; [reflexivity | reflexivity | lia]. Defined.

Lemma postScore_eq w : postScore w = set_posts (tweet w :: posts w) w.
Proof. reflexivity. Qed.

(** The text that is shared for 120 points after a lost game. *)
Lemma tweet_example :
  tweet (set_score 120 (set_gameOver true demoWorld))
  = "Scored 120 in $fullsend Community Challenge! #FullSend"%string.
Proof. reflexivity. Qed.

(** For the mouse the two buttons are disjoint; for touch, with its
    20-pixel margin, they overlap on a band of 20 pixels, and there "send
    again" wins: the game is reset and nothing is shared. *)
Theorem endScreenInput_overlap x y w :
  (inButton 0 (playAgainY w) x y w = true -> inButton 0 (postScoreY w) x y w = false) /\
  (centerX w <= x <= centerX w + buttonWidth ->
   postScoreY w - 20 <= y <= playAgainY w + buttonHeight + 20 ->
   endScreenInput 20 x y w = resetGame w).
Proof.
  unfold endScreenInput, inButton, playAgainY, postScoreY, buttonHeight. split.
  - intros H. reflect_hyps. apply andb_false_iff. left. apply andb_false_iff. right.
    apply Qleb_false. lra.
  - intros [X1 X2] [Y1 Y2].
    replace ((x >=? centerX w)%game) with true by (symmetry; apply Qleb_true; lra).
    replace ((x <=? centerX w + buttonWidth)%game) with true
      by (symmetry; apply Qleb_true; lra).
    replace ((y >=? canvasHeight w / 2 + 80 - 20)%game) with true
      by (symmetry; apply Qleb_true; lra).
    replace ((y <=? canvasHeight w / 2 + 80 + 50 + 20)%game) with true
      by (symmetry; apply Qleb_true; lra).
    reflexivity.
Qed.

Lemma endScreenInput_overlap_witness :
  endScreenInput 20 400 440 demoWorld = resetGame demoWorld.
Proof.
  apply endScreenInput_overlap; split; vm_compute; discriminate.
Defined.
