(* ===== verification/Loop.v ===== *)
(** * Loop: the frame function and the events of the program

    [gameLoop] (lines 816-1061) with the frame admission of lines 819-822,
    the screen shake, the three branches on the session flags and the
    re-registration of the callback at line 1057; [resizeCanvas]
    (lines 12-31); and the program as a transition system whose events are
    the animation frames, the inputs and the resizes the browser delivers. *)

From Stdlib Require Import String ZArith QArith Qround Qminmax Lqa Lia Bool List.
From Stdlib Require Import RelationClasses.
From S2P Require Import Prelude Entities Storage Particles Background Spawner.
From S2P Require Import Progression Collision Session.
Import ListNotations.
Local Open Scope Q_scope.

(** ** The playing branch, statement by statement *)

(** [deltaTime / 16.67]. *)
Definition frames (deltaTime : Q) : Q := deltaTime / 16.67.

(** Lines 973-974. *)
Definition physics (deltaTime : Q) (w : World) : World :=
  let w := on_player (fun p =>
    Player.set_velocity (Player.velocity p + Player.gravity p * frames deltaTime) p) w in
  on_player (fun p =>
    Player.set_y (Player.y p + Player.velocity p * frames deltaTime) p) w.

(** Lines 975-980. *)
Definition boostStep (deltaTime : Q) (w : World) : World :=
  if Player.boost (player w) then
    let w := on_player (fun p =>
      Player.set_velocity (Player.velocity p - 0.2 * frames deltaTime) p) w in
    let w := set_pipeGap 350 w in
    let w := on_player (fun p =>
      Player.set_boostTimer (Player.boostTimer p - frames deltaTime) p) w in
    if (Player.boostTimer (player w) <=? 0)%game
    then on_player (Player.set_boost false) w
    else w
  else w.

(** Lines 981-988. *)
Definition powerUpStep (deltaTime : Q) (w : World) : World :=
  match powerUp w with
  | Some u =>
      let w := if PowerUpType_eqb (PowerUp.type u) slow then set_pipeSpeed 1.5 w else w in
      let u := PowerUp.mk (PowerUp.type u) (PowerUp.timer u - frames deltaTime) in
      let w := set_powerUp (Some u) w in
      if (PowerUp.timer u <=? 0)%game && negb (PowerUpType_eqb (PowerUp.type u) blast)
      then
        let w := set_powerUp None w in
        set_pipeSpeed (levelSpeed (level w)) w
      else w
  | None => w
  end.

(** The two [forEach] of lines 991-998; drawing leaves the state alone. *)
Definition moveEntities (w : World) : World :=
  let w := set_obstacles (map (updateObstacle w) (obstacles w)) w in
  set_coins (map (updateCoin w) (coins w)) w.

(** The filters of lines 1004-1005. *)
Definition onScreenObstacle (o : Obstacle.t) : bool :=
  (Obstacle.x o + Obstacle.width o >? 0)%game.

Definition onScreenCoin (c : Coin.t) : bool := (Coin.x c + coinSize >? 0)%game.

Definition dropOffScreen (w : World) : World :=
  let w := set_obstacles (filter onScreenObstacle (obstacles w)) w in
  set_coins (filter onScreenCoin (coins w)) w.

(** Lines 972-1006: the playing branch, in the order of the source. *)
Definition playingFrame (deltaTime : Q) (now : Z) (w : World) : World :=
  let w := physics deltaTime w in
  let w := boostStep deltaTime w in
  let w := powerUpStep deltaTime w in
  let w := checkInvincibility w in
  let w := generateObstacles w in
  let w := moveEntities w in
  let w := drawPlayer w in
  let w := detectCollision now w in
  let w := updateScore w in
  let w := updateParticles w in
  let w := dropOffScreen w in
  set_frame (frame w + 1) w.

(** ** The frame *)

(** Lines 825-830: two values are drawn for the offset of the canvas. *)
Definition shake (w : World) : World :=
  if (shakeTimer w >? 0)%Z then
    let (_, w) := random w in
    let (_, w) := random w in
    set_shakeTimer (shakeTimer w - 1) w
  else w.

(** Lines 837-847: the rectangles of the selection screen. *)
Definition objectSize : Q := 50.
Definition objectSpacing : Q := 20.

Definition layoutObjectAreas (w : World) : World :=
  let n := inject_Z (Z.of_nat (length flyingObjects)) in
  let totalWidth := n * objectSize + (n - 1) * objectSpacing in
  let startX := canvasWidth w / 2 - totalWidth / 2 in
  let objectY := canvasHeight w / 2 - 120 in
  set_objectAreas
    (map (fun i => Area.mk (startX + inject_Z (Z.of_nat i) * (objectSize + objectSpacing))
                     objectY objectSize objectSize)
         (seq 0 (length flyingObjects))) w.

(** [deltaTime] of line 820, once line 819 has run. *)
Definition deltaTimeOf (timestamp : Q) (w : World) : Q :=
  Qmin (timestamp - lastFrameTime w) 100.

(** Line 819: the clock of the loop starts at the first frame. *)
Definition startClock (timestamp : Q) (w : World) : World :=
  if Qeq_bool (lastFrameTime w) 0 then set_lastFrameTime timestamp w else w.

(** Lines 835-1055: the branch on the session flags.  The introduction
    screen lays out the selection rectangles, the playing branch runs the
    simulation, the end screen only ages the particles. *)
Definition screenBranch (deltaTime : Q) (now : Z) (w : World) : World :=
  if intro w then layoutObjectAreas w
  else if negb (gameOver w) && negb (victory w) then playingFrame deltaTime now w
  else updateParticles w.

(** [gameLoop(timestamp)], called by the browser for the pending request;
    [now] is the value [Date.now()] has during the call.  The request is
    consumed by the call and made again at line 1057 only. *)
Definition gameLoop (timestamp : Q) (now : Z) (w : World) : World :=
  let w := set_rafPending false w in
  let w := startClock timestamp w in
  let deltaTime := deltaTimeOf timestamp w in
  if (deltaTime >? 50)%game then w
  else
    let w := set_lastFrameTime timestamp w in
    let w := shake w in
    let w := drawBackground w in
    let w := screenBranch deltaTime now w in
    set_rafPending true w.

(** [resizeCanvas] for the window size and pixel ratio read at the call. *)
Definition resizeCanvas (innerWidth innerHeight devicePixelRatio : Q) (w : World) : World :=
  let dpr := if Qeq_bool devicePixelRatio 0 then 1 else devicePixelRatio in
  let width := Qfloor (innerWidth * dpr) in
  let height := Qfloor (innerHeight * dpr) in
  if (width >? 0)%Z && (height >? 0)%Z then
    let w := set_canvasWidth (inject_Z width) w in
    set_canvasHeight (inject_Z height) w
  else w.

(** ** The program as a transition system *)

Inductive Event :=
| Frame (timestamp : Q) (now : Z)
| InputAt (now : Z) (i : Input)
| Resize (innerWidth innerHeight devicePixelRatio : Q).

(** A frame is delivered only for a pending request. *)
Definition step (e : Event) (w : World) : option World :=
  match e with
  | Frame timestamp now => if rafPending w then Some (gameLoop timestamp now w) else None
  | InputAt now i => Some (handleInput now i w)
  | Resize iw ih dpr => Some (resizeCanvas iw ih dpr w)
  end.

(** A run: the events in order, those that are not enabled being skipped. *)
Fixpoint run (es : list Event) (w : World) : World :=
  match es with
  | [] => w
  | e :: es => run es (match step e w with Some w' => w' | None => w end)
  end.

Inductive reachable (w0 : World) : World -> Prop :=
| reachable_init : reachable w0 w0
| reachable_step w e w' : reachable w0 w -> step e w = Some w' -> reachable w0 w'.

(** What a frame may do to the mode. *)
Inductive frame_step : Mode -> Mode -> Prop :=
| frame_same m : frame_step m m
| frame_lost : frame_step Playing GameOver
| frame_won : frame_step Playing Victory.

(** The mode machine of the session. *)
Inductive mode_step : Mode -> Mode -> Prop :=
| mode_input m m' : input_step m m' -> mode_step m m'
| mode_frame m m' : frame_step m m' -> mode_step m m'.

(** ** Intermediate worlds of a frame *)

(** The world handed to [detectCollision] in a playing frame. *)
Definition beforeCollision (deltaTime : Q) (w : World) : World :=
  drawPlayer (moveEntities (generateObstacles (checkInvincibility
    (powerUpStep deltaTime (boostStep deltaTime (physics deltaTime w)))))).

(** What precedes the branch in a frame that is not skipped. *)
Definition beforeBranch (timestamp : Q) (w : World) : World :=
  drawBackground (shake (set_lastFrameTime timestamp
    (startClock timestamp (set_rafPending false w)))).

(** A player on its last life, below the canvas, with one bottom obstacle
    just behind it. *)
Definition lastLifeWorld : World :=
  set_lives 1
    (on_player (Player.set_y 700)
      (set_obstacles [Obstacle.mk (-40) 200 false 80 false []]
        (selectObject 0 demoWorld))).

(** ** The counters and the invariant *)

(** What holds at every statement of a frame. *)
Definition sane (w : World) : Prop :=
  flags_ok w /\ lives_ok w /\ coinCount_ok w /\
  (0 <= pipeStreak w)%Z /\ (0 <= score w)%Z /\ (1 <= level w)%Z.

(** The invariant of the session, which holds between events: the high
    score has caught up with the score. *)
Definition WF (w : World) : Prop := sane w /\ (score w <= highScore w)%Z.

(** The invariant as a test, for the sample worlds. *)
Definition WFb (w : World) : bool :=
  (negb (intro w) || (negb (gameOver w) && negb (victory w))) &&
  (if gameOver w then (lives w =? 0)%Z else (1 <=? lives w)%Z && (lives w <=? maxLives)%Z) &&
  (0 <=? coinCount w)%Z && (coinCount w <? 5)%Z && (0 <=? pipeStreak w)%Z &&
  (0 <=? score w)%Z && (score w <=? highScore w)%Z && (1 <=? level w)%Z.

(** ** Operations that leave the counters alone *)

Lemma WFb_WF w : WFb w = true -> WF w.
Proof.
  unfold WFb, WF, sane, flags_ok, lives_ok, playing_lives, coinCount_ok. intros H.
  repeat (apply andb_true_iff in H; destruct H as [H ?]).
  destruct (intro w), (gameOver w), (victory w); cbn in *; try discriminate;
    repeat match goal with
    | H : (_ && _) = true |- _ => apply andb_true_iff in H; destruct H
    end; repeat split; try discriminate; try lia; auto; (left + right); split; auto; lia.
Qed.


Lemma WF_counters w w' : counters w' = counters w -> WF w -> WF w'.
Proof.
  unfold counters. intros E. injection E as I G V L C S H P Lv.
  unfold WF, sane, flags_ok, lives_ok, playing_lives, coinCount_ok.
  now rewrite I, G, V, L, C, S, H, P, Lv.
Qed.

Lemma mode_counters w w' : counters w' = counters w -> mode w' = mode w.
Proof.
  unfold counters. intros E. injection E as I G V _ _ _ _ _ _.
  unfold mode. now rewrite I, G, V.
Qed.

(** ** The statements of a frame that keep the session

    Each component promises, as an instance of [Keeps], that its operations
    leave the counters and the clocks alone; the statements of [gameLoop]
    that are not calls promise the same here. *)

#[export] Typeclasses Opaque physics boostStep powerUpStep moveEntities dropOffScreen shake
  layoutObjectAreas resizeCanvas startClock beforeCollision beforeBranch.

#[export] Instance physics_session dt : Keeps session (physics dt).
Proof. now intros w. Qed.

#[export] Instance boostStep_session dt : Keeps session (boostStep dt).
Proof.
  intros w. unfold boostStep. destruct (Player.boost (player w)); [|reflexivity].
  simpl_goal. now destruct (_ <=? 0)%game.
Qed.

#[export] Instance powerUpStep_session dt : Keeps session (powerUpStep dt).
Proof.
  intros w. unfold powerUpStep. destruct (powerUp w) as [u|]; [|reflexivity].
  destruct (PowerUpType_eqb (PowerUp.type u) slow); simpl_goal;
    now destruct (_ && _).
Qed.

#[export] Instance moveEntities_session : Keeps session moveEntities.
Proof. now intros w. Qed.

#[export] Instance dropOffScreen_session : Keeps session dropOffScreen.
Proof. now intros w. Qed.

#[export] Instance shake_session : Keeps session shake.
Proof. intros w. unfold shake. now destruct (_ >? 0)%Z. Qed.

#[export] Instance layoutObjectAreas_session : Keeps session layoutObjectAreas.
Proof. now intros w. Qed.

#[export] Instance resizeCanvas_session iw ih dpr : Keeps session (resizeCanvas iw ih dpr).
Proof. intros w. unfold resizeCanvas. now destruct (_ && _). Qed.

#[export] Instance startClock_rules ts : Keeps rules (startClock ts).
Proof. intros w. unfold startClock. now destruct (Qeq_bool _ _). Qed.

#[export] Instance beforeCollision_session dt : Keeps session (beforeCollision dt).
Proof. intros w. unfold beforeCollision. now rewrite !(keeps (view:=session)). Qed.

#[export] Instance beforeBranch_rules ts : Keeps rules (beforeBranch ts).
Proof. intros w. unfold beforeBranch. now keep. Qed.

#[export] Instance WF_reads : Reads WF.
Proof. intros w w' E. exact (WF_counters w w' (f_equal (fun s => fst (fst (fst s))) E)). Qed.

Lemma updateScore_clocks w : (0 <= pipeStreak w)%Z -> clocks (updateScore w) = clocks w.
Proof.
  intros P. destruct (updateScore_fields w P)
    as (_ & _ & _ & _ & _ & _ & _ & _ & _ & _ & _ & F & R & L).
  unfold clocks. now rewrite F, R, L.
Qed.


Lemma playingFrame_eq dt now w :
  playingFrame dt now w =
  let v := dropOffScreen (updateParticles (updateScore
             (detectCollision now (beforeCollision dt w)))) in
  set_frame (frame v + 1) v.
Proof. unfold playingFrame, beforeCollision. cbv zeta. reflexivity. Qed.

(** ** The playing frame keeps the invariant *)

Lemma mode_Playing w :
  mode w = Playing -> intro w = false /\ gameOver w = false /\ victory w = false.
Proof. intros M. pose proof (mode_flags w) as F. now rewrite M in F. Qed.

Lemma detectCollision_sane now w :
  WF w -> mode w = Playing ->
  sane (detectCollision now w) /\ intro (detectCollision now w) = false.
Proof.
  intros [(F & L & C & P & S & Lv) _] M. apply mode_Playing in M. destruct M as (I & G & V).
  assert (playing_lives w) as PL by (destruct L as [L|[L _]]; [exact L | congruence]).
  pose proof (detectCollision_lives_ok now w PL) as L'.
  pose proof (detectCollision_score now w PL C) as [S' C'].
  destruct (detectCollision_untouched now w) as (P' & Lv' & _ & _ & _ & I' & _).
  rewrite I' in *. unfold sane, flags_ok. rewrite P', Lv', I'.
  split; [|exact I]. split; [congruence|]. split; [exact L'|]. split; [exact C'|]. lia.
Qed.

Lemma updateScore_WF w :
  sane w -> intro w = false -> WF (updateScore w) /\ intro (updateScore w) = false.
Proof.
  intros (F & L & C & P & S & Lv) I.
  unfold WF, sane, flags_ok, lives_ok, playing_lives, coinCount_ok in *.
  destruct (updateScore_fields w P)
    as (S1 & N & -> & -> & -> & -> & _ & -> & -> & -> & -> & _).
  split; [|exact I].
  split; [|lia]. split; [congruence|]. do 2 (split; [assumption|]).
  destruct (levelUpDue _ _); lia.
Qed.

Lemma playingFrame_WF dt now w :
  WF w -> mode w = Playing ->
  WF (playingFrame dt now w) /\ intro (playingFrame dt now w) = false.
Proof.
  intros W M. rewrite playingFrame_eq. cbv zeta.
  set (v0 := beforeCollision dt w).
  assert (counters v0 = counters w) as E0 by apply (keeps (view:=counters)).
  destruct (detectCollision_sane now v0) as [W1 I1];
    [now apply (WF_counters w) | now rewrite (mode_counters w) |].
  destruct (updateScore_WF _ W1 I1) as [W2 I2].
  set (v2 := updateScore _) in *.
  set (v3 := dropOffScreen (updateParticles v2)).
  assert (counters (set_frame (frame v3 + 1) v3) = counters v2) as E3
    by (subst v3; now keep).
  split; [now apply (WF_counters v2) | exact (eq_trans (f_equal Counters.intro E3) I2)].
Qed.

(** ** The frame keeps the invariant and follows the mode machine *)

Lemma screenBranch_cases dt now w :
  (mode w = Playing /\ screenBranch dt now w = playingFrame dt now w) \/
  (mode w <> Playing /\ counters (screenBranch dt now w) = counters w).
Proof.
  unfold screenBranch, mode. destruct (intro w).
  - right. split; [discriminate | reflexivity].
  - destruct (negb (gameOver w) && negb (victory w)); [now left|].
    right. split; [destruct (victory w); discriminate | apply (keeps (view:=counters))].
Qed.

Lemma screenBranch_WF dt now w : WF w -> WF (screenBranch dt now w).
Proof.
  intros W. destruct (screenBranch_cases dt now w) as [[M ->]|[_ E]].
  - now apply playingFrame_WF.
  - now apply (WF_counters w).
Qed.

Lemma screenBranch_mode dt now w :
  WF w -> frame_step (mode w) (mode (screenBranch dt now w)).
Proof.
  intros W. destruct (screenBranch_cases dt now w) as [[M ->]|[_ E]].
  - destruct (playingFrame_WF dt now w W M) as [_ I]. rewrite M.
    pose proof (mode_flags (playingFrame dt now w)) as F.
    destruct (mode (playingFrame dt now w)); [congruence | constructor..].
  - rewrite (mode_counters _ _ E). constructor.
Qed.

(** The two outcomes of [gameLoop]. *)
Lemma gameLoop_cases ts now w :
  let w0 := startClock ts (set_rafPending false w) in
  ((deltaTimeOf ts w0 >? 50)%game = true /\ gameLoop ts now w = w0) \/
  ((deltaTimeOf ts w0 >? 50)%game = false /\
   gameLoop ts now w
   = set_rafPending true (screenBranch (deltaTimeOf ts w0) now (beforeBranch ts w))).
Proof.
  intros w0. unfold gameLoop. fold w0.
  destruct (deltaTimeOf ts w0 >? 50)%game; [now left | now right].
Qed.

(** The counters after a frame are those the branch leaves, or the old ones
    when the frame is skipped. *)
Lemma counters_gameLoop ts now w :
  counters (gameLoop ts now w) = counters w \/
  exists dt v, counters v = counters w /\
    counters (gameLoop ts now w) = counters (screenBranch dt now v).
Proof.
  destruct (gameLoop_cases ts now w) as [[_ ->]|[_ ->]].
  - left. now keep.
  - right. exists (deltaTimeOf ts (startClock ts (set_rafPending false w))),
      (beforeBranch ts w).
    split; apply (keeps (view:=counters)).
Qed.

Lemma gameLoop_WF ts now w : WF w -> WF (gameLoop ts now w).
Proof.
  intros W. destruct (counters_gameLoop ts now w) as [E|(dt & v & Ev & E)].
  - now apply (WF_counters w).
  - apply (WF_counters _ _ E), screenBranch_WF. now apply (WF_counters w).
Qed.

Lemma gameLoop_mode ts now w :
  WF w -> frame_step (mode w) (mode (gameLoop ts now w)).
Proof.
  intros W. destruct (counters_gameLoop ts now w) as [E|(dt & v & Ev & E)].
  - rewrite (mode_counters _ _ E). constructor.
  - rewrite (mode_counters _ _ E), <- (mode_counters _ _ Ev).
    apply screenBranch_mode. now apply (WF_counters w).
Qed.

(** ** The handlers keep the invariant *)

Lemma resetGame_WF w : WF w -> WF (resetGame w).
Proof.
  intros [(_ & _ & _ & _ & S & _) H].
  apply (WF_counters (resetState w));
    [unfold resetGame; apply (keeps (view:=counters))|].
  unfold WF, sane, flags_ok, lives_ok, playing_lives, coinCount_ok, maxLives, resetState.
  simpl_goal. repeat split; try lia; discriminate.
Qed.

Lemma selectObject_WF i w : WF w -> WF (selectObject i w).
Proof.
  intros [(F & R) H]. split; [|exact H]. split; [apply selectObject_flags_ok | exact R].
Qed.

Lemma handled_WF now w w' : WF w -> handled now w w' -> WF w'.
Proof.
  intros W H. destruct H as [| |i I _|I E|I E|I E]; try exact W.
  - now apply (selectObject_WF i (set_lastInputTime now w)).
  - now apply (resetGame_WF (set_lastInputTime now w)).
Qed.

Lemma handleInput_WF now i w : WF w -> WF (handleInput now i w).
Proof. intros W. eapply handled_WF; [exact W | apply handleInput_handled]. Qed.

(** ** The program keeps the invariant *)

Lemma loadWorld_WF cw ch rnd st us hs : (0 <= hs)%Z -> WF (loadWorld cw ch rnd st us hs).
Proof.
  intros H. unfold WF, sane, flags_ok, lives_ok, playing_lives, coinCount_ok, maxLives.
  cbn. repeat split; try lia; discriminate.
Qed.

(** Every event keeps the invariant of the session. *)
Lemma step_WF e w w' : WF w -> step e w = Some w' -> WF w'.
Proof.
  intros W S. destruct e as [ts now|now i|iw ih dpr]; cbn [step] in S.
  - destruct (rafPending w); [|discriminate]. injection S as <-. now apply gameLoop_WF.
  - injection S as <-. now apply handleInput_WF.
  - injection S as <-. apply (WF_counters w); [apply (keeps (view:=counters)) | exact W].
Qed.

Lemma reachable_preserves (P : World -> Prop) w0 :
  (forall e w w', P w -> step e w = Some w' -> P w') ->
  P w0 -> forall w, reachable w0 w -> P w.
Proof. intros H H0 w R. induction R; eauto. Qed.

Lemma reachable_WF cw ch rnd st us hs w :
  (0 <= hs)%Z -> reachable (loadWorld cw ch rnd st us hs) w -> WF w.
Proof.
  intros H. apply reachable_preserves; [apply step_WF | now apply loadWorld_WF].
Qed.

(** C1: In every state the program can reach from its initial state (with a
    stored high score that is not negative), the lives are between 0 and 5,
    the game is over exactly when no life is left, the coin counter is
    between 0 and 4, and the score is between 0 and the high score. *)
Theorem reachable_lives cw ch rnd st us hs w :
  (0 <= hs)%Z -> reachable (loadWorld cw ch rnd st us hs) w ->
  (0 <= lives w <= 5)%Z /\ (gameOver w = true <-> lives w = 0%Z) /\
  (0 <= coinCount w < 5)%Z /\ (0 <= score w <= highScore w)%Z.
Proof.
  intros H R.
  destruct (reachable_WF cw ch rnd st us hs w H R) as [(_ & L & C & _ & S & _) Hs].
  unfold lives_ok, playing_lives, maxLives in L.
  destruct L as [[G L]|[G L]]; rewrite G; (split; [lia|]);
    (split; [|split; [exact C | lia]]); split; (discriminate || lia || reflexivity).
Qed.

Lemma reachable_lives_witness :
  (0 <= lives (gameLoop 16 1000 demoWorld) <= 5)%Z.
Proof.
  refine (proj1 (reachable_lives 800 600 (fun _ => 1 # 2) (Storage.mk None None)
    defaultUnlocks 0 (gameLoop 16 1000 demoWorld) _ _)); [lia|].
  apply (reachable_step _ demoWorld (Frame 16 1000)); [apply reachable_init | reflexivity].
Defined.

(** C2: Every event follows the mode machine of the session: an input
    launches or restarts, a frame ends a game by loss or by victory, and
    nothing else changes the mode. *)
Theorem step_mode e w w' : WF w -> step e w = Some w' -> mode_step (mode w) (mode w').
Proof.
  intros W S. destruct e as [ts now|now i|iw ih dpr]; cbn [step] in S.
  - destruct (rafPending w); [|discriminate]. injection S as <-.
    now apply mode_frame, gameLoop_mode.
  - injection S as <-. apply mode_input, (handled_mode now); [apply W|].
    apply handleInput_handled.
  - injection S as <-. rewrite (mode_counters w _ (keeps (view:=counters) (f:=resizeCanvas iw ih dpr) w)).
    apply mode_frame. constructor.
Qed.

Lemma step_mode_witness :
  mode_step (mode demoWorld) (mode (handleInput 1000 (Key "Space") demoWorld)).
Proof.
  apply (step_mode (InputAt 1000 (Key "Space")) demoWorld); [|reflexivity].
  now apply loadWorld_WF.
Defined.

(** ** The frame counter and the clock of the loop *)

Lemma playingFrame_clocks dt now w :
  WF w -> mode w = Playing ->
  clocks (playingFrame dt now w) = (frame w + 1, rafPending w, lastFrameTime w)%Z.
Proof.
  intros W M. rewrite playingFrame_eq. cbv zeta.
  assert (sane (detectCollision now (beforeCollision dt w))) as (_ & _ & _ & P & _).
  { apply detectCollision_sane.
    - apply (WF_counters w); [apply (keeps (view:=counters)) | exact W].
    - now rewrite (mode_counters w _ (keeps (view:=counters) (f:=beforeCollision dt) w)). }
  set (v3 := dropOffScreen _).
  assert (clocks v3 = clocks w) as E.
  { subst v3. keep. rewrite updateScore_clocks by exact P. now keep. }
  clearbody v3. unfold clocks in *. simpl_goal. now injection E as -> -> ->.
Qed.

(** A playing frame advances the frame counter by exactly one, so that
    [generateObstacles] fires once every 150 playing frames. *)
Theorem playingFrame_frame dt now w :
  WF w -> mode w = Playing -> frame (playingFrame dt now w) = (frame w + 1)%Z.
Proof.
  intros W M. exact (f_equal (fun c => fst (fst c)) (playingFrame_clocks dt now w W M)).
Qed.

Lemma playingFrame_frame_witness :
  frame (playingFrame 16 1000 (selectObject 0 demoWorld)) = 1%Z.
Proof.
  apply (playingFrame_frame 16 1000 (selectObject 0 demoWorld)); [|reflexivity].
  apply selectObject_WF. now apply loadWorld_WF.
Defined.

(** ** Frame admission *)

Lemma deltaTimeOf_late ts w :
  50 < ts - lastFrameTime w -> (deltaTimeOf ts w >? 50)%game = true.
Proof.
  intros H. unfold deltaTimeOf. apply Qltb_true.
  destruct (Q.min_spec (ts - lastFrameTime w) 100) as [[_ E]|[_ E]]; rewrite E; lra.
Qed.

Lemma startClock_started ts w : ~ lastFrameTime w == 0 -> startClock ts w = w.
Proof.
  intros H. unfold startClock. destruct (Qeq_bool (lastFrameTime w) 0) eqn:E; [|reflexivity].
  now apply Qeq_bool_iff in E.
Qed.

(** A frame that comes more than 50 ms after the last one does nothing, and
    does not ask for the next frame. *)
Lemma gameLoop_late ts now w :
  ~ lastFrameTime w == 0 -> 50 < ts - lastFrameTime w ->
  gameLoop ts now w = set_rafPending false w.
Proof.
  intros Z L. destruct (gameLoop_cases ts now w) as [[_ E]|[D _]].
  - now rewrite E, startClock_started.
  - rewrite startClock_started, deltaTimeOf_late in D by assumption. discriminate.
Qed.

(** The handlers and the resize never ask for a frame. *)
Lemma handled_rafPending now w w' : handled now w w' -> rafPending w' = rafPending w.
Proof.
  intros H.
  destruct H as [| |i I _|I E|I E|I E];
    [reflexivity | reflexivity | reflexivity | reflexivity | | reflexivity].
  now destruct (resetGame_frame (set_lastInputTime now w)) as (ss & ns & c & ->).
Qed.

Lemma step_rafPending e w w' :
  rafPending w = false -> step e w = Some w' -> rafPending w' = false.
Proof.
  intros R S. destruct e as [ts now|now i|iw ih dpr]; cbn [step] in S.
  - rewrite R in S. discriminate.
  - injection S as <-. now rewrite (handled_rafPending now w _ (handleInput_handled now i w)).
  - injection S as <-. unfold resizeCanvas. now destruct (_ && _).
Qed.

Lemma run_rafPending es w : rafPending w = false -> rafPending (run es w) = false.
Proof.
  revert w. induction es as [|e es IH]; intros w R; cbn [run]; [exact R|].
  apply IH. destruct (step e w) eqn:S; [now apply (step_rafPending e w) | exact R].
Qed.

(** C5: One late frame stops the loop for good.  When a frame comes more than
    50 ms after the previous one, [gameLoop] returns before it asks for the
    next frame; whatever events follow, no frame is ever delivered again, and
    the frame counter keeps its value. *)
Theorem gameLoop_stall ts now w es ts' now' :
  ~ lastFrameTime w == 0 -> 50 < ts - lastFrameTime w ->
  step (Frame ts' now') (run es (gameLoop ts now w)) = None.
Proof.
  intros Z L. cbn [step]. rewrite run_rafPending; [reflexivity|].
  now rewrite gameLoop_late.
Qed.

Lemma gameLoop_stall_witness :
  step (Frame 1116 2100)
    (run [InputAt 2000 (Key "Space")]
       (gameLoop 1100 2000 (set_lastFrameTime 1000 demoWorld))) = None.
Proof.
  apply (gameLoop_stall 1100 2000 (set_lastFrameTime 1000 demoWorld)).
  - intros H. vm_compute in H. discriminate.
  - vm_compute. reflexivity.
Defined.

Lemma screenBranch_lastFrameTime dt now w :
  WF w -> lastFrameTime (screenBranch dt now w) = lastFrameTime w.
Proof.
  intros W. unfold screenBranch. destruct (intro w) eqn:I; [reflexivity|].
  destruct (negb (gameOver w) && negb (victory w)) eqn:E.
  - refine (f_equal snd (playingFrame_clocks dt now w W _)).
    unfold mode. now rewrite I, E.
  - exact (f_equal snd (keeps (view:=clocks) (f:=updateParticles) w)).
Qed.

Lemma deltaTimeOf_first ts w :
  lastFrameTime w == 0 \/ ts - lastFrameTime w <= 50 ->
  (deltaTimeOf ts (startClock ts (set_rafPending false w)) >? 50)%game = false.
Proof.
  intros H. apply Qltb_false. unfold deltaTimeOf, startClock. simpl_goal.
  destruct (Qeq_bool (lastFrameTime w) 0) eqn:E; simpl_goal.
  - pose proof (Q.le_min_l (ts - ts) 100). lra.
  - pose proof (Q.le_min_l (ts - lastFrameTime w) 100).
    destruct H as [H|H]; [|lra]. apply Qeq_bool_iff in H. congruence.
Qed.

(** C34: A frame that is not late runs and asks for the next one: the request
    is pending again and the clock of the loop is the timestamp. *)
Theorem gameLoop_rearm ts now w :
  WF w -> lastFrameTime w == 0 \/ ts - lastFrameTime w <= 50 ->
  rafPending (gameLoop ts now w) = true /\ lastFrameTime (gameLoop ts now w) = ts.
Proof.
  intros W H. destruct (gameLoop_cases ts now w) as [[D _]|[_ ->]].
  - rewrite deltaTimeOf_first in D by assumption. discriminate.
  - split; [reflexivity|]. simpl_goal. rewrite screenBranch_lastFrameTime.
    + unfold beforeBranch.
      change (snd (clocks (drawBackground (shake (set_lastFrameTime ts
        (startClock ts (set_rafPending false w)))))) = ts). now keep.
    + apply (WF_counters w); [apply (keeps (view:=counters)) | exact W].
Qed.

Lemma gameLoop_rearm_witness :
  rafPending (gameLoop 16 1000 demoWorld) = true /\
  lastFrameTime (gameLoop 16 1000 demoWorld) = 16.
Proof.
  apply gameLoop_rearm; [now apply loadWorld_WF | left; reflexivity].
Defined.

(** ** The statements of the playing branch *)

(** The motion of the player is one step of semi-implicit Euler
    integration for [deltaTime / 16.67] reference frames: the velocity takes
    the gravity first, and the position moves by the new velocity. *)
Theorem physics_euler dt w :
  let f := frames dt in
  let p := player w in
  player (physics dt w)
  = Player.set_y (Player.y p + (Player.velocity p + Player.gravity p * f) * f)
      (Player.set_velocity (Player.velocity p + Player.gravity p * f) p).
Proof. reflexivity. Qed.

(** With no time elapsed, as in the first frame, the player does not move. *)
Lemma physics_still w :
  Player.y (player (physics 0 w)) == Player.y (player w) /\
  Player.velocity (player (physics 0 w)) == Player.velocity (player w).
Proof. unfold physics, frames. simpl_goal. split; field. Qed.

Lemma boostStep_eq dt w :
  Player.boost (player w) = true ->
  boostStep dt w =
  set_pipeGap 350 (on_player (fun p =>
    Player.set_boost (negb (Player.boostTimer p - frames dt <=? 0)%game)
      (Player.set_boostTimer (Player.boostTimer p - frames dt)
        (Player.set_velocity (Player.velocity p - 0.2 * frames dt) p))) w).
Proof.
  intros B. unfold boostStep. rewrite B. simpl_goal.
  destruct (_ <=? 0)%game; world_eq.
  apply Player_ext; simpl_goal; repeat split; exact B.
Qed.

(** C35: While the boost is on, each frame takes [0.2] per reference frame off
    the velocity, sets the gap to 350 and runs the timer down; the boost ends
    when the timer reaches 0, and the gap is still 350 then: nothing in the
    frame restores it. *)
Theorem boostStep_expiry dt w :
  Player.boost (player w) = true ->
  let w' := boostStep dt w in
  pipeGap w' = 350 /\
  Player.boostTimer (player w') = Player.boostTimer (player w) - frames dt /\
  Player.velocity (player w') = Player.velocity (player w) - 0.2 * frames dt /\
  Player.boost (player w') = negb (Player.boostTimer (player w) - frames dt <=? 0)%game /\
  pipeGap (boostStep dt w') = 350.
Proof.
  intros B w'. subst w'. rewrite boostStep_eq by assumption. simpl_goal.
  repeat split. unfold boostStep. simpl_goal.
  destruct (negb _); [|reflexivity]. simpl_goal. now destruct (_ <=? 0)%game.
Qed.

Lemma boostStep_expiry_witness :
  pipeGap (boostStep 16.67
    (on_player (fun p => Player.set_boostTimer 1 (Player.set_boost true p)) demoWorld))
  = 350.
Proof.
  exact (proj1 (boostStep_expiry 16.67
    (on_player (fun p => Player.set_boostTimer 1 (Player.set_boost true p)) demoWorld)
    eq_refl)).
Defined.

(** C36: A power-up other than the blast ends when its timer reaches 0, and
    the speed is then the one of the level; the blast is never removed, its
    timer only goes down. *)
Theorem powerUpStep_expiry dt w u :
  powerUp w = Some u ->
  let t := PowerUp.timer u - frames dt in
  let w' := powerUpStep dt w in
  if (t <=? 0)%game && negb (PowerUpType_eqb (PowerUp.type u) blast)
  then powerUp w' = None /\ pipeSpeed w' = levelSpeed (level w)
  else powerUp w' = Some (PowerUp.mk (PowerUp.type u) t) /\
       pipeSpeed w' = if PowerUpType_eqb (PowerUp.type u) slow then 1.5 else pipeSpeed w.
Proof.
  intros P t w'. subst t w'. unfold powerUpStep. rewrite P.
  destruct (PowerUpType_eqb (PowerUp.type u) slow); simpl_goal;
    destruct (_ && _); simpl_goal; auto.
Qed.

Lemma powerUpStep_expiry_witness :
  powerUp (powerUpStep 16.67 (set_powerUp (Some (PowerUp.mk blast 1)) demoWorld))
  = Some (PowerUp.mk blast (1 - frames 16.67)).
Proof.
  exact (proj1 (powerUpStep_expiry 16.67
    (set_powerUp (Some (PowerUp.mk blast 1)) demoWorld) (PowerUp.mk blast 1) eq_refl)).
Defined.

(** The shake lasts as many frames as the timer says: each frame takes
    one off a positive timer and leaves a timer at 0 alone. *)
Theorem shake_timer w :
  (0 <= shakeTimer w)%Z -> shakeTimer (shake w) = Z.max 0 (shakeTimer w - 1).
Proof.
  intros H. unfold shake. rewrite Z.gtb_ltb.
  destruct (Z.ltb_spec 0 (shakeTimer w)); simpl_goal; lia.
Qed.

Lemma shake_timer_witness : shakeTimer (shake (set_shakeTimer 10 demoWorld)) = 9%Z.
Proof. apply (shake_timer (set_shakeTimer 10 demoWorld)). simpl. lia. Defined.

(** The entities that remain after a frame are those whose right edge is
    still on the canvas, in their order. *)
Theorem dropOffScreen_on_canvas w :
  Forall (fun o => 0 < Obstacle.x o + Obstacle.width o) (obstacles (dropOffScreen w)) /\
  Forall (fun c => 0 < Coin.x c + coinSize) (coins (dropOffScreen w)).
Proof.
  unfold dropOffScreen. simpl_goal. split.
  - eapply Forall_impl; [|apply Forall_filter_true]. intros o H. now apply Qltb_true.
  - eapply Forall_impl; [|apply Forall_filter_true]. intros c H. now apply Qltb_true.
Qed.

(** ** A frame that ends the game *)


(** ** Progress within a session *)

(** The score, the high score and the streak do not decrease, and the level
    rises by one at most. *)
Definition progress (c c' : Counters.t) : Prop :=
  (Counters.score c <= Counters.score c')%Z /\
  (Counters.highScore c <= Counters.highScore c')%Z /\
  (Counters.pipeStreak c <= Counters.pipeStreak c')%Z /\
  (Counters.level c <= Counters.level c' <= Counters.level c + 1)%Z.

Lemma progress_refl c : progress c c.
Proof. unfold progress. lia. Qed.

Lemma playingFrame_progress dt now w :
  WF w -> mode w = Playing -> progress (counters w) (counters (playingFrame dt now w)).
Proof.
  intros W M. rewrite playingFrame_eq. cbv zeta. keep.
  rewrite <- (keeps (view:=counters) (f:=beforeCollision dt) w).
  assert (WF (beforeCollision dt w)) as W0
    by (apply (WF_counters w); [apply (keeps (view:=counters)) | exact W]).
  assert (mode (beforeCollision dt w) = Playing) as M0
    by now rewrite (mode_counters w _ (keeps (view:=counters) (f:=beforeCollision dt) w)).
  set (v0 := beforeCollision dt w) in *. clearbody v0.
  destruct (detectCollision_sane now v0 W0 M0) as [(_ & _ & _ & P & _) _].
  destruct W0 as [(_ & L & C & _) _]. apply mode_Playing in M0. destruct M0 as (_ & G & _).
  assert (playing_lives v0) as PL by (destruct L as [L|[L _]]; [exact L | congruence]).
  destruct (detectCollision_score now v0 PL C) as [S _].
  destruct (detectCollision_untouched now v0) as (P' & Lv' & H' & _).
  destruct (updateScore_fields _ P) as (S1 & N & S2 & P2 & H2 & Lv2 & _).
  unfold progress, counters. cbn [Counters.score Counters.highScore Counters.pipeStreak
    Counters.level]. rewrite S2, P2, H2, Lv2. rewrite P', Lv', H' in *.
  repeat split; try lia; destruct (levelUpDue _ _); lia.
Qed.

Lemma screenBranch_progress dt now w :
  WF w -> progress (counters w) (counters (screenBranch dt now w)).
Proof.
  intros W. destruct (screenBranch_cases dt now w) as [[M ->]|[_ ->]].
  - now apply playingFrame_progress.
  - apply progress_refl.
Qed.

(** C21: Within a session nothing is taken back by a frame: the score, the
    high score and the streak of passed pipes never decrease, and the level
    never decreases and rises by one at most. *)
Theorem gameLoop_progress ts now w :
  WF w ->
  let w' := gameLoop ts now w in
  (score w <= score w')%Z /\ (highScore w <= highScore w')%Z /\
  (pipeStreak w <= pipeStreak w')%Z /\ (level w <= level w' <= level w + 1)%Z.
Proof.
  intros W. change (progress (counters w) (counters (gameLoop ts now w))).
  destruct (counters_gameLoop ts now w) as [->|(dt & v & Ev & ->)].
  - apply progress_refl.
  - rewrite <- Ev. apply screenBranch_progress. now apply (WF_counters w).
Qed.

Lemma gameLoop_progress_witness :
  (score lastLifeWorld <= score (gameLoop 16 1000 lastLifeWorld))%Z.
Proof.
  apply (gameLoop_progress 16 1000 lastLifeWorld). now apply WFb_WF.
Defined.

(** ** Selection on the introduction screen *)

Lemma inArea_true x y a :
  inArea x y a = true ->
  Area.x a <= x <= Area.x a + Area.width a /\ Area.y a <= y <= Area.y a + Area.height a.
Proof. unfold inArea. intros H. reflect_hyps. lra. Qed.

(** Two rectangles side by side share no point. *)
Lemma inArea_disjoint x y a b :
  inArea x y a = true ->
  Area.x a + Area.width a < Area.x b \/ Area.x b + Area.width b < Area.x a ->
  inArea x y b = false.
Proof.
  intros H D. apply inArea_true in H. unfold inArea.
  destruct D as [D|D].
  - replace ((x >=? Area.x b)%game) with false; [reflexivity|].
    symmetry. apply Qleb_false. lra.
  - replace ((x <=? Area.x b + Area.width b)%game) with false;
      [now rewrite andb_false_r|].
    symmetry. apply Qleb_false. lra.
Qed.

(** The rectangle of object [i] laid out at lines 842-847. *)
Definition objectArea (w : World) (i : nat) : Area.t :=
  nth i (objectAreas (layoutObjectAreas w)) (Area.mk 0 0 0 0).

Lemma objectArea_apart w i j :
  (i < j < 4)%nat ->
  Area.x (objectArea w i) + Area.width (objectArea w i) < Area.x (objectArea w j).
Proof.
  intros H. assert (i = 0 \/ i = 1 \/ i = 2)%nat as Hi by lia.
  assert (j = 1 \/ j = 2 \/ j = 3)%nat as Hj by lia.
  destruct Hi as [-> | [-> | ->]], Hj as [-> | [-> | ->]]; try lia;
    unfold objectArea, layoutObjectAreas, objectSize, objectSpacing; simpl_goal;
    cbn [nth map seq length flyingObjects Area.x Area.width Z.of_nat Pos.of_succ_nat
         Pos.succ]; unfold inject_Z; lra.
Qed.

Lemma selectable_layout x y w j :
  (j < 4)%nat ->
  selectable x y (layoutObjectAreas w) j = inArea x y (objectArea w j) && js_get j (unlocks w).
Proof.
  intros H. unfold selectable, objectArea.
  assert (length (objectAreas (layoutObjectAreas w)) = 4%nat) as L by reflexivity.
  destruct (nth_error (objectAreas (layoutObjectAreas w)) j) as [a|] eqn:E.
  - now rewrite (nth_error_nth _ _ _ E).
  - apply nth_error_None in E. lia.
Qed.

(** The rectangles of the selection screen do not overlap, so a pointer
    input inside the rectangle of an object selects that object when it is
    unlocked, and nothing when it is locked. *)
Theorem pickObject_layout w i x y :
  (i < 4)%nat -> inArea x y (objectArea w i) = true ->
  pickObject x y (layoutObjectAreas w) = if js_get i (unlocks w) then Some i else None.
Proof.
  intros Hi Ha. unfold pickObject. rewrite flyingObjects_length.
  rewrite (find_only (selectable x y (layoutObjectAreas w)) (seq 0 4) i).
  - now rewrite selectable_layout, Ha.
  - apply in_seq. lia.
  - intros j Hj Hne. apply in_seq in Hj. rewrite selectable_layout by lia.
    rewrite (inArea_disjoint x y (objectArea w i) (objectArea w j) Ha); [reflexivity|].
    destruct (Nat.lt_ge_cases i j); [left | right]; apply objectArea_apart; lia.
Qed.

Lemma pickObject_layout_witness :
  pickObject 365 200 (layoutObjectAreas demoWorld) = None.
Proof.
  rewrite (pickObject_layout demoWorld 1 365 200); [reflexivity | lia | reflexivity].
Defined.

(** ** Invariants of a session

    A predicate that reads the rules of the session only ([Reads]) holds in
    every reachable state as soon as the collision and scoring of a playing
    frame and the intents of the inputs keep it: every other statement of
    [gameLoop], and a resize, keep the rules. *)

Section Invariant.
Context (P : World -> Prop) `{!Reads P}.
Hypothesis P_frame : forall now w,
  WF w -> mode w = Playing -> P w -> P (updateScore (detectCollision now w)).
Hypothesis P_handled : forall now w w', handled now w w' -> P w -> P w'.

Lemma playingFrame_inv dt now w :
  WF w -> mode w = Playing -> P w -> P (playingFrame dt now w).
Proof.
  intros W M K. rewrite playingFrame_eq. cbv zeta.
  apply (reads_keeps WF (beforeCollision dt)) in W.
  rewrite <- (mode_counters w _ (keeps (view:=counters) (f:=beforeCollision dt) w)) in M.
  apply (reads_keeps P (beforeCollision dt)) in K.
  set (v0 := beforeCollision dt w) in *. clearbody v0.
  pose proof (P_frame now v0 W M K) as U.
  set (v2 := updateScore _) in *. clearbody v2.
  apply (reads v2); [now keep | exact U].
Qed.

Lemma screenBranch_inv dt now w : WF w -> P w -> P (screenBranch dt now w).
Proof.
  intros W K. unfold screenBranch. destruct (intro w) eqn:I; [now apply (reads_keeps P)|].
  destruct (negb (gameOver w) && negb (victory w)) eqn:E; [|now apply (reads_keeps P)].
  apply playingFrame_inv; [exact W | unfold mode; now rewrite I, E | exact K].
Qed.

Lemma gameLoop_inv ts now w : WF w -> P w -> P (gameLoop ts now w).
Proof.
  intros W K.
  destruct (gameLoop_cases ts now w) as [[_ ->]|[_ ->]];
    [apply (reads w); [now keep | exact K]|].
  apply (reads_keeps P (set_rafPending true)), screenBranch_inv;
    [exact (reads_keeps WF (beforeBranch ts) w W) | exact (reads_keeps P (beforeBranch ts) w K)].
Qed.

Lemma step_inv e w w' : WF w /\ P w -> step e w = Some w' -> WF w' /\ P w'.
Proof.
  intros [W K] E. split; [exact (step_WF e w w' W E)|].
  destruct e as [ts now|now i|iw ih dpr]; cbn [step] in E.
  - destruct (rafPending w); [|discriminate]. injection E as <-. now apply gameLoop_inv.
  - injection E as <-. exact (P_handled now w _ (handleInput_handled now i w) K).
  - injection E as <-. exact (reads_keeps P (resizeCanvas iw ih dpr) w K).
Qed.

Lemma reachable_inv w0 w : WF w0 -> P w0 -> reachable w0 w -> WF w /\ P w.
Proof.
  intros W K. apply (reachable_preserves (fun v => WF v /\ P v)); [apply step_inv | now split].
Qed.

End Invariant.

(** ** The store follows the session *)

Lemma frame_stored now w :
  WF w -> mode w = Playing -> stored w -> stored (updateScore (detectCollision now w)).
Proof.
  intros W M S. destruct (detectCollision_sane now w W M) as [(_ & _ & _ & P & _) _].
  apply updateScore_stored; [exact P|].
  apply (stored_view w); [apply (keeps (view:=store)) | | exact S].
  now destruct (detectCollision_untouched now w) as (_ & _ & H & _).
Qed.

Lemma handled_stored now w w' : handled now w w' -> stored w -> stored w'.
Proof. intros H S. destruct H; exact S. Qed.

Lemma boot_WF cw ch rnd st w0 :
  boot cw ch rnd st = Some w0 -> (0 <= highScore w0)%Z -> WF w0.
Proof.
  unfold boot. destruct (loadUnlocks st) as [us|]; [|discriminate].
  destruct (loadHighScore st) as [hs|]; [|discriminate]. intros [= <-] H.
  now apply loadWorld_WF.
Qed.

(** C11: What the program has stored is what a reload would read, at every
    state of a session that started from the stored items: the unlock item
    parses to the current unlock flags and the high-score item to the
    current high score (a missing item standing for the defaults), and the
    state is well formed. *)
Theorem reachable_stored cw ch rnd st w0 w :
  boot cw ch rnd st = Some w0 -> (0 <= highScore w0)%Z -> reachable w0 w ->
  WF w /\ stored w.
Proof.
  intros B H. apply (reachable_inv stored frame_stored handled_stored);
    [exact (boot_WF cw ch rnd st w0 B H) | exact (boot_stored cw ch rnd st w0 B)].
Qed.

Lemma reachable_stored_witness :
  stored (handleInput 1000 (Key "Space") demoWorld).
Proof.
  refine (proj2 (reachable_stored 800 600 (fun _ => 1 # 2) (Storage.mk None None)
    demoWorld (handleInput 1000 (Key "Space") demoWorld) eq_refl _ _)); [simpl; lia|].
  apply (reachable_step _ demoWorld (InputAt 1000 (Key "Space")));
    [apply reachable_init | reflexivity].
Defined.

(** ** The displays follow the counters *)

Lemma frame_hud_ok now w :
  WF w -> mode w = Playing -> hud_ok w -> hud_ok (updateScore (detectCollision now w)).
Proof.
  intros W M K. destruct (detectCollision_sane now w W M) as [(_ & _ & _ & P & _) _].
  destruct (detectCollision_shown now w (proj2 K)) as (H1 & Lv1 & L1 & _).
  exact (updateScore_hud_ok _ P H1 Lv1 L1).
Qed.

(** The displays of a session that starts with nothing stored, or with a
    high score stored in the form the program writes. *)
Lemma boot_hud_ok cw ch rnd st w0 :
  boot cw ch rnd st = Some w0 -> highScoreText st = show_Z (highScore w0) -> hud_ok w0.
Proof.
  unfold boot. destruct (loadUnlocks st) as [us|]; [|discriminate].
  destruct (loadHighScore st) as [hs|]; [|discriminate]. intros [= <-] T.
  unfold hud_ok, score_shown, highScore_shown, level_shown, lives_shown.
  cbn in *. now rewrite T.
Qed.

(** C12: What the player reads is the state: in every state of a session booted
    from a store whose high score is in the form the program writes, the
    level, lives and high-score displays show [level], [lives] and
    [highScore], and the score display shows [score] once the script has
    written it; until then the score is 0. *)
Theorem reachable_hud cw ch rnd st w0 w :
  boot cw ch rnd st = Some w0 -> (0 <= highScore w0)%Z ->
  highScoreText st = show_Z (highScore w0) -> reachable w0 w -> hud_ok w.
Proof.
  intros B H T R.
  exact (proj2 (reachable_inv hud_ok frame_hud_ok handled_hud_ok w0 w
    (boot_WF cw ch rnd st w0 B H) (boot_hud_ok cw ch rnd st w0 B T) R)).
Qed.

Lemma reachable_hud_witness :
  hud_ok (gameLoop 16 1000 (handleInput 1000 (Key "Space") demoWorld)).
Proof.
  apply (reachable_hud 800 600 (fun _ => 1 # 2) (Storage.mk None None) demoWorld);
    [reflexivity | simpl; lia | reflexivity |].
  apply (reachable_step _ (handleInput 1000 (Key "Space") demoWorld) (Frame 16 1000));
    [|cbn [step]; now replace (rafPending _) with true by (vm_compute; reflexivity)].
  apply (reachable_step _ demoWorld (InputAt 1000 (Key "Space")));
    [apply reachable_init | reflexivity].
Defined.

(** ** The selected object stays typed *)

Lemma frame_Typed now w :
  WF w -> mode w = Playing -> Typed w -> Typed (updateScore (detectCollision now w)).
Proof.
  intros W M T. destruct (detectCollision_sane now w W M) as [(_ & _ & _ & P & _) _].
  apply updateScore_Typed; [exact P|].
  apply (Typed_view w); [apply (keeps (view:=shape)) | apply (keeps (view:=store)) | exact T].
Qed.

Lemma loadWorld_Typed cw ch rnd st us hs :
  length us = length flyingObjects -> js_get 0 us = true ->
  Typed (loadWorld cw ch rnd st us hs).
Proof. intros L U. unfold Typed. cbn. auto 7 with arith. Qed.

(** C13: The indices stay in range and the player stays an instance of the
    selected object: in every state of a session that starts with one unlock
    flag per catalog entry and the first object unlocked,
    [flyingObjects[currentObjectIndex]] exists, there is still one flag per
    entry, the first and the selected object are unlocked, and the player
    stands at x = 50 with the width, height, lift and gravity of the
    selected object. *)
Theorem reachable_Typed cw ch rnd st us hs w :
  (0 <= hs)%Z -> length us = length flyingObjects -> js_get 0 us = true ->
  reachable (loadWorld cw ch rnd st us hs) w -> Typed w.
Proof.
  intros H L U R.
  refine (proj2 (reachable_inv Typed frame_Typed handled_Typed _ w _ _ R));
    [now apply loadWorld_WF | now apply loadWorld_Typed].
Qed.

Lemma reachable_Typed_witness :
  Typed (handleInput 1000 (Key "Space") demoWorld).
Proof.
  apply (reachable_Typed 800 600 (fun _ => 1 # 2) (Storage.mk None None) defaultUnlocks 0);
    [lia | reflexivity | reflexivity |].
  apply (reachable_step _ demoWorld (InputAt 1000 (Key "Space")));
    [apply reachable_init | reflexivity].
Defined.

(** ** The layout on a dense display

    [resizeCanvas] gives the canvas [innerWidth * dpr] pixels and scales the
    context by [dpr], so that one unit of the drawing coordinates is one CSS
    pixel, the unit of the pointer coordinates [clientX] and [clientY]; the
    window is [innerWidth] units wide.  The layout of the screens is
    computed from [canvas.width], which counts device pixels. *)

Lemma resizeCanvas_canvasWidth iw ih dpr w :
  1 <= dpr -> 1 <= iw -> 1 <= ih ->
  iw * dpr - 1 < canvasWidth (resizeCanvas iw ih dpr w).
Proof.
  intros D I H. unfold resizeCanvas.
  destruct (Qeq_bool dpr 0) eqn:Z; [apply Qeq_bool_iff in Z; lra|].
  pose proof (Qfloor_le (iw * dpr)) as F1. pose proof (Qlt_floor (iw * dpr)) as F2.
  pose proof (Qlt_floor (ih * dpr)) as F3.
  assert (1 <= iw * dpr) as P1 by nra. assert (1 <= ih * dpr) as P2 by nra.
  rewrite inject_Z_plus in F2, F3. change (inject_Z 1) with 1 in F2, F3.
  assert (0 < Qfloor (iw * dpr))%Z as W
    by (apply Z.lt_nge; intros N; apply (Qle_bool_iff _ _) in F1;
        assert (inject_Z (Qfloor (iw * dpr)) <= 0) by (rewrite Zle_Qle in N; exact N); lra).
  assert (0 < Qfloor (ih * dpr))%Z as Ht
    by (apply Z.lt_nge; intros N;
        assert (inject_Z (Qfloor (ih * dpr)) <= 0) by (rewrite Zle_Qle in N; exact N); lra).
  replace (Qfloor (iw * dpr) >? 0)%Z with true by (symmetry; apply Z.gtb_lt; lia).
  replace (Qfloor (ih * dpr) >? 0)%Z with true by (symmetry; apply Z.gtb_lt; lia).
  cbn [andb]. simpl_goal. lra.
Qed.

(** C16: On a display of pixel ratio 3 or more, in a window at least 262 pixels
    wide, no pointer position inside the window selects an object or hits a
    button: the rectangles of the introduction screen and the buttons of the
    end screen lie beyond the right edge of the window, so that a game can
    be started and restarted with the Space key only. *)
Theorem dense_display_unreachable iw ih dpr w x y :
  3 <= dpr -> 262 <= iw -> 1 <= ih -> x <= iw ->
  let w' := resizeCanvas iw ih dpr w in
  pickObject x y (layoutObjectAreas w') = None /\
  forall buffer top, inButton buffer top x y w' = false.
Proof.
  intros D I H X w'.
  assert (iw * dpr - 1 < canvasWidth w') as C by (apply resizeCanvas_canvasWidth; lra).
  assert (3 * iw <= iw * dpr) as M by nra. clearbody w'. split.
  - apply pickObject_locked. intros i a A In. exfalso.
    unfold layoutObjectAreas in A. simpl_world.
    rewrite nth_error_map in A. destruct (nth_error (seq 0 _) i) as [k|] eqn:K; [|discriminate].
    injection A as <-. unfold inArea in In. cbn [Area.x] in In.
    apply andb_true_iff in In. destruct In as [In _].
    apply andb_true_iff in In. destruct In as [In _].
    apply andb_true_iff in In. destruct In as [In _]. reflect_hyps.
    assert (0 <= inject_Z (Z.of_nat k)) by (change 0 with (inject_Z 0); rewrite <- Zle_Qle; lia).
    unfold objectSize, objectSpacing in In. cbn [length flyingObjects Z.of_nat Pos.of_succ_nat Pos.succ] in In.
    set (n := inject_Z (Z.of_nat k)) in *. set (c := iw * dpr) in *. clearbody n c.
    unfold inject_Z in In. no_div. lra.
  - intros buffer top. unfold inButton, centerX, buttonWidth.
    replace (x >=? canvasWidth w' / 2 - 220 / 2)%game with false; [reflexivity|].
    symmetry. apply Qleb_false. set (c := iw * dpr) in *. clearbody c. no_div. lra.
Qed.

Lemma dense_display_unreachable_witness :
  pickObject 300 295 (layoutObjectAreas (resizeCanvas 390 800 3 demoWorld)) = None.
Proof.
  apply (dense_display_unreachable 390 800 3 demoWorld 300 295); vm_compute; discriminate.
Defined.

