(* ===== verification/Render.v ===== *)
(** * Render: what a frame draws

    The drawing code of [script.js] as display lists: a drawing function is
    the list of the calls it makes on the 2D context, in order, for the state
    in which it is called.  [drawParticles] (lines 179-192), [Obstacle.draw]
    (lines 338-362), [Coin.draw] (lines 382-413), the drawing of
    [drawBackground] (lines 680-716) and of [drawPlayer] (lines 718-796),
    [drawMockLeaderboard] (lines 798-812) and the drawing statements of the
    three branches of [gameLoop] (lines 824-1056).

    A call is a constructor of [Cmd] with the arguments of the source; an
    assignment to a property of the context is a constructor too
    ([SetSize] is the pair of assignments to [canvas.width] and
    [canvas.height], which clears the canvas and resets the context).  Every arc
    of the program is a full circle (from 0 to [2 * Math.PI]) and every
    ellipse is a full, unrotated one: these constant arguments are not
    repeated.  Two values are symbolic: the hue of a star, drawn from
    [Math.random()] at each frame ([RandomHsl]), and the pulse of a nebula,
    [Math.sin(frame * 0.03) * 0.1 + 1], which scales the radius of
    [PulsedArc].  Drawing does not change the state of the game; the state
    changes that the source interleaves with it are in [Background],
    [Particles] and [Loop]. *)

From Stdlib Require Import String ZArith QArith Qround Qminmax Lqa Lia Bool List.
From S2P Require Import Prelude Entities Storage Particles Background Spawner.
From S2P Require Import Progression Collision Session Loop.
Import ListNotations.
Local Open Scope Q_scope.
Local Open Scope string_scope.

(** ** The calls on the context *)

(** [Impact] is the family list ["Impact", sans-serif]. *)
Inductive Family := Impact | SansSerif.

Record Font := mkFont { bold : bool; px : Q; family : Family }.

Inductive Style :=
| Solid (code : string)
| Paint (c : Color)
| RandomHsl (saturation lightness : Z)
| LinearGradient (x0 y0 x1 y1 : Q) (stop0 stop1 : string).

Inductive Cmd :=
| SetSize (width height : Z)
| Scale (x y : Q) | ImageSmoothingEnabled (b : bool)
| Save | Restore | Translate (x y : Q)
| ClearRect (x y w h : Q)
| FillStyle (s : Style) | StrokeStyle (code : string) | LineWidth (w : Q)
| GlobalAlpha (a : Q)
| SetFont (f : Font) | TextAlign (a : string) | TextBaseline (b : string)
| ShadowBlur (b : Q) | ShadowColor (code : string)
| BeginPath | ClosePath | Fill | Stroke
| Arc (x y r : Q) | PulsedArc (x y r : Q) (frame : Z) | Ellipse (x y rx ry : Q)
| MoveTo (x y : Q) | LineTo (x y : Q) | QuadraticCurveTo (cx cy x y : Q)
| FillRect (x y w h : Q) | StrokeRect (x y w h : Q)
| FillText (text : string) (x y : Q).

(** ** Particles, obstacles and collectibles *)

(** The body of the [forEach] of [drawParticles]. *)
Definition drawParticle (p : Particle.t) : list Cmd :=
  [ BeginPath; Arc (Particle.x p) (Particle.y p) (Particle.size p);
    FillStyle (Paint (Particle.color p)); Fill ].

Definition drawParticles (w : World) : list Cmd := flat_map drawParticle (particles w).

(** The rectangle [Obstacle.draw] fills: from the top of the canvas for a top
    obstacle, down to its bottom for the other. *)
Definition obstacleBox (w : World) (o : Obstacle.t) : Area.t :=
  Area.mk (Obstacle.x o)
    (if Obstacle.isTop o then 0 else canvasHeight w - Obstacle.height o)
    (Obstacle.width o) (Obstacle.height o).

(** The body of the [forEach] over the rings. *)
Definition drawRing (w : World) (o : Obstacle.t) (r : Ring.t) : list Cmd :=
  let ringY :=
    if Obstacle.isTop o then Ring.y r
    else canvasHeight w - Obstacle.height o + Ring.y r in
  [ GlobalAlpha (Ring.alpha r); BeginPath;
    Arc (Obstacle.x o + Obstacle.width o / 2) ringY (Obstacle.width o / 2); Stroke ].

(** [Obstacle.draw]. *)
Definition drawObstacle (w : World) (o : Obstacle.t) : list Cmd :=
  let b := obstacleBox w o in
  [ FillStyle (LinearGradient (Obstacle.x o) 0 (Obstacle.x o + Obstacle.width o) 0
      (if (score w <? 200)%Z then "rgba(192, 192, 192, 0.8)" else "rgba(255, 0, 0, 0.8)")
      "rgba(0, 0, 0, 0.2)");
    FillRect (Area.x b) (Area.y b) (Area.width b) (Area.height b);
    StrokeStyle (if (score w <? 200)%Z then "#FFFFFF" else "#FF4444");
    LineWidth 2 ]
  ++ flat_map (drawRing w o) (Obstacle.rings o)
  ++ [ GlobalAlpha 1 ].

(** The disc and the sign of a coin or of a capsule. *)
Definition drawDisc (x y : Q) (disc sign : string) : list Cmd :=
  [ FillStyle (Solid disc); BeginPath; Arc x y (coinSize / 2); Fill;
    FillStyle (Solid sign); SetFont (mkFont false 10 SansSerif); TextAlign "center";
    FillText "$" x (y + 3) ].

(** [Coin.draw]. *)
Definition drawCoin (c : Coin.t) : list Cmd :=
  let x := Coin.x c in
  let y := Coin.y c in
  match Coin.type c with
  | heart =>
      [ FillStyle (Solid "#FF4444"); BeginPath;
        MoveTo x (y + coinSize / 4);
        QuadraticCurveTo (x - coinSize / 2) (y - coinSize / 4) x (y - coinSize / 2);
        QuadraticCurveTo (x + coinSize / 2) (y - coinSize / 4) x (y + coinSize / 4);
        Fill ]
  | powerUpCapsule => drawDisc x y "#FF0000" "#FFFFFF"
  | coin => drawDisc x y "#FFD700" "#000000"
  end.

(** ** The player *)

(** The shape of the catalog entry [i] in the rectangle of [width] by
    [height] whose top left corner is [(x, y)]: the [switch] of [drawPlayer]
    (lines 752-794), for the rectangle of the player, and that of the
    introduction screen (lines 864-904), for a square of side [objectSize],
    draw the same four shapes. *)
Definition drawShape (i : nat) (x y width height : Q) : list Cmd :=
  match i with
  | 0%nat =>
      [ FillStyle (Solid "#FF0000"); BeginPath;
        Ellipse (x + width / 2) (y + height * 2 / 3) (width / 2) (height / 4); Fill;
        FillStyle (Solid "#C0C0C0"); BeginPath;
        Ellipse (x + width / 2) (y + height / 3) (width / 3) (height / 5); Fill ]
  | 1%nat =>
      [ FillStyle (Solid "#FF4500");
        FillRect (x + width / 3) (y + height / 6) (width / 3) (height * 2 / 3);
        FillStyle (Solid "#FFFF00"); BeginPath;
        MoveTo (x + width / 2) (y + height);
        QuadraticCurveTo (x + width * 2 / 3) (y + height * 4 / 3) (x + width) (y + height);
        Fill ]
  | 2%nat =>
      [ FillStyle (Solid "#00CED1"); BeginPath;
        MoveTo x (y + height / 2);
        LineTo (x + width / 2) y;
        LineTo (x + width) (y + height / 2);
        LineTo (x + width * 2 / 3) (y + height);
        LineTo (x + width / 3) (y + height);
        ClosePath; Fill ]
  | 3%nat =>
      [ FillStyle (Solid "#FFD700");
        FillRect (x + width / 4) (y + height * 2 / 5) (width / 2) (height / 5);
        FillStyle (Solid "#000000"); BeginPath;
        Arc (x + width / 3) (y + height / 3) 5; Fill;
        BeginPath;
        Arc (x + width * 2 / 3) (y + height / 3) 5; Fill ]
  | _ => []
  end.

(** The colour of the halo (lines 726-730). *)
Definition effectColor (w : World) : string :=
  if Player.boost (player w) then "#FF0000"
  else if powerUpIs double (powerUp w) then "#FFFF00"
  else if powerUpIs slow (powerUp w) then "#00FF00"
  else if powerUpIs shield (powerUp w) then "#00FFFF"
  else "#FFFFFF".

(** The drawing of [drawPlayer]: the blinking of a protected player, the
    halo of an effect, the shape of the selected object. *)
Definition drawPlayer_calls (w : World) : list Cmd :=
  let p := player w in
  [ GlobalAlpha
      (if (Z.rem (frame w) 10 <? 5)%Z &&
          (Player.invincible p || powerUpIs shield (powerUp w))
       then 0.5 else 1) ]
  ++ (if Player.boost p || isSomeb (powerUp w) || Player.invincible p then
        [ FillStyle (Solid (effectColor w)); BeginPath;
          Arc (Player.x p + Player.width p / 2) (Player.y p + Player.height p / 2)
              (Player.width p / 2 + 5);
          Fill ]
      else [])
  ++ drawShape (currentObjectIndex w) (Player.x p) (Player.y p)
       (Player.width p) (Player.height p)
  ++ [ GlobalAlpha 1 ].

(** ** The background *)

(** The drawing of one star and of one nebula, before they are moved. *)
Definition drawStar (w : World) (s : Star.t) : list Cmd :=
  [ FillStyle (RandomHsl 100 80); BeginPath;
    Arc (Star.x s) (Star.y s) (Star.size s * (1 + inject_Z (stage w) * 0.1)); Fill ].

Definition drawNebula (w : World) (n : Nebula.t) : list Cmd :=
  [ FillStyle (Paint (Hsl (Nebula.hue n) 80 60));
    GlobalAlpha (0.4 + inject_Z (Z.rem (stage w) 2) * 0.2); BeginPath;
    PulsedArc (Nebula.x n) (Nebula.y n)
      (Nebula.size n * (1 + inject_Z (stage w) * 0.1)) (frame w);
    Fill ].

(** The drawing of [drawBackground], for the world in which it is called. *)
Definition drawBackground_calls (w : World) : list Cmd :=
  [ FillStyle (LinearGradient 0 0 0 (canvasHeight w)
      (if (Z.rem (stage w) 2 =? 0)%Z then "#000033" else "#1A0033") "#000000");
    FillRect 0 0 (canvasWidth w) (canvasHeight w) ]
  ++ flat_map (drawStar w) (stars w)
  ++ flat_map (drawNebula w) (nebulas w)
  ++ [ GlobalAlpha 1 ].

(** ** The leaderboard *)

(** The line of the leader of rank [i] (from 0). *)
Definition leaderLine (w : World) (i : nat) (leader : string * Z) : Cmd :=
  FillText (show_Z (Z.of_nat i + 1) ++ ". " ++ fst leader ++ " - " ++ show_Z (snd leader))%string
    (canvasWidth w / 2) (canvasHeight w / 2 - 40 + inject_Z (Z.of_nat i) * 40).

(** [mockLeaders.forEach((leader, i) => ...)] from the index [i]. *)
Fixpoint leaderLines (w : World) (i : nat) (leaders : list (string * Z)) : list Cmd :=
  match leaders with
  | [] => []
  | leader :: rest => leaderLine w i leader :: leaderLines w (S i) rest
  end.

Definition drawMockLeaderboard (w : World) : list Cmd :=
  [ FillStyle (Solid "#FFFFFF"); SetFont (mkFont false 28 Impact); TextAlign "center";
    FillText "Top $fullsend Scores:" (canvasWidth w / 2) (canvasHeight w / 2 - 80) ]
  ++ leaderLines w 0 mockLeaders
  ++ [ TextAlign "left" ].

(** ** The end screen *)

(** One button of lines 1030-1047: its box and its border, and the style of
    its label. *)
Definition drawButton (w : World) (top : Q) : list Cmd :=
  [ FillStyle (Solid "#FF0000");
    FillRect (centerX w) top buttonWidth buttonHeight;
    StrokeStyle "#000000"; LineWidth 2;
    StrokeRect (centerX w) top buttonWidth buttonHeight;
    FillStyle (Solid "#FFFFFF"); SetFont (mkFont false 24 Impact) ].

(** Lines 1009-1047: the title, the message or the leaderboard, the two
    buttons. *)
Definition drawEndScreen (w : World) : list Cmd :=
  [ FillStyle (Solid (if victory w then "#00FF00" else "#FF0000"));
    SetFont (mkFont true 48 Impact); TextAlign "center"; ShadowBlur 10;
    ShadowColor (if victory w then "#00FF00" else "#FFFFFF");
    FillText (if victory w then "Victory!" else "Game Over")
      (canvasWidth w / 2) (canvasHeight w / 2 - 150);
    ShadowBlur 0 ]
  ++ (if victory w then
        [ FillStyle (Solid "#FFFFFF"); SetFont (mkFont false 24 Impact);
          FillText "You Escaped the Galaxy!" (canvasWidth w / 2) (canvasHeight w / 2 - 100) ]
      else drawMockLeaderboard w)
  ++ drawButton w (playAgainY w)
  ++ [ TextBaseline "middle";
       FillText "SEND AGAIN" (canvasWidth w / 2) (playAgainY w + buttonHeight / 2) ]
  ++ drawButton w (postScoreY w)
  ++ [ FillText "POST SCORE TO X" (canvasWidth w / 2) (postScoreY w + buttonHeight / 2) ].

(** ** The introduction screen *)

(** The font of the small texts: [Math.min(16, canvas.width / 40)] pixels. *)
Definition smallFont (w : World) : Font := mkFont false (Qmin 16 (canvasWidth w / 40)) Impact.

(** The body of the [forEach] of lines 862-910 for the catalog entry [i]:
    the shape in the rectangle laid out for it at line 842, dimmed when the
    object is locked, and its unlock score under it. *)
Definition drawObject (w : World) (i : nat) (obj : FlyingObject.t) : list Cmd :=
  match nth_error (objectAreas w) i with
  | Some a =>
      [ GlobalAlpha (if js_get i (unlocks w) then 1 else 0.3) ]
      ++ drawShape i (Area.x a) (Area.y a) objectSize objectSize
      ++ [ FillStyle (Solid "#FFFFFF"); SetFont (smallFont w);
           FillText (show_Z (FlyingObject.unlockScore obj))
             (Area.x a + objectSize / 2) (Area.y a + objectSize + 15) ]
  | None => []
  end.

Fixpoint drawObjects (w : World) (i : nat) (objs : list FlyingObject.t) : list Cmd :=
  match objs with
  | [] => []
  | obj :: rest => drawObject w i obj ++ drawObjects w (S i) rest
  end.

(** One entry of the [powerUps] table of lines 944-956, at height [y]. *)
Definition drawKeyEntry (y : Q) (entry : string * string) : list Cmd :=
  [ FillStyle (Solid (fst entry)); FillRect (20 + 5) (y - 10) 15 15;
    FillStyle (Solid "#FFFFFF"); FillText (snd entry) (20 + 25) y ].

Definition powerUpKeys : list (string * string) :=
  [ ("#FFFF00", "Double Score"); ("#00FF00", "Slow Motion");
    ("#00FFFF", "Shield"); ("#FF0000", "Blast") ].

(** [powerUps.forEach(...)] with [currentY] starting at [y]. *)
Fixpoint drawKeyEntries (y : Q) (entries : list (string * string)) : list Cmd :=
  match entries with
  | [] => []
  | e :: rest => drawKeyEntry y e ++ drawKeyEntries (y + 20) rest
  end.

(** The key of lines 913-968, with [keyX = 20] and [currentY] starting at
    [keyStartY]. *)
Definition drawKey (w : World) (keyStartY : Q) : list Cmd :=
  let keyX := 20 in
  let y1 := keyStartY + 20 in
  let y2 := y1 + 20 in
  let y3 := y2 + 20 in
  let y4 := y3 + 20 * inject_Z (Z.of_nat (length powerUpKeys)) in
  let y5 := y4 + 20 in
  [ SetFont (smallFont w); TextAlign "left";
    FillText "Power-Ups:" keyX keyStartY;
    FillStyle (Solid "#FFD700"); BeginPath; Arc (keyX + 7.5) (y1 - 5) 7.5; Fill;
    FillStyle (Solid "#000000"); SetFont (mkFont false 10 SansSerif);
    FillText "$" (keyX + 7.5) (y1 - 2);
    SetFont (smallFont w); FillStyle (Solid "#FFFFFF");
    FillText "Boost (5 Coins, Red)" (keyX + 20) y1;
    FillStyle (Solid "#FF0000"); BeginPath; Arc (keyX + 7.5) (y2 - 5) 7.5; Fill;
    FillStyle (Solid "#FFFFFF"); SetFont (mkFont false 10 SansSerif);
    FillText "$" (keyX + 7.5) (y2 - 2);
    SetFont (smallFont w);
    FillText "Random:" (keyX + 20) y2 ]
  ++ drawKeyEntries y3 powerUpKeys
  ++ [ FillStyle (Solid "#FF4444"); BeginPath;
       MoveTo (keyX + 7.5) (y4 - 2.5);
       QuadraticCurveTo keyX (y4 - 7.5) (keyX + 7.5) (y4 - 12.5);
       QuadraticCurveTo (keyX + 15) (y4 - 7.5) (keyX + 7.5) (y4 - 2.5);
       Fill;
       FillStyle (Solid "#FFFFFF");
       FillText "Extra Life" (keyX + 20) y4;
       FillStyle (Solid "#FFFFFF");
       FillRect keyX (y5 - 10) 15 15;
       FillText "Invincibility (Milestones)" (keyX + 20) y5;
       TextAlign "left" ].

(** Lines 848-970, for the world in which [objectAreas] has been laid out. *)
Definition drawIntro (w : World) : list Cmd :=
  [ FillStyle (Solid "#FF0000");
    SetFont (mkFont true (Qmin 36 (canvasWidth w / 20)) Impact);
    TextAlign "center"; ShadowBlur 3; ShadowColor "#FF0000";
    FillText "$FULLSEND" (canvasWidth w / 2) 50;
    FillText "COMMUNITY CHALLENGE" (canvasWidth w / 2) 80;
    ShadowBlur 0;
    FillStyle (Solid "#FFFFFF");
    SetFont (mkFont false (Qmin 24 (canvasWidth w / 30)) Impact);
    FillText "Tap an object to start (Unlock at scores):" (canvasWidth w / 2) 116 ]
  ++ drawObjects w 0 flyingObjects
  ++ [ GlobalAlpha 1 ]
  ++ drawKey w (canvasHeight w / 2 - 120 + objectSize + 40).

(** ** The frame *)

(** The world in which the obstacles, the collectibles and the player are
    drawn in a playing frame: every obstacle and every collectible has been
    moved (an element is drawn right after its own update, which no other
    update or drawing reads). *)
Definition beforeDraw (deltaTime : Q) (w : World) : World :=
  moveEntities (generateObstacles (checkInvincibility
    (powerUpStep deltaTime (boostStep deltaTime (physics deltaTime w))))).

(** The drawing of the playing branch (lines 991-1003): obstacles,
    collectibles and player as they stand before the collision test, the
    particles as [updateParticles] leaves them. *)
Definition drawPlaying (deltaTime : Q) (now : Z) (w : World) : list Cmd :=
  let v := beforeDraw deltaTime w in
  flat_map (drawObstacle v) (obstacles v)
  ++ flat_map drawCoin (coins v)
  ++ drawPlayer_calls v
  ++ drawParticles (updateParticles (updateScore (detectCollision now (drawPlayer v)))).

(** The drawing of the branch on the session flags (lines 835-1055). *)
Definition drawBranch (deltaTime : Q) (now : Z) (w : World) : list Cmd :=
  if intro w then drawIntro (layoutObjectAreas w)
  else if negb (gameOver w) && negb (victory w) then drawPlaying deltaTime now w
  else
    drawEndScreen w ++ drawParticles (updateParticles w)
    ++ [ TextBaseline "alphabetic"; TextAlign "left" ].

(** The offset of a shaken canvas (lines 826-828), from the next two values
    of the oracle. *)
Definition shakeOffset (w : World) : list Cmd :=
  if (shakeTimer w >? 0)%Z then
    let (r1, w1) := random w in
    let (r2, _) := random w1 in
    [ Translate ((r1 - 0.5) * 10) ((r2 - 0.5) * 10) ]
  else [].

(** What one call of [gameLoop] draws: nothing when the frame is skipped;
    otherwise the canvas is cleared under the offset of the shake, and the
    background and the branch are drawn between [save] and [restore]. *)
Definition gameLoop_calls (timestamp : Q) (now : Z) (w : World) : list Cmd :=
  let w0 := startClock timestamp (set_rafPending false w) in
  let deltaTime := deltaTimeOf timestamp w0 in
  if (deltaTime >? 50)%game then []
  else
    let w1 := set_lastFrameTime timestamp w0 in
    let w2 := shake w1 in
    [ Save ] ++ shakeOffset w1
    ++ [ ClearRect 0 0 (canvasWidth w2) (canvasHeight w2) ]
    ++ drawBackground_calls w2
    ++ drawBranch deltaTime now (drawBackground w2)
    ++ [ Restore ].

(** The calls of [resizeCanvas] (lines 18-23) for the window size and the
    pixel ratio read at the call: the context is scaled so that one unit is
    one CSS pixel. *)
Definition resizeCanvas_calls (innerWidth innerHeight devicePixelRatio : Q) : list Cmd :=
  let dpr := if Qeq_bool devicePixelRatio 0 then 1 else devicePixelRatio in
  let width := Qfloor (innerWidth * dpr) in
  let height := Qfloor (innerHeight * dpr) in
  if (width >? 0)%Z && (height >? 0)%Z then
    [ SetSize width height; Scale dpr dpr; ImageSmoothingEnabled false ]
  else [].

(** ** What is on the canvas *)

(** The rectangles a list of calls fills. *)
Definition filled (cmds : list Cmd) : list Area.t :=
  flat_map (fun c => match c with FillRect x y w h => [Area.mk x y w h] | _ => [] end) cmds.

(** The number of context states saved and not restored by a list of
    calls that starts with [depth] of them; [None] when a [restore] finds
    nothing to restore. *)
Fixpoint saved (depth : nat) (cmds : list Cmd) : option nat :=
  match cmds with
  | [] => Some depth
  | SetSize _ _ :: rest => saved 0 rest
  | Save :: rest => saved (S depth) rest
  | Restore :: rest => match depth with O => None | S d => saved d rest end
  | _ :: rest => saved depth rest
  end.

(** A call that leaves the stack of saved states alone. *)
Definition plain (c : Cmd) : bool :=
  match c with SetSize _ _ | Save | Restore => false | _ => true end.

(** Two rectangles have a point in common that is on the border of
    neither. *)
Definition overlaps (a b : Area.t) : bool :=
  (Area.x a <? Area.x b + Area.width b)%game && (Area.x a + Area.width a >? Area.x b)%game &&
  (Area.y a <? Area.y b + Area.height b)%game && (Area.y a + Area.height a >? Area.y b)%game.

(** The rectangle of the player, in which [drawPlayer] draws the shape. *)
Definition playerBox (w : World) : Area.t :=
  Area.mk (Player.x (player w)) (Player.y (player w))
    (Player.width (player w)) (Player.height (player w)).

(** The rectangles of the two buttons of the end screen. *)
Definition playAgainBox (w : World) : Area.t :=
  Area.mk (centerX w) (playAgainY w) buttonWidth buttonHeight.

Definition postScoreBox (w : World) : Area.t :=
  Area.mk (centerX w) (postScoreY w) buttonWidth buttonHeight.

(** ** Lists of calls *)

Lemma filled_app (a b : list Cmd) : filled (a ++ b) = (filled a ++ filled b)%list.
Proof. apply flat_map_app. Qed.

Lemma filled_flat_map {A : Type} (f : A -> list Cmd) (l : list A) :
  (forall x, filled (f x) = []) -> filled (flat_map f l) = [].
Proof.
  intros H. induction l as [|x l IH]; [reflexivity|].
  cbn [flat_map]. now rewrite filled_app, H, IH.
Qed.

(** A list of plain calls leaves the stack of saved states as it is. *)
Lemma saved_plain (cmds rest : list Cmd) (d : nat) :
  forallb plain cmds = true -> saved d (cmds ++ rest) = saved d rest.
Proof.
  induction cmds as [|c cmds IH]; [reflexivity|]. cbn [forallb app].
  intros H. apply andb_true_iff in H. destruct H as [P H].
  destruct c; try discriminate; cbn [saved]; now apply IH.
Qed.

Lemma plain_app (a b : list Cmd) :
  forallb plain a = true -> forallb plain b = true -> forallb plain (a ++ b) = true.
Proof. intros A B. now rewrite forallb_app, A, B. Qed.

Lemma plain_flat_map {A : Type} (f : A -> list Cmd) (l : list A) :
  (forall x, forallb plain (f x) = true) -> forallb plain (flat_map f l) = true.
Proof.
  intros H. induction l as [|x l IH]; [reflexivity|].
  cbn [flat_map]. now apply plain_app.
Qed.

(** ** What is drawn is what is hit *)

Lemma drawObstacle_filled (w : World) (o : Obstacle.t) :
  filled (drawObstacle w o) = [obstacleBox w o].
Proof.
  unfold drawObstacle. cbn [app filled flat_map].
  change (flat_map _ (?a ++ ?b)) with (filled (a ++ b)).
  rewrite filled_app, filled_flat_map by reflexivity.
  now destruct (obstacleBox w o).
Qed.

(** Inside the canvas, the test of lines 593-598 is the overlap of the
    rectangle of the player with the rectangle [Obstacle.draw] fills. *)
Lemma hitsObstacle_overlaps (w : World) (o : Obstacle.t) :
  outOfBounds w = false -> 0 < Player.height (player w) ->
  hitsObstacle w o = overlaps (playerBox w) (obstacleBox w o).
Proof.
  unfold outOfBounds, hitsObstacle, overlaps, playerBox, obstacleBox. intros B H.
  apply orb_false_iff in B. destruct B as [B1 B2]. reflect_hyps.
  cbn [Area.x Area.y Area.width Area.height].
  destruct (Obstacle.isTop o); cbn [andb orb negb]; case_guards.
Qed.

(** The hazard test of [detectCollision] decides what the player sees: a
    collision is detected exactly when the rectangle of the player leaves
    the canvas at the top or at the bottom, or overlaps a rectangle that
    [Obstacle.draw] fills for one of the obstacles. *)
Lemma collision_is_drawn (w : World) :
  0 < Player.height (player w) ->
  collisionDetected w =
  outOfBounds w ||
  existsb (fun o => existsb (overlaps (playerBox w)) (filled (drawObstacle w o))) (obstacles w).
Proof.
  intros H. unfold collisionDetected. destruct (outOfBounds w) eqn:B; [reflexivity|].
  cbn [orb]. induction (obstacles w) as [|o os IH]; [reflexivity|]. cbn [existsb].
  rewrite IH, drawObstacle_filled, (hitsObstacle_overlaps w o B H). cbn [existsb].
  now rewrite orb_false_r.
Qed.

(** ** The buttons of the end screen *)

Lemma drawMockLeaderboard_filled (w : World) : filled (drawMockLeaderboard w) = [].
Proof. reflexivity. Qed.

Lemma drawEndScreen_filled (w : World) :
  filled (drawEndScreen w) = [playAgainBox w; postScoreBox w].
Proof. unfold drawEndScreen. now destruct (victory w). Qed.

(** The hit test of a rectangle depends on its sides up to [==]. *)
Lemma inArea_ext (x y : Q) (a b : Area.t) :
  Area.x a == Area.x b -> Area.y a == Area.y b ->
  Area.width a == Area.width b -> Area.height a == Area.height b ->
  inArea x y a = inArea x y b.
Proof.
  intros X Y W H. unfold inArea, Qgeb. now rewrite X, Y, W, H.
Qed.

(** The hit test of a button is the hit test of its rectangle, extended by
    the buffer upwards and downwards. *)
Lemma inButton_inArea (buffer top x y : Q) (w : World) :
  inButton buffer top x y w =
  inArea x y (Area.mk (centerX w) (top - buffer) buttonWidth (buttonHeight + 2 * buffer)).
Proof.
  unfold inButton, inArea, Qgeb. cbn [Area.x Area.y Area.width Area.height].
  f_equal. apply Qleb_proper; [reflexivity | ring].
Qed.

(** C17: The end screen fills two rectangles, one per button, and the mouse
    handler tests exactly these: a click restarts the game when it falls in
    the first, shares the score when it falls in the second and not in the
    first, and does nothing elsewhere.  The touch handler tests the same
    rectangles extended by 20 pixels upwards and downwards. *)
Theorem endScreen_buttons (w : World) (x y : Q) :
  filled (drawEndScreen w) = [playAgainBox w; postScoreBox w] /\
  endScreenInput 0 x y w =
    (if inArea x y (playAgainBox w) then resetGame w
     else if inArea x y (postScoreBox w) then postScore w else w) /\
  endScreenInput 20 x y w =
    (if inArea x y (Area.mk (centerX w) (playAgainY w - 20) buttonWidth (buttonHeight + 2 * 20))
     then resetGame w
     else if inArea x y
               (Area.mk (centerX w) (postScoreY w - 20) buttonWidth (buttonHeight + 2 * 20))
     then postScore w else w).
Proof.
  split; [apply drawEndScreen_filled|]. unfold endScreenInput. rewrite !inButton_inArea.
  split; [|reflexivity].
  assert (forall top, inArea x y (Area.mk (centerX w) (top - 0) buttonWidth (buttonHeight + 2 * 0))
                      = inArea x y (Area.mk (centerX w) top buttonWidth buttonHeight)) as E
    by (intros top; apply inArea_ext; cbn [Area.x Area.y Area.width Area.height]; ring).
  now rewrite !E.
Qed.

Lemma filled_obstacles (w : World) (os : list Obstacle.t) :
  filled (flat_map (drawObstacle w) os) = map (obstacleBox w) os.
Proof.
  induction os as [|o os IH]; [reflexivity|].
  cbn [flat_map map]. now rewrite filled_app, drawObstacle_filled, IH.
Qed.

Lemma collisionDetected_drawPlayer (w : World) :
  collisionDetected (drawPlayer w) = collisionDetected w.
Proof. destruct (drawPlayer_frame w) as (ps & c & ->). reflexivity. Qed.

#[export] Typeclasses Opaque beforeDraw.

#[export] Instance beforeDraw_session dt : Keeps session (beforeDraw dt).
Proof. intros w. unfold beforeDraw. now rewrite !(keeps (view:=session)). Qed.

Lemma shape_height (w w' : World) :
  shape w' = shape w -> Player.height (player w') = Player.height (player w).
Proof. intros S. exact (f_equal (fun s => Stats.height (snd s)) S). Qed.

(** C15: In a playing frame the hazard test runs on what the frame has just
    drawn: a collision is detected exactly when the rectangle in which the
    player was drawn leaves the canvas at the top or at the bottom, or
    overlaps one of the rectangles that [Obstacle.draw] filled in this
    frame. *)
Theorem frame_hits_what_it_draws (dt : Q) (w : World) :
  0 < Player.height (player w) ->
  let v := beforeDraw dt w in
  collisionDetected (beforeCollision dt w) =
  outOfBounds v ||
  existsb (overlaps (playerBox v)) (filled (flat_map (drawObstacle v) (obstacles v))).
Proof.
  intros H v. change (beforeCollision dt w) with (drawPlayer v).
  rewrite collisionDetected_drawPlayer, filled_obstacles, existsb_of_map.
  unfold collisionDetected. destruct (outOfBounds v) eqn:B; [reflexivity|]. cbn [orb].
  apply existsb_pointwise. intros o. apply hitsObstacle_overlaps; [exact B|].
  now rewrite (shape_height w v (keeps (view:=shape) (f:=beforeDraw dt) w)).
Qed.

Lemma frame_hits_what_it_draws_witness :
  collisionDetected (beforeCollision 16 lastLifeWorld) =
  outOfBounds (beforeDraw 16 lastLifeWorld) ||
  existsb (overlaps (playerBox (beforeDraw 16 lastLifeWorld)))
    (filled (flat_map (drawObstacle (beforeDraw 16 lastLifeWorld))
               (obstacles (beforeDraw 16 lastLifeWorld)))).
Proof. apply (frame_hits_what_it_draws 16 lastLifeWorld). reflexivity. Defined.

(** ** [save] and [restore] are paired *)

Ltac plain_calls :=
  repeat first
    [ reflexivity
    | apply plain_app
    | apply plain_flat_map; intros ?
    | match goal with |- context [if ?b then _ else _] => destruct b end ].

Lemma drawShape_plain i x y wd ht : forallb plain (drawShape i x y wd ht) = true.
Proof. do 4 (destruct i as [|i]; [reflexivity|]). reflexivity. Qed.

Lemma drawBackground_calls_plain w : forallb plain (drawBackground_calls w) = true.
Proof. unfold drawBackground_calls. plain_calls. Qed.

Lemma drawObjects_plain w objs : forall i, forallb plain (drawObjects w i objs) = true.
Proof.
  induction objs as [|obj objs IH]; intros i; [reflexivity|]. cbn [drawObjects].
  apply plain_app; [|apply IH]. unfold drawObject.
  destruct (nth_error _ _); [|reflexivity].
  apply plain_app; [plain_calls | apply plain_app; [apply drawShape_plain | reflexivity]].
Qed.

Lemma drawIntro_plain w : forallb plain (drawIntro w) = true.
Proof.
  unfold drawIntro. apply plain_app; [reflexivity|].
  apply plain_app; [apply drawObjects_plain | reflexivity].
Qed.

Lemma drawEndScreen_plain w : forallb plain (drawEndScreen w) = true.
Proof. unfold drawEndScreen. now destruct (victory w). Qed.

Lemma drawPlaying_plain dt now w : forallb plain (drawPlaying dt now w) = true.
Proof.
  unfold drawPlaying, drawParticles, drawPlayer_calls. cbv zeta.
  apply plain_app; [apply plain_flat_map; intros o; unfold drawObstacle; plain_calls|].
  apply plain_app; [apply plain_flat_map; intros c; unfold drawCoin; now destruct (Coin.type c)|].
  apply plain_app; [|now apply plain_flat_map].
  apply plain_app; [reflexivity|].
  apply plain_app; [plain_calls | apply plain_app; [apply drawShape_plain | reflexivity]].
Qed.

Lemma drawBranch_plain dt now w : forallb plain (drawBranch dt now w) = true.
Proof.
  unfold drawBranch. destruct (intro w); [apply drawIntro_plain|].
  destruct (_ && _); [apply drawPlaying_plain|].
  apply plain_app; [apply drawEndScreen_plain|].
  apply plain_app; [now apply plain_flat_map | reflexivity].
Qed.

Lemma shakeOffset_plain w : forallb plain (shakeOffset w) = true.
Proof. unfold shakeOffset. now destruct (_ >? 0)%Z. Qed.

(** C18: The calls of one frame, skipped or not, leave the stack of saved
    context states as they found it: the only [save] of the program is
    matched by the [restore] at the end of the frame, and the frame that is
    skipped returns before the [save].  The offset of a shake therefore
    never outlives its frame. *)
Theorem gameLoop_calls_balanced (ts : Q) (now : Z) (w : World) (d : nat) :
  saved d (gameLoop_calls ts now w) = Some d.
Proof.
  unfold gameLoop_calls. cbv zeta. destruct (_ >? 50)%game; [reflexivity|].
  cbn [app saved]. rewrite saved_plain by apply shakeOffset_plain. cbn [app saved].
  rewrite saved_plain by apply drawBackground_calls_plain.
  now rewrite saved_plain by apply drawBranch_plain.
Qed.

(** A frame is skipped exactly when it draws nothing: the canvas keeps the
    image of the last frame that was not late. *)
Lemma gameLoop_calls_skipped (ts : Q) (now : Z) (w : World) :
  gameLoop_calls ts now w = [] <->
  (deltaTimeOf ts (startClock ts (set_rafPending false w)) >? 50)%game = true.
Proof.
  unfold gameLoop_calls. cbv zeta. destruct (_ >? 50)%game; [tauto|].
  split; discriminate.
Qed.
